(** * Pump-Fun trading bot: the trade decision engine of [script.mjs]

    A shallow embedding of the request client ([apiRequest]), the sell
    path ([pumpFunSell], [fetchSPLTokens], [sellTokens]), the position
    monitor ([monitorTrade]) and the new-listing handler of
    [simulateTrade], followed by the properties established about them.

    Conventions of the embedding.
    - A JavaScript number is an exact rational ([Q]); the only place where
      the source can leave the finite numbers, the division by
      [initialMarketCap], is given its IEEE outcomes ([Infinity], [NaN])
      by the type [number].  Rounding is not modelled; every constant of
      the source (0.5, 0.75, 1.25, 25, -10, 100) is exact in binary.
    - [Date.now()] is an integer count of milliseconds ([Z]).
    - Everything the program awaits is supplied by an explicit environment:
      the outcome of each HTTP attempt, the token accounts returned by the
      RPC node, the quote a websocket resolves to, the time each
      suspension takes and the keys the operator presses meanwhile.
      Every [await] is taken to settle after a finite time.
    - One invocation of the new-listing handler is followed at a time.
      While it is suspended the three override flags change through key
      presses only; the handlers of other listings, which the event loop
      would run during the same suspensions, are not interleaved.
    - The [retry-after] header is a whole number of seconds, as the HTTP
      standard writes a delay, or is not a number; [tx_hash] is a
      string, [null] or absent.
    - Effects are collected as a list of [event]s in program order.
    - The dashboard ([updateAccountInfo], [setVisualMode]'s styling, the
      splash screen) and the wallet loading are outside the embedding. *)

From Stdlib Require Import ZArith QArith Bool List String Lia Lqa.
Import ListNotations.
Open Scope Z_scope.

(** ** Numbers *)

Inductive number : Type :=
| Fin (q : Q)
| PInf
| NInf
| NaN.

(** [a > b] on finite numbers. *)
Definition Qgt_bool (a b : Q) : bool := negb (Qle_bool a b).

(** [x >= c] and [x <= c] for a finite constant [c]; every comparison
    with [NaN] is false. *)
Definition num_ge (x : number) (c : Q) : bool :=
  match x with
  | Fin q => Qle_bool c q
  | PInf => true
  | NInf => false
  | NaN => false
  end.

Definition num_le (x : number) (c : Q) : bool :=
  match x with
  | Fin q => Qle_bool q c
  | PInf => false
  | NInf => true
  | NaN => false
  end.

(** [(a / b) * 100] where [a] and [b] are finite. *)
Definition percent_of (a b : Q) : number :=
  if Qeq_bool b 0 then
    if Qeq_bool a 0 then NaN
    else if Qle_bool 0 a then PInf else NInf
  else Fin ((a / b) * 100)%Q.

(** ** Constants (lines 34-45) *)

Definition PROFIT_TARGET_2 : Q := 5 # 4.
Definition MONITOR_INTERVAL : Z := 5 * 1000.
Definition SELL_TIMEOUT : Z := 2 * 60 * 1000.
Definition API_RETRY_LIMIT : nat := 5.
Definition BASE_API_DELAY : Z := 1000.
Definition COOLDOWN : Z := 15000.          (* the literal of line 371 *)

(** The three values read from the process environment, with the
    defaults of the source. *)
Record config : Type := Config {
  MINIMUM_BUY_AMOUNT : Q;
  MAX_BONDING_CURVE_PROGRESS : Z;
  SELL_BONDING_CURVE_PROGRESS : Z
}.

Definition default_config : config :=
  {| MINIMUM_BUY_AMOUNT := 15 # 1000;
     MAX_BONDING_CURVE_PROGRESS := 10;
     SELL_BONDING_CURVE_PROGRESS := 15 |}.

(** ** Observable effects *)

Inductive side : Type := Buy | Sell.

(** The body posted to the trade endpoint (slippage, priority fee and key
    are constants of the source and are left out). *)
Record trade : Type := Trade {
  trade_type : side;
  trade_mint : string;
  trade_amount : Q
}.

Record TokenInfo : Type := {
  ticker : string;
  marketcap : Q;
  bondingCurve : Q
}.

(** The lines written by [updateLog] in the modelled functions, one
    constructor per call site; [MsgQuote] stands for the six lines that
    report a quote (lines 260-265). *)
Inductive message : Type :=
| MsgApiError (status : Z)
| MsgRateLimited (delay : Z)
| MsgBuyFailed
| MsgSellFailed
| MsgFetchError
| MsgSelling (amount : Q) (mint : string)
| MsgSold (amount : Q) (mint : string) (tx : string)
| MsgSkipping (mint : string)
| MsgQuote (info : TokenInfo) (change : number) (remaining : Z)
| MsgProfit (mint : string)
| MsgStopLoss (mint : string)
| MsgBondingCurve (mint : string)
| MsgMilestone
| MsgResetTimer
| MsgContinue
| MsgSellNow
| MsgTimeout (mint : string)
| MsgFound (info : TokenInfo) (mint : string).

Inductive event : Type :=
| Log (m : message)
| Post (t : trade)                       (* axios.post(url, data) *)
| Wait (ms : Z)                          (* setTimeout(resolve, ms) *)
| SellTokens (mint : string) (pct : Q)   (* entry of sellTokens(mint, pct) *)
| Subscribe (mint : string)              (* getTokenInfoFromWebSocket(mint) *)
| VisualMode (trading : bool).           (* setVisualMode *)

(** ** apiRequest (lines 133-160) *)

(** A value as [tx_hash] can hold it: a string, [null], or [undefined]
    where there is no such property.  The two wrappers of lines 162-200
    return such a value. *)
Inductive handle : Type :=
| Hash (h : string)
| Null
| Undefined.

(** [response.data] as far as its readers go: the JSON body [null] has
    no properties, so that reading [tx_hash] from it throws; any other
    body gives its [tx_hash] property. *)
Inductive reply : Type :=
| NullReply
| Reply (tx_hash : handle).

(** What one [axios.post] settles to.  The [retry-after] header of a
    rejection is given in the form the HTTP standard has for a delay, a
    whole number of seconds; it is [None] when the header is absent or
    not a number. *)
Inductive attempt : Type :=
| Responded (data : reply)
| Rejected (status : Z) (retry_after : option N)
| Unreachable.

Inductive completion (A : Type) : Type :=
| Returned (a : A)
| Thrown (e : attempt)
| NoValue.
Arguments Returned {A} a.
Arguments Thrown {A} e.
Arguments NoValue {A}.

(** [headers['retry-after'] * 1000 || delay]: the header is [None] when it
    is absent or not a number (the product is [NaN]); a product of zero is
    falsy too. *)
Definition retryAfter (header : option N) (delay : Z) : Z :=
  match header with
  | Some h => if (1000 * Z.of_N h =? 0) then delay else 1000 * Z.of_N h
  | None => delay
  end.

(** The [catch] block up to the test of [++attempt]: the log lines and the
    value of [delay] afterwards. *)
Definition on_error (e : attempt) (delay : Z) : Z * list event :=
  match e with
  | Rejected status header =>
      if status =? 429 then
        let d := retryAfter header delay in
        (d, [Log (MsgApiError status); Log (MsgRateLimited d)])
      else (delay, [Log (MsgApiError status)])
  | _ => (delay, [])
  end.

(** The [while (attempt < retries)] loop; [remaining] is
    [retries - attempt], so the loop is left when it reaches zero. *)
Fixpoint api_loop (net : nat -> attempt) (data : trade)
    (attempt_no remaining : nat) (delay : Z)
  : completion reply * list event :=
  match remaining with
  | O => (NoValue, [])
  | S remaining' =>
      match net attempt_no with
      | Responded d => (Returned d, [Post data])
      | e =>
          let '(delay1, logs) := on_error e delay in
          match remaining' with
          | O => (Thrown e, Post data :: logs)
          | S _ =>
              let '(r, evs) :=
                api_loop net data (S attempt_no) remaining' (delay1 * 2) in
              (r, Post data :: logs ++ Wait delay1 :: evs)
          end
      end
  end.

Definition apiRequest (net : nat -> attempt) (data : trade) (retries : nat)
  : completion reply * list event :=
  api_loop net data 0 retries BASE_API_DELAY.

(** Projections of a trace. *)
Definition is_post (e : event) : bool :=
  match e with Post _ => true | _ => false end.

Fixpoint waits (evs : list event) : list Z :=
  match evs with
  | [] => []
  | Wait ms :: evs' => ms :: waits evs'
  | _ :: evs' => waits evs'
  end.

Definition posts (evs : list event) : nat :=
  List.length (filter is_post evs).

(** ** pumpFunBuy and pumpFunSell (lines 162-200) *)

(** JavaScript truthiness of a [handle]: the empty string is falsy. *)
Definition truthy (h : handle) : bool :=
  match h with
  | Hash s => negb (String.eqb s EmptyString)
  | _ => false
  end.

(** The shared body of both wrappers: [result.tx_hash] is returned as
    it is.  When the result is [null], or [undefined] ([NoValue]),
    reading [tx_hash] throws inside the [try], and the [catch] turns
    this into the log line and [null] like a failure of the request. *)
Definition pumpFun (failed : message) (net : nat -> attempt) (data : trade)
  : handle * list event :=
  let '(r, evs) := apiRequest net data API_RETRY_LIMIT in
  match r with
  | Returned (Reply tx_hash) => (tx_hash, evs)
  | Returned NullReply => (Null, evs ++ [Log failed])
  | Thrown _ => (Null, evs ++ [Log failed])
  | NoValue => (Null, evs ++ [Log failed])
  end.

Definition pumpFunBuy (net : nat -> attempt) (mint : string) (amount : Q)
  : handle * list event :=
  pumpFun MsgBuyFailed net (Trade Buy mint amount).

Definition pumpFunSell (net : nat -> attempt) (mint : string) (amount : Q)
  : handle * list event :=
  pumpFun MsgSellFailed net (Trade Sell mint amount).

(** ** fetchSPLTokens (lines 208-222) *)

(** A token account as decoded by [AccountLayout]: the mint and the raw
    64-bit amount. *)
Record account : Type := Account {
  acc_mint : string;
  acc_raw : N
}.

Record token : Type := Token {
  tok_mint : string;
  tok_amount : Q
}.

(** [Number(accountData.amount) / 10 ** 6] *)
Definition decode (a : account) : token :=
  Token (acc_mint a) (Z.of_N (acc_raw a) # 1000000).

(** [rpc] is [None] when [getTokenAccountsByOwner] throws. *)
Definition fetchSPLTokens (rpc : option (list account))
  : list token * list event :=
  match rpc with
  | Some accounts =>
      (filter (fun t => Qgt_bool (tok_amount t) 1) (map decode accounts), [])
  | None => ([], [Log MsgFetchError])
  end.

(** ** sellTokens (lines 224-249) *)

(** The [for ... of] loop: the first token whose mint matches decides. *)
Fixpoint sell_scan (net : nat -> attempt) (mint : string)
    (sellPercentage : Q) (tokens : list token) : handle * list event :=
  match tokens with
  | [] => (Undefined, [])
  | t :: rest =>
      if String.eqb (tok_mint t) mint then
        let amountToSell := (tok_amount t * sellPercentage)%Q in
        if Qle_bool 1 amountToSell then
          let '(txHash, evs) := pumpFunSell net mint amountToSell in
          (txHash,
           Log (MsgSelling amountToSell mint) :: evs ++
           (if truthy txHash then
              match txHash with
              | Hash h => [Log (MsgSold amountToSell mint h)]
              | _ => []
              end
            else []))
        else (Undefined, [Log (MsgSkipping mint)])
      else sell_scan net mint sellPercentage rest
  end.

Definition sellTokens (rpc : option (list account)) (net : nat -> attempt)
    (mint : string) (sellPercentage : Q) : handle * list event :=
  let '(tokens, evs1) := fetchSPLTokens rpc in
  let '(r, evs2) := sell_scan net mint sellPercentage tokens in
  (r, SellTokens mint sellPercentage :: evs1 ++ evs2).

(** ** The event loop as seen from one async function *)

Inductive key : Type := KeyR | KeyC | KeyS.

(** The three override flags (lines 76-78). *)
Record flags : Type := Flags {
  resetTimer : bool;
  continueTrade : bool;
  sellImmediately : bool
}.

(** The [screen.key] handlers of lines 412-425. *)
Definition press (k : key) (f : flags) : flags :=
  match k with
  | KeyR => Flags true (continueTrade f) (sellImmediately f)
  | KeyC => Flags (resetTimer f) true (sellImmediately f)
  | KeyS => Flags (resetTimer f) (continueTrade f) true
  end.

(** What happens while the function is suspended at an [await]: time
    passes and the operator may press keys.  No other handler of a
    listing runs meanwhile. *)
Record lapse : Type := Lapse {
  elapsed : N;
  pressed : list key
}.

Definition idle : lapse := Lapse 0 [].

Record World : Type := {
  now : Z;
  overrides : flags
}.

Definition M (A : Type) : Type := World -> A * World * list event.

Definition ret {A} (a : A) : M A := fun w => (a, w, []).

(** Reading the result of a run. *)
Definition value {A} (r : A * World * list event) : A := fst (fst r).
Definition final {A} (r : A * World * list event) : World := snd (fst r).
Definition trace {A} (r : A * World * list event) : list event := snd r.

Definition bind {A B} (c : M A) (k : A -> M B) : M B :=
  fun w =>
    let r1 := c w in
    let r2 := k (value r1) (final r1) in
    (value r2, final r2, trace r1 ++ trace r2).

Notation "x <- c ;; k" := (bind c (fun x => k))
  (at level 61, c at next level, right associativity).
Notation "c ;; k" := (bind c (fun _ => k))
  (at level 61, right associativity).

Definition emit (e : event) : M unit := fun w => (tt, w, [e]).
Definition emits (evs : list event) : M unit := fun w => (tt, w, evs).
Definition dateNow : M Z := fun w => (now w, w, []).
Definition getFlags : M flags := fun w => (overrides w, w, []).
Definition setFlags (f : flags) : M unit :=
  fun w => (tt, {| now := now w; overrides := f |}, []).

(** The keys pressed during a suspension, applied to the flags. *)
Definition presses (keys : list key) (f : flags) : flags :=
  fold_left (fun f k => press k f) keys f.

Definition suspend (extra : Z) (l : lapse) : M unit :=
  fun w =>
    (tt,
     {| now := now w + extra + Z.of_N (elapsed l);
        overrides := presses (pressed l) (overrides w) |},
     []).

Definition total (l : list Z) : Z := fold_right Z.add 0 l.

(** The environment of one [await sellTokens(...)]: the RPC answer, the
    HTTP outcomes, and the time and key presses besides the back-off
    waits (which are added from the trace). *)
Record sell_env : Type := {
  se_rpc : option (list account);
  se_net : nat -> attempt;
  se_lapse : lapse
}.

Definition await_sellTokens (e : sell_env) (mint : string) (pct : Q)
  : M handle :=
  let sold := sellTokens (se_rpc e) (se_net e) mint pct in
  emits (snd sold) ;;
  suspend (total (waits (snd sold))) (se_lapse e) ;;
  ret (fst sold).

Record buy_env : Type := {
  be_net : nat -> attempt;
  be_lapse : lapse
}.

Definition await_pumpFunBuy (e : buy_env) (mint : string) (amount : Q)
  : M handle :=
  let bought := pumpFunBuy (be_net e) mint amount in
  emits (snd bought) ;;
  suspend (total (waits (snd bought))) (be_lapse e) ;;
  ret (fst bought).

(** [getTokenInfoFromWebSocket] (lines 317-351): [None] once the socket
    reports an error.  Its own log lines are not recorded. *)
Record quote_env : Type := {
  qe_info : option TokenInfo;
  qe_lapse : lapse
}.

Definition getTokenInfoFromWebSocket (e : quote_env) (mint : string)
  : M (option TokenInfo) :=
  emit (Subscribe mint) ;;
  suspend 0 (qe_lapse e) ;;
  ret (qe_info e).

(** ** monitorTrade (lines 251-315) *)

Inductive ctl : Type := Next | Break.

(** The two [let] variables of the function. *)
Record locals : Type := Locals {
  endTime : Z;
  lastMarketCap : Q
}.

(** What one pass through the loop body may await. *)
Record tick : Type := {
  tk_quote : quote_env;          (* line 257 *)
  tk_sell_primary : sell_env;    (* lines 269, 274, 278 *)
  tk_sell_milestone : sell_env;  (* line 284 *)
  tk_sell_now : sell_env;        (* line 302 *)
  tk_sleep : lapse               (* line 308, beyond MONITOR_INTERVAL *)
}.

(** Line 259. *)
Definition marketCapChange (info : TokenInfo) (initialMarketCap : Q) : number :=
  percent_of (marketcap info - initialMarketCap) initialMarketCap.

(** Lines 267-280. *)
Definition primary (cfg : config) (mint : string) (initialMarketCap : Q)
    (info : TokenInfo) (t : tick) (l : locals) : M (ctl * locals) :=
  let change := marketCapChange info initialMarketCap in
  if num_ge change 25 then
    emit (Log (MsgProfit mint)) ;;
    await_sellTokens (tk_sell_primary t) mint (1 # 2) ;;
    f <- getFlags ;;
    setFlags (Flags (resetTimer f) true (sellImmediately f)) ;;
    ret (Next, Locals (endTime l) (marketcap info))
  else if num_le change (inject_Z (-10)) then
    emit (Log (MsgStopLoss mint)) ;;
    await_sellTokens (tk_sell_primary t) mint 1 ;;
    ret (Break, l)
  else if Qle_bool (inject_Z (SELL_BONDING_CURVE_PROGRESS cfg)) (bondingCurve info) then
    emit (Log (MsgBondingCurve mint)) ;;
    await_sellTokens (tk_sell_primary t) mint (3 # 4) ;;
    ret (Break, l)
  else ret (Next, l).

(** Lines 282-286. *)
Definition milestone (mint : string) (info : TokenInfo) (t : tick)
    (l : locals) : M locals :=
  if Qgt_bool (marketcap info) (lastMarketCap l * PROFIT_TARGET_2) then
    emit (Log MsgMilestone) ;;
    await_sellTokens (tk_sell_milestone t) mint (3 # 4) ;;
    ret (Locals (endTime l) (marketcap info))
  else ret l.

(** Lines 288-292. *)
Definition check_resetTimer (l : locals) : M locals :=
  f <- getFlags ;;
  if resetTimer f then
    emit (Log MsgResetTimer) ;;
    t <- dateNow ;;
    setFlags (Flags false (continueTrade f) (sellImmediately f)) ;;
    ret (Locals (t + SELL_TIMEOUT) (lastMarketCap l))
  else ret l.

(** Lines 294-305. *)
Definition check_exit (mint : string) (t : tick) : M ctl :=
  f <- getFlags ;;
  if continueTrade f then
    emit (Log MsgContinue) ;;
    setFlags (Flags (resetTimer f) false (sellImmediately f)) ;;
    ret Break
  else if sellImmediately f then
    emit (Log MsgSellNow) ;;
    await_sellTokens (tk_sell_now t) mint (3 # 4) ;;
    f' <- getFlags ;;
    setFlags (Flags (resetTimer f') (continueTrade f') false) ;;
    ret Break
  else ret Next.

(** Lines 257-306: the body up to the sleep. *)
Definition body (cfg : config) (mint : string) (initialMarketCap : Q)
    (t : tick) (l : locals) : M (ctl * locals) :=
  tokenInfo <- getTokenInfoFromWebSocket (tk_quote t) mint ;;
  match tokenInfo with
  | Some info =>
      t0 <- dateNow ;;
      emit (Log (MsgQuote info (marketCapChange info initialMarketCap)
                   (endTime l - t0))) ;;
      r <- primary cfg mint initialMarketCap info t l ;;
      match r with
      | (Break, l1) => ret (Break, l1)
      | (Next, l1) =>
          l2 <- milestone mint info t l1 ;;
          l3 <- check_resetTimer l2 ;;
          c <- check_exit mint t ;;
          ret (c, l3)
      end
  | None => ret (Next, l)
  end.

(** One iteration: the body, then the sleep of line 308 unless the body
    left the loop. *)
Definition iteration (cfg : config) (mint : string) (initialMarketCap : Q)
    (t : tick) (l : locals) : M (ctl * locals) :=
  r <- body cfg mint initialMarketCap t l ;;
  match r with
  | (Break, l') => ret (Break, l')
  | (Next, l') => suspend MONITOR_INTERVAL (tk_sleep t) ;; ret (Next, l')
  end.

(** The [while (Date.now() < endTime)] loop, started at iteration [i].
    The result is the number of iterations entered and the locals at the
    exit; [None] when [fuel] iterations were not enough. *)
Fixpoint monitor_loop (cfg : config) (mint : string) (initialMarketCap : Q)
    (ticks : nat -> tick) (fuel i : nat) (l : locals)
  : M (option (nat * locals)) :=
  match fuel with
  | O => ret None
  | S fuel' =>
      t <- dateNow ;;
      if t <? endTime l then
        r <- iteration cfg mint initialMarketCap (ticks i) l ;;
        match r with
        | (Break, l') => ret (Some (S i, l'))
        | (Next, l') =>
            monitor_loop cfg mint initialMarketCap ticks fuel' (S i) l'
        end
      else ret (Some (i, l))
  end.

Record monitor_env : Type := {
  me_ticks : nat -> tick;
  me_sell_timeout : sell_env     (* line 313 *)
}.

(** The whole function; [tradeAllowedTime] and [initialBondingCurve] are
    never read by the source. *)
Definition monitorTrade (cfg : config) (env : monitor_env) (fuel : nat)
    (mint : string) (initialMarketCap initialBondingCurve : Q)
  : M (option nat) :=
  t0 <- dateNow ;;
  r <- monitor_loop cfg mint initialMarketCap (me_ticks env) fuel 0
         (Locals (t0 + SELL_TIMEOUT) initialMarketCap) ;;
  match r with
  | None => ret None
  | Some (n, l) =>
      t <- dateNow ;;
      if endTime l <=? t then
        emit (Log (MsgTimeout mint)) ;;
        await_sellTokens (me_sell_timeout env) mint (3 # 4) ;;
        ret (Some n)
      else ret (Some n)
  end.

(** ** The monitor as the specification words its tick

    Section 4.2 of the specification has the milestone check run on
    every tick with a quote, whichever arm of the chain (a)-(c) was
    taken, the arms (b) and (c) ending the monitor.  [spec_body] is
    [body] with the check placed accordingly; the chain itself, the
    override checks, the sleep, the loop and the timeout exit are those
    of the source. *)
Definition spec_body (cfg : config) (mint : string) (initialMarketCap : Q)
    (t : tick) (l : locals) : M (ctl * locals) :=
  tokenInfo <- getTokenInfoFromWebSocket (tk_quote t) mint ;;
  match tokenInfo with
  | Some info =>
      t0 <- dateNow ;;
      emit (Log (MsgQuote info (marketCapChange info initialMarketCap)
                   (endTime l - t0))) ;;
      r <- primary cfg mint initialMarketCap info t l ;;
      l2 <- milestone mint info t (snd r) ;;
      match fst r with
      | Break => ret (Break, l2)
      | Next =>
          l3 <- check_resetTimer l2 ;;
          c <- check_exit mint t ;;
          ret (c, l3)
      end
  | None => ret (Next, l)
  end.

Definition spec_iteration (cfg : config) (mint : string) (initialMarketCap : Q)
    (t : tick) (l : locals) : M (ctl * locals) :=
  r <- spec_body cfg mint initialMarketCap t l ;;
  match r with
  | (Break, l') => ret (Break, l')
  | (Next, l') => suspend MONITOR_INTERVAL (tk_sleep t) ;; ret (Next, l')
  end.

Fixpoint spec_monitor_loop (cfg : config) (mint : string)
    (initialMarketCap : Q) (ticks : nat -> tick) (fuel i : nat) (l : locals)
  : M (option (nat * locals)) :=
  match fuel with
  | O => ret None
  | S fuel' =>
      t <- dateNow ;;
      if t <? endTime l then
        r <- spec_iteration cfg mint initialMarketCap (ticks i) l ;;
        match r with
        | (Break, l') => ret (Some (S i, l'))
        | (Next, l') =>
            spec_monitor_loop cfg mint initialMarketCap ticks fuel' (S i) l'
        end
      else ret (Some (i, l))
  end.

Definition spec_monitorTrade (cfg : config) (env : monitor_env) (fuel : nat)
    (mint : string) (initialMarketCap initialBondingCurve : Q)
  : M (option nat) :=
  t0 <- dateNow ;;
  r <- spec_monitor_loop cfg mint initialMarketCap (me_ticks env) fuel 0
         (Locals (t0 + SELL_TIMEOUT) initialMarketCap) ;;
  match r with
  | None => ret None
  | Some (n, l) =>
      t <- dateNow ;;
      if endTime l <=? t then
        emit (Log (MsgTimeout mint)) ;;
        await_sellTokens (me_sell_timeout env) mint (3 # 4) ;;
        ret (Some n)
      else ret (Some n)
  end.

(** The quotes of a monitor are market caps: none is negative. *)
Definition quotes_nonneg (ticks : nat -> tick) : Prop :=
  forall i info, qe_info (tk_quote (ticks i)) = Some info ->
    (0 <= marketcap info)%Q.

(** ** The new-listing handler of simulateTrade (lines 365-387) *)

Inductive feed_message : Type :=
| NewPair (mint : string)      (* channel === 'new_pairs' *)
| OtherChannel.

(** [cooldownActive] and the pending [setTimeout] callbacks of line 371,
    by due time. *)
Record scanner : Type := Scanner {
  cooldownActive : bool;
  timers : list Z
}.

Definition scanner_init : scanner := Scanner false [].

(** Lines 366-371, which run without suspension: the new state and the
    mint handed to the evaluation, if any. *)
Definition on_message (t : Z) (m : feed_message) (s : scanner)
  : scanner * option string :=
  if cooldownActive s then (s, None)
  else
    match m with
    | NewPair mint => (Scanner true (timers s ++ [t + COOLDOWN]), Some mint)
    | OtherChannel => (s, None)
    end.

(** The event loop at time [t]: every callback that is due runs. *)
Definition fire (t : Z) (s : scanner) : scanner :=
  if existsb (fun d => d <=? t) (timers s) then
    Scanner false (filter (fun d => t <? d) (timers s))
  else s.

Record candidate_env : Type := {
  ce_quote : quote_env;
  ce_buy : buy_env;
  ce_monitor : monitor_env
}.

(** Lines 373-385: the part of the handler that runs after the first
    [await].  It reads and writes neither [cooldownActive] nor a timer. *)
Definition evaluate (cfg : config) (env : candidate_env) (fuel : nat)
    (mint : string) : M (option unit) :=
  tokenInfo <- getTokenInfoFromWebSocket (ce_quote env) mint ;;
  match tokenInfo with
  | Some info =>
      if Qgt_bool (inject_Z (MAX_BONDING_CURVE_PROGRESS cfg)) (bondingCurve info)
      then
        emit (Log (MsgFound info mint)) ;;
        emit (VisualMode true) ;;
        txHash <- await_pumpFunBuy (ce_buy env) mint (MINIMUM_BUY_AMOUNT cfg) ;;
        r <- (if truthy txHash then
                monitorTrade cfg (ce_monitor env) fuel mint
                  (marketcap info) (bondingCurve info)
              else ret (Some O)) ;;
        match r with
        | None => ret None
        | Some _ => emit (VisualMode false) ;; ret (Some tt)
        end
      else ret (Some tt)
  | None => ret (Some tt)
  end.

(** The whole handler of lines 365-387: the state it leaves when it
    first suspends, and the evaluation it goes on with, if any. *)
Definition handler (cfg : config) (env : candidate_env) (fuel : nat)
    (t : Z) (m : feed_message) (s : scanner)
  : scanner * option (M (option unit)) :=
  let '(s', c) := on_message t m s in
  (s', option_map (evaluate cfg env fuel) c).

(** A feed: messages with their arrival times.  Before a message is
    handled the timers due by then have fired.  The result lists the
    candidates handed to [evaluate], with the time of each. *)
Fixpoint scan (feed : list (Z * feed_message)) (s : scanner)
  : scanner * list (Z * string) :=
  match feed with
  | [] => (s, [])
  | (t, m) :: feed' =>
      let '(s1, c) := on_message t m (fire t s) in
      let '(s2, cs) := scan feed' s1 in
      (s2, match c with Some mint => (t, mint) :: cs | None => cs end)
  end.

(** ** Vocabulary of the properties *)

(** The decisions of the monitor in a trace: the calls of [sellTokens]
    and the log line that announces each branch. *)
Definition is_decision (e : event) : bool :=
  match e with
  | SellTokens _ _ => true
  | Log (MsgProfit _) => true
  | Log (MsgStopLoss _) => true
  | Log (MsgBondingCurve _) => true
  | Log MsgMilestone => true
  | Log MsgResetTimer => true
  | Log MsgContinue => true
  | Log MsgSellNow => true
  | Log (MsgTimeout _) => true
  | _ => false
  end.

Definition decisions (evs : list event) : list event := filter is_decision evs.

(** Which arm of the [if ... else if] chain of lines 267-280 a quote
    selects. *)
Inductive branch : Type := Profit | StopLoss | BondingCurve | NoBranch.

Definition primary_branch (cfg : config) (initialMarketCap : Q)
    (info : TokenInfo) : branch :=
  if num_ge (marketCapChange info initialMarketCap) 25 then Profit
  else if num_le (marketCapChange info initialMarketCap) (inject_Z (-10))
  then StopLoss
  else if Qle_bool (inject_Z (SELL_BONDING_CURVE_PROGRESS cfg)) (bondingCurve info)
  then BondingCurve
  else NoBranch.

(** The world in which the decisions of a tick start: after the quote
    has arrived. *)
Definition quoted (t : tick) (w : World) : World :=
  {| now := now w + 0 + Z.of_N (elapsed (qe_lapse (tk_quote t)));
     overrides := presses (pressed (qe_lapse (tk_quote t))) (overrides w) |}.

(** The keys pressed on a tick before its override checks are reached. *)
Definition pressed_before_checks (t : tick) : list key :=
  pressed (qe_lapse (tk_quote t)) ++
  pressed (se_lapse (tk_sell_primary t)) ++
  pressed (se_lapse (tk_sell_milestone t)).

(** The world in which the override checks of a tick start, when the
    primary chain has not left the loop: after the milestone test. *)
Definition at_checks (cfg : config) (mint : string) (initialMarketCap : Q)
    (info : TokenInfo) (t : tick) (l : locals) (w : World) : World :=
  let r1 := primary cfg mint initialMarketCap info t l (quoted t w) in
  final (milestone mint info t (snd (value r1)) (final r1)).

Definition no_flags : flags := Flags false false false.

(** The length of an iteration that neither sells nor leaves the loop. *)
Definition tick_ms (t : tick) : Z :=
  Z.of_N (elapsed (qe_lapse (tk_quote t))) + MONITOR_INTERVAL +
  Z.of_N (elapsed (tk_sleep t)).

(** An iteration on which nothing fires: no key is pressed, and the
    quote, if there is one, selects no branch and is not above the
    milestone. *)
Definition quiet_tick (cfg : config) (initialMarketCap : Q) (t : tick) : bool :=
  match pressed (qe_lapse (tk_quote t)), pressed (tk_sleep t) with
  | [], [] =>
      match qe_info (tk_quote t) with
      | None => true
      | Some info =>
          match primary_branch cfg initialMarketCap info with
          | NoBranch =>
              negb (Qgt_bool (marketcap info) (initialMarketCap * PROFIT_TARGET_2))
          | _ => false
          end
      end
  | _, _ => false
  end.

(** The time the first [n] iterations take when each is quiet. *)
Fixpoint elapsed_ticks (ticks : nat -> tick) (n : nat) : Z :=
  match n with
  | O => 0
  | S k => elapsed_ticks ticks k + tick_ms (ticks k)
  end.

(** A feed whose arrival times do not decrease, starting at [t0]. *)
Fixpoint ordered (t0 : Z) (feed : list (Z * feed_message)) : Prop :=
  match feed with
  | [] => True
  | (t, _) :: feed' => t0 <= t /\ ordered t feed'
  end.

(** Candidates none of which comes before [d], each at least one
    cooldown window after the one before. *)
Fixpoint spaced_from (d : Z) (cs : list (Z * string)) : Prop :=
  match cs with
  | [] => True
  | (t, _) :: cs' => d <= t /\ spaced_from (t + COOLDOWN) cs'
  end.

(** The states the scanner can be in: the flag is set exactly while one
    callback is pending. *)
Definition scanner_wf (s : scanner) : Prop :=
  if cooldownActive s then exists d, timers s = [d] else timers s = [].

(** ** Sample environments

    Closed inputs on which the functions above are evaluated below. *)

Definition mintA : string := "MintA".
Definition mintB : string := "MintB".

(** The network answers every post with a transaction hash. *)
Definition net_ok : nat -> attempt := fun _ => Responded (Reply (Hash "tx"%string)).

(** The network never answers. *)
Definition net_down : nat -> attempt := fun _ => Unreachable.

(** A first answer [429] with [Retry-After: 0], then success. *)
Definition net_retry_after_zero : nat -> attempt :=
  fun k => match k with
           | O => Rejected 429 (Some 0%N)
           | _ => Responded (Reply (Hash "tx"%string))
           end.

(** A first answer [429] with [Retry-After: 3], a plain [500], then
    success. *)
Definition net_rate_limited : nat -> attempt :=
  fun k => match k with
           | O => Rejected 429 (Some 3%N)
           | 1%nat => Rejected 500 None
           | _ => Responded (Reply (Hash "tx"%string))
           end.

Definition sell_order (mint : string) (amount : Q) : trade :=
  Trade Sell mint amount.

(** The first token of a fetched list that [sellTokens] acts on. *)
Definition held (mint : string) (tokens : list token) : option token :=
  find (fun t => String.eqb (tok_mint t) mint) tokens.

(** A wallet with 1000 units of [mintA] and half a unit of [mintB]. *)
Definition wallet : list account :=
  [Account mintB 500000; Account mintA 1000000000].

(** A wallet holding one and a half units of [mintA]. *)
Definition small_wallet : list account := [Account mintA 1500000].

Definition world0 : World := {| now := 0; overrides := no_flags |}.

Definition quote (m bc : Q) : TokenInfo :=
  {| ticker := "TKN"; marketcap := m; bondingCurve := bc |}.

(** A sale that is answered at once, on [wallet]. *)
Definition prompt_sell : sell_env :=
  {| se_rpc := Some wallet; se_net := net_ok; se_lapse := idle |}.

(** A sale against an endpoint that is down: five posts, 15 s of
    back-off. *)
Definition failing_sell : sell_env :=
  {| se_rpc := Some wallet; se_net := net_down; se_lapse := idle |}.

(** A tick whose websocket answers [info] after [ms] milliseconds. *)
Definition tick_with (info : option TokenInfo) (ms : N) (s : sell_env) : tick :=
  {| tk_quote := {| qe_info := info; qe_lapse := Lapse ms [] |};
     tk_sell_primary := s;
     tk_sell_milestone := s;
     tk_sell_now := s;
     tk_sleep := idle |}.

(** Entry at 100; the first quote is 126. *)
Definition env_profit : monitor_env :=
  {| me_ticks := fun _ => tick_with (Some (quote 126 5)) 0 prompt_sell;
     me_sell_timeout := prompt_sell |}.

(** Entry at 100; the websocket fails on 23 ticks, then quotes 80 while
    the trade endpoint is down. *)
Definition env_late_stop_loss : monitor_env :=
  {| me_ticks := fun i =>
       if (i <? 23)%nat then tick_with None 0 prompt_sell
       else tick_with (Some (quote 80 5)) 0 failing_sell;
     me_sell_timeout := prompt_sell |}.

(** No quote ever selects a branch; every websocket takes 8 s. *)
Definition env_slow_feed : monitor_env :=
  {| me_ticks := fun _ => tick_with (Some (quote 101 5)) 8000 prompt_sell;
     me_sell_timeout := prompt_sell |}.

(** The same with a websocket that answers at once. *)
Definition env_fast_feed : monitor_env :=
  {| me_ticks := fun _ => tick_with (Some (quote 101 5)) 0 prompt_sell;
     me_sell_timeout := prompt_sell |}.

(** A tick during whose quote the operator presses R. *)
Definition tick_reset : tick :=
  {| tk_quote := {| qe_info := Some (quote 101 5); qe_lapse := Lapse 300 [KeyR] |};
     tk_sell_primary := prompt_sell;
     tk_sell_milestone := prompt_sell;
     tk_sell_now := prompt_sell;
     tk_sleep := idle |}.

(** New listings at 0 s, 4 s, 14.999 s, 15 s and 31 s. *)
Definition feed_burst : list (Z * feed_message) :=
  [(0, NewPair mintA); (4000, NewPair mintB); (14999, NewPair mintB);
   (15000, NewPair mintB); (31000, NewPair mintA)].

(** A candidate whose websocket fails, and one that is bought and
    monitored. *)
Definition env_no_quote : candidate_env :=
  {| ce_quote := {| qe_info := None; qe_lapse := idle |};
     ce_buy := {| be_net := net_ok; be_lapse := idle |};
     ce_monitor := env_profit |}.

Definition env_bought : candidate_env :=
  {| ce_quote := {| qe_info := Some (quote 100 5); qe_lapse := idle |};
     ce_buy := {| be_net := net_ok; be_lapse := idle |};
     ce_monitor := env_profit |}.

(** ** Vocabulary of the further properties *)

(** The first answer among the attempts [k], ..., [k + n - 1]. *)
Fixpoint answered (net : nat -> attempt) (k n : nat) : option reply :=
  match n with
  | O => None
  | S n' =>
      match net k with
      | Responded x => Some x
      | _ => answered net (S k) n'
      end
  end.

(** The endpoint answers every post with the body [null]. *)
Definition net_null : nat -> attempt := fun _ => Responded NullReply.

(** The endpoint never answers with status 429. *)
Definition no_rate_limit (net : nat -> attempt) : Prop :=
  forall k header, net k <> Rejected 429 header.

(** [n] delays, each twice the one before, from [d]. *)
Fixpoint doubling (d : Z) (n : nat) : list Z :=
  match n with
  | O => []
  | S n' => d :: doubling (2 * d) n'
  end.

(** An account with more than 10^6 base units, that is more than one
    token. *)
Definition listed (a : account) : bool := (1000000 <? acc_raw a)%N.

(** An account that [sellTokens] would stop at for [mint]. *)
Definition sellable (mint : string) (a : account) : bool :=
  String.eqb (acc_mint a) mint && listed a.

(** A wallet with two accounts for [mintA], of 3 and of 1000 tokens,
    after one with dust. *)
Definition wallet_twice : list account :=
  [Account mintA 900000; Account mintA 3000000; Account mintA 1000000000].

Definition key_eqb (a b : key) : bool :=
  match a, b with
  | KeyR, KeyR => true
  | KeyC, KeyC => true
  | KeyS, KeyS => true
  | _, _ => false
  end.

(** Whether key [k] occurs among [keys]. *)
Definition pressed_key (k : key) (keys : list key) : bool :=
  existsb (key_eqb k) keys.

(** Every flag set in [f] is set in [g]. *)
Definition flags_le (f g : flags) : Prop :=
  (resetTimer f = true -> resetTimer g = true) /\
  (continueTrade f = true -> continueTrade g = true) /\
  (sellImmediately f = true -> sellImmediately g = true).

(** A tick on which C and S are pressed while the quote is awaited. *)
Definition tick_continue_and_sell : tick :=
  {| tk_quote := {| qe_info := Some (quote 101 5); qe_lapse := Lapse 300 [KeyS; KeyC] |};
     tk_sell_primary := prompt_sell;
     tk_sell_milestone := prompt_sell;
     tk_sell_now := prompt_sell;
     tk_sleep := idle |}.

(** A tick that never reaches the override checks: its websocket fails,
    or its quote selects one of the two branches that leave the loop. *)
Definition skips_checks (cfg : config) (initialMarketCap : Q) (t : tick) : bool :=
  match qe_info (tk_quote t) with
  | None => true
  | Some info =>
      match primary_branch cfg initialMarketCap info with
      | StopLoss => true
      | BondingCurve => true
      | _ => false
      end
  end.

(** The keys pressed during the awaits of such a tick: its quote, then
    its sleep when there is no quote, and otherwise the sale of the
    branch that leaves the loop. *)
Definition unchecked_keys (t : tick) : list key :=
  pressed (qe_lapse (tk_quote t)) ++
  match qe_info (tk_quote t) with
  | None => pressed (tk_sleep t)
  | Some _ => pressed (se_lapse (tk_sell_primary t))
  end.

(** A tick whose quote is at -20 %; S is pressed while the quote is
    awaited and R during the stop-loss sale. *)
Definition tick_stop_loss_and_sell : tick :=
  {| tk_quote := {| qe_info := Some (quote 80 5); qe_lapse := Lapse 300 [KeyS] |};
     tk_sell_primary :=
       {| se_rpc := Some wallet; se_net := net_ok; se_lapse := Lapse 200 [KeyR] |};
     tk_sell_milestone := prompt_sell;
     tk_sell_now := prompt_sell;
     tk_sleep := idle |}.

(** All the keys pressed during a tick. *)
Definition all_pressed (t : tick) : list key :=
  pressed_before_checks t ++
  pressed (se_lapse (tk_sell_now t)) ++
  pressed (tk_sleep t).

(** The calls of [sellTokens] in a trace. *)
Definition is_sale (e : event) : bool :=
  match e with SellTokens _ _ => true | _ => false end.

Definition sales (evs : list event) : nat := List.length (filter is_sale evs).

(** What an event of the handler may be when the candidate is [mint]:
    a post for that mint, buying the configured amount or selling at
    least one unit; a sale of one of the three percentages; a
    subscription to that mint. *)
Definition concerns (cfg : config) (mint : string) (e : event) : Prop :=
  match e with
  | Post tr =>
      trade_mint tr = mint /\
      match trade_type tr with
      | Buy => trade_amount tr = MINIMUM_BUY_AMOUNT cfg
      | Sell => (1 <= trade_amount tr)%Q
      end
  | SellTokens m pct =>
      m = mint /\ (pct = 1 # 2 \/ pct = 1%Q \/ pct = 3 # 4)
  | Subscribe m => m = mint
  | _ => True
  end.

(** The world of a candidate once its quote has arrived. *)
Definition candidate_quoted (env : candidate_env) (w : World) : World :=
  {| now := now w + 0 + Z.of_N (elapsed (qe_lapse (ce_quote env)));
     overrides := presses (pressed (qe_lapse (ce_quote env))) (overrides w) |}.

(** Lines 375: the candidate has a quote with a bonding curve below the
    entry threshold. *)
Definition eligible (cfg : config) (env : candidate_env) : bool :=
  match qe_info (ce_quote env) with
  | Some info =>
      Qgt_bool (inject_Z (MAX_BONDING_CURVE_PROGRESS cfg)) (bondingCurve info)
  | None => false
  end.

(** A candidate quoted exactly at the entry threshold, and one whose
    purchase fails. *)
Definition env_at_threshold : candidate_env :=
  {| ce_quote := {| qe_info := Some (quote 100 10); qe_lapse := idle |};
     ce_buy := {| be_net := net_ok; be_lapse := idle |};
     ce_monitor := env_profit |}.

Definition env_buy_fails : candidate_env :=
  {| ce_quote := {| qe_info := Some (quote 100 5); qe_lapse := idle |};
     ce_buy := {| be_net := net_down; be_lapse := idle |};
     ce_monitor := env_profit |}.

(** A tick on which nothing fires except that R is pressed while the
    quote is awaited, and whose sleep ends before a full timeout window
    has passed. *)
Definition restless_tick (cfg : config) (initialMarketCap : Q) (t : tick) : bool :=
  match pressed (qe_lapse (tk_quote t)), pressed (tk_sleep t),
        qe_info (tk_quote t) with
  | [KeyR], [], Some info =>
      match primary_branch cfg initialMarketCap info with
      | NoBranch =>
          negb (Qgt_bool (marketcap info) (initialMarketCap * PROFIT_TARGET_2))
          && (MONITOR_INTERVAL + Z.of_N (elapsed (tk_sleep t)) <? SELL_TIMEOUT)
      | _ => false
      end
  | _, _, _ => false
  end.

(** The locals and the world in which iteration [n] of the loop starts
    when none of the iterations before it has left the loop. *)
Fixpoint entering (cfg : config) (mint : string) (initialMarketCap : Q)
    (ticks : nat -> tick) (n : nat) (l : locals) (w : World)
  : locals * World :=
  match n with
  | O => (l, w)
  | S n' =>
      let s := entering cfg mint initialMarketCap ticks n' l w in
      let r := iteration cfg mint initialMarketCap (ticks n') (fst s) (snd s) in
      (snd (value r), final r)
  end.

(** R is pressed during every quote. *)
Definition env_restless : monitor_env :=
  {| me_ticks := fun _ => tick_reset; me_sell_timeout := prompt_sell |}.

(** Messages of other channels, then a new listing. *)
Definition feed_noise : list (Z * feed_message) :=
  [(0, OtherChannel); (10, OtherChannel); (20, NewPair mintA); (30, NewPair mintB)].

(** * Properties *)

(** ** The request client *)

Lemma waits_app (a b : list event) : waits (a ++ b) = waits a ++ waits b.
Proof.
  induction a as [|e a IH]; simpl; [reflexivity|].
  destruct e; simpl; rewrite IH; reflexivity.
Qed.

Lemma posts_app (a b : list event) : posts (a ++ b) = (posts a + posts b)%nat.
Proof.
  unfold posts. rewrite filter_app, length_app. reflexivity.
Qed.

Lemma on_error_quiet (e : attempt) (d : Z) :
  waits (snd (on_error e d)) = [] /\ posts (snd (on_error e d)) = O.
Proof.
  destruct e as [x|status header|]; simpl; auto.
  destruct (status =? 429); simpl; auto.
Qed.

Section RequestLoop.

Variable net : nat -> attempt.
Variable data : trade.

Lemma api_loop_step k rem d :
  api_loop net data k (S rem) d =
    match net k with
    | Responded x => (Returned x, [Post data])
    | e =>
        let '(delay1, logs) := on_error e d in
        match rem with
        | O => (Thrown e, Post data :: logs)
        | S _ =>
            let '(r, evs) := api_loop net data (S k) rem (delay1 * 2) in
            (r, Post data :: logs ++ Wait delay1 :: evs)
        end
    end.
Proof. reflexivity. Qed.

(** One failed attempt that is not the last: the trace it adds. *)
Lemma api_loop_retry k rem d :
  (forall x, net k <> Responded x) ->
  api_loop net data k (S (S rem)) d =
    (fst (api_loop net data (S k) (S rem) (fst (on_error (net k) d) * 2)),
     Post data :: snd (on_error (net k) d) ++
       Wait (fst (on_error (net k) d)) ::
       snd (api_loop net data (S k) (S rem) (fst (on_error (net k) d) * 2))).
Proof.
  intros Hfail. rewrite api_loop_step.
  destruct (net k) as [x|status header|] eqn:E.
  - exfalso. apply (Hfail x). reflexivity.
  - cbv beta iota zeta.
    destruct (on_error (Rejected status header) d) as [d1 logs].
    cbv beta iota. cbn [fst snd].
    destruct (api_loop net data (S k) (S rem) (d1 * 2)) as [r evs]. reflexivity.
  - cbv beta iota zeta.
    destruct (on_error Unreachable d) as [d1 logs].
    cbv beta iota. cbn [fst snd].
    destruct (api_loop net data (S k) (S rem) (d1 * 2)) as [r evs]. reflexivity.
Qed.

Lemma api_loop_last k d :
  (forall x, net k <> Responded x) ->
  api_loop net data k 1 d = (Thrown (net k), Post data :: snd (on_error (net k) d)).
Proof.
  intros Hfail. rewrite api_loop_step.
  destruct (net k) as [x|status header|] eqn:E.
  - exfalso. apply (Hfail x). reflexivity.
  - cbv beta iota zeta.
    destruct (on_error (Rejected status header) d) as [d1 logs]. reflexivity.
  - cbv beta iota zeta.
    destruct (on_error Unreachable d) as [d1 logs]. reflexivity.
Qed.

Lemma api_loop_success k rem d x :
  net k = Responded x ->
  api_loop net data k (S rem) d = (Returned x, [Post data]).
Proof. intros E. cbn [api_loop]. rewrite E. reflexivity. Qed.

Lemma responded_dec (a : attempt) :
  (exists x, a = Responded x) \/ (forall x, a <> Responded x).
Proof.
  destruct a; [left; eexists; reflexivity | right; discriminate ..].
Qed.

(** The loop posts at most [remaining] times and waits between posts. *)
Lemma api_loop_posts rem : forall k d,
  (1 <= rem -> 1 <= posts (snd (api_loop net data k rem d)))%nat /\
  (posts (snd (api_loop net data k rem d)) <= rem)%nat /\
  List.length (waits (snd (api_loop net data k rem d))) =
    pred (posts (snd (api_loop net data k rem d))).
Proof.
  induction rem as [|rem IH]; intros k d.
  - simpl. repeat split; try reflexivity. lia.
  - destruct (responded_dec (net k)) as [[x E]|Hfail].
    + rewrite (api_loop_success _ _ _ _ E). cbn [snd].
      change (posts [Post data]) with 1%nat. simpl. repeat split; lia.
    + destruct (on_error_quiet (net k) d) as [Hw Hp].
      destruct rem as [|rem].
      * rewrite (api_loop_last _ _ Hfail).
        cbn [snd]. change (Post data :: ?l) with ([Post data] ++ l).
        rewrite waits_app, posts_app, Hw, Hp.
        change (posts [Post data]) with 1%nat. simpl. repeat split; lia.
      * rewrite (api_loop_retry _ _ _ Hfail).
        destruct (IH (S k) (fst (on_error (net k) d) * 2)) as (IH1 & IHp & IHw).
        cbn [snd].
        change (Post data :: ?l ++ Wait ?w :: ?m)
          with ([Post data] ++ l ++ [Wait w] ++ m).
        rewrite !waits_app, !posts_app, Hw, Hp.
        change (posts [Post data]) with 1%nat.
        change (posts [Wait (fst (on_error (net k) d))]) with 0%nat.
        change (waits [Post data]) with (@nil Z).
        change (waits [Wait (fst (on_error (net k) d))])
          with [fst (on_error (net k) d)].
        cbn [app List.length Nat.add]. rewrite IHw.
        repeat split; lia.
Qed.

(** Each wait is the value [delay] has after the [catch] block of the
    attempt before it, and [delay] enters that block as twice the
    previous wait. *)
Lemma api_loop_waits rem : forall k d j w,
  nth_error (waits (snd (api_loop net data k rem d))) j = Some w ->
  w = fst (on_error (net (k + j)%nat)
             match j with
             | O => d
             | S i => 2 * nth i (waits (snd (api_loop net data k rem d))) 0
             end).
Proof.
  induction rem as [|rem IH]; intros k d j w Hj.
  - destruct j; discriminate Hj.
  - destruct (responded_dec (net k)) as [[x E]|Hfail].
    + rewrite (api_loop_success _ _ _ _ E) in Hj.
      destruct j; discriminate Hj.
    + destruct (on_error_quiet (net k) d) as [Hw _].
      destruct rem as [|rem].
      * rewrite (api_loop_last _ _ Hfail) in Hj. cbn [snd] in Hj.
        change (Post data :: ?l) with ([Post data] ++ l) in Hj.
        rewrite waits_app, Hw in Hj. destruct j; discriminate Hj.
      * rewrite (api_loop_retry _ _ _ Hfail) in Hj |- *.
        cbn [snd] in Hj |- *.
        set (d1 := fst (on_error (net k) d)) in *.
        set (rest := api_loop net data (S k) (S rem) (d1 * 2)) in *.
        assert (Hws : waits (Post data :: snd (on_error (net k) d) ++
                               Wait d1 :: snd rest) = d1 :: waits (snd rest)).
        { change (Post data :: ?l ++ Wait ?x :: ?m)
            with ([Post data] ++ l ++ [Wait x] ++ m).
          rewrite !waits_app, Hw. reflexivity. }
        rewrite Hws in Hj |- *.
        destruct j as [|j].
        -- injection Hj as <-. rewrite Nat.add_0_r. reflexivity.
        -- cbn [nth_error] in Hj. apply IH in Hj.
           replace (k + S j)%nat with (S k + j)%nat by lia.
           rewrite Hj at 1. do 2 f_equal.
           destruct j as [|j]; cbn [nth]; [lia | reflexivity].
Qed.

(** When every attempt fails the error of the last one is thrown. *)
Lemma api_loop_exhausted rem : forall k d,
  (forall j x, (j < S rem)%nat -> net (k + j)%nat <> Responded x) ->
  fst (api_loop net data k (S rem) d) = Thrown (net (k + rem)%nat) /\
  posts (snd (api_loop net data k (S rem) d)) = S rem.
Proof.
  induction rem as [|rem IH]; intros k d Hall.
  - assert (Hfail : forall x, net k <> Responded x).
    { intros x. specialize (Hall O x). rewrite Nat.add_0_r in Hall.
      apply Hall. lia. }
    rewrite (api_loop_last _ _ Hfail), Nat.add_0_r. cbn [fst snd].
    destruct (on_error_quiet (net k) d) as [_ Hp].
    change (Post data :: ?l) with ([Post data] ++ l).
    rewrite posts_app, Hp. auto.
  - assert (Hfail : forall x, net k <> Responded x).
    { intros x. specialize (Hall O x). rewrite Nat.add_0_r in Hall.
      apply Hall. lia. }
    rewrite (api_loop_retry _ _ _ Hfail). cbn [fst snd].
    destruct (on_error_quiet (net k) d) as [_ Hp].
    destruct (IH (S k) (fst (on_error (net k) d) * 2)) as [IHr IHp].
    { intros j x Hlt. replace (S k + j)%nat with (k + S j)%nat by lia.
      apply Hall. lia. }
    rewrite IHr. split.
    + f_equal. f_equal. lia.
    + change (Post data :: ?l ++ Wait ?x :: ?m)
        with ([Post data] ++ l ++ [Wait x] ++ m).
      rewrite !posts_app, Hp, IHp. reflexivity.
Qed.

(** The first attempt that gets a response ends the loop. *)
Lemma api_loop_first_success : forall j rem k d x,
  (j < rem)%nat ->
  net (k + j)%nat = Responded x ->
  (forall i y, (i < j)%nat -> net (k + i)%nat <> Responded y) ->
  fst (api_loop net data k rem d) = Returned x /\
  posts (snd (api_loop net data k rem d)) = S j.
Proof.
  induction j as [|j IH]; intros rem k d x Hlt Hx Hbefore.
  - destruct rem as [|rem]; [lia|]. rewrite Nat.add_0_r in Hx.
    rewrite (api_loop_success _ _ _ _ Hx). auto.
  - destruct rem as [|[|rem]]; try lia.
    assert (Hfail : forall y, net k <> Responded y).
    { intros y. specialize (Hbefore O y). rewrite Nat.add_0_r in Hbefore.
      apply Hbefore. lia. }
    rewrite (api_loop_retry _ _ _ Hfail). cbn [fst snd].
    destruct (on_error_quiet (net k) d) as [_ Hp].
    destruct (IH (S rem) (S k) (fst (on_error (net k) d) * 2) x) as [IHr IHp].
    { lia. }
    { replace (S k + j)%nat with (k + S j)%nat by lia. exact Hx. }
    { intros i y Hi. replace (S k + i)%nat with (k + S i)%nat by lia.
      apply Hbefore. lia. }
    split; [exact IHr|].
    change (Post data :: ?l ++ Wait ?w :: ?m)
      with ([Post data] ++ l ++ [Wait w] ++ m).
    rewrite !posts_app, Hp, IHp. reflexivity.
Qed.

End RequestLoop.

(** What a rate-limit answer does to [delay]. *)
Lemma on_error_delay (e : attempt) (d : Z) :
  (forall h, e = Rejected 429 (Some h) -> h <> 0%N ->
     fst (on_error e d) = 1000 * Z.of_N h) /\
  ((forall h, e = Rejected 429 (Some h) -> h = 0%N) ->
     fst (on_error e d) = d).
Proof.
  split.
  - intros h -> Hh. unfold on_error. change (429 =? 429) with true.
    cbv beta iota zeta. cbn [fst]. unfold retryAfter.
    destruct (1000 * Z.of_N h =? 0) eqn:E; [|reflexivity].
    apply Z.eqb_eq in E. lia.
  - intros Hzero. destruct e as [x|status [h|]|]; try reflexivity.
    + unfold on_error. destruct (status =? 429) eqn:Es; [|reflexivity].
      apply Z.eqb_eq in Es. subst status. rewrite (Hzero h eq_refl). reflexivity.
    + unfold on_error. destruct (status =? 429); reflexivity.
Qed.

(** C9 (as amended).  A call of [apiRequest] with the default budget posts
    at most 5 times and waits once between consecutive posts.  The value
    of [delay] starts at 1000 ms and is doubled after every wait.  A wait
    that follows a 429 answer whose [retry-after] header is a non-zero
    number of seconds lasts that many seconds; every other wait (also
    after a 429 answer whose header is absent, not a number, or zero)
    lasts the current value of [delay].  When all 5 attempts fail the
    error of the 5th is thrown to the caller, and the first attempt that
    is answered ends the call with that answer. *)
Theorem C9_apiRequest_backoff (net : nat -> attempt) (data : trade) :
  let run := apiRequest net data API_RETRY_LIMIT in
  let ws := waits (snd run) in
  (posts (snd run) <= 5)%nat /\
  List.length ws = pred (posts (snd run)) /\
  (forall k w, nth_error ws k = Some w ->
     let delay := match k with
                  | O => 1000
                  | S j => 2 * nth j ws 0
                  end in
     (forall h, net k = Rejected 429 (Some h) -> h <> 0%N ->
        w = 1000 * Z.of_N h) /\
     ((forall h, net k = Rejected 429 (Some h) -> h = 0%N) -> w = delay)) /\
  ((forall k x, (k < 5)%nat -> net k <> Responded x) ->
     fst run = Thrown (net 4%nat) /\ posts (snd run) = 5%nat) /\
  (forall k x, (k < 5)%nat -> net k = Responded x ->
     (forall j y, (j < k)%nat -> net j <> Responded y) ->
     fst run = Returned x /\ posts (snd run) = S k).
Proof.
  intros run ws. unfold run, ws, apiRequest, API_RETRY_LIMIT.
  destruct (api_loop_posts net data 5 0 BASE_API_DELAY) as (_ & Hp & Hw).
  split; [exact Hp|]. split; [exact Hw|]. split; [|split].
  - intros k w Hk. cbv zeta.
    pose proof (api_loop_waits net data 5 0 BASE_API_DELAY k w Hk) as Hwait.
    cbn [Nat.add] in Hwait.
    destruct (on_error_delay (net k)
                match k with
                | O => BASE_API_DELAY
                | S i => 2 * nth i (waits (snd (api_loop net data 0 5 BASE_API_DELAY))) 0
                end) as [Hset Hkeep].
    split.
    + intros h Hnet Hh. rewrite Hwait. apply (Hset h Hnet Hh).
    + intros Hzero. rewrite Hwait. exact (Hkeep Hzero).
  - intros Hall.
    apply (api_loop_exhausted net data 4 0 BASE_API_DELAY).
    intros j x Hj. apply Hall. exact Hj.
  - intros k x Hk Hx Hbefore.
    apply (api_loop_first_success net data k 5 0 BASE_API_DELAY x Hk Hx).
    exact Hbefore.
Qed.

(** The theorem at [net_rate_limited]: the waits are 3000 ms (the header)
    and 6000 ms (the doubled delay), and the third attempt is answered. *)
Lemma C9_apiRequest_backoff_witness :
  waits (snd (apiRequest net_rate_limited (sell_order mintA 2) API_RETRY_LIMIT))
    = [3000; 6000] /\
  fst (apiRequest net_rate_limited (sell_order mintA 2) API_RETRY_LIMIT)
    = Returned (Reply (Hash "tx"%string)) /\
  posts (snd (apiRequest net_rate_limited (sell_order mintA 2) API_RETRY_LIMIT))
    = 3%nat.
Proof.
  destruct (C9_apiRequest_backoff net_rate_limited (sell_order mintA 2))
    as (_ & _ & Hwaits & _ & Hfirst).
  split; [reflexivity|].
  apply (Hfirst 2%nat (Reply (Hash "tx"%string))).
  - lia.
  - reflexivity.
  - intros j y Hj. destruct j as [|[|j]]; [discriminate | discriminate | lia].
Defined.

(** C9 as stated fails: after a 429 answer carrying [Retry-After: 0] the
    header is present, yet the wait is the current back-off value of
    1000 ms and not the 0 ms the server asked for. *)
Lemma C9_retry_after_zero_ignored :
  net_retry_after_zero 0%nat = Rejected 429 (Some 0%N) /\
  waits (snd (apiRequest net_retry_after_zero (sell_order mintA 2) API_RETRY_LIMIT))
    = [1000] /\
  1000 <> 1000 * Z.of_N 0.
Proof.
  split; [reflexivity|]. split; [reflexivity|]. discriminate.
Qed.

(** ** The sell path *)

Lemma api_loop_posts_data net data rem : forall k d t,
  In (Post t) (snd (api_loop net data k rem d)) -> t = data.
Proof.
  induction rem as [|rem IH]; intros k d t Hin.
  - destruct Hin.
  - destruct (responded_dec (net k)) as [[x E]|Hfail].
    + rewrite (api_loop_success _ _ _ _ _ _ E) in Hin.
      destruct Hin as [Heq|[]]. congruence.
    + assert (Hlogs : ~ In (Post t) (snd (on_error (net k) d))).
      { destruct (net k) as [x|status header|]; simpl; try tauto.
        destruct (status =? 429); simpl; intuition discriminate. }
      destruct rem as [|rem].
      * rewrite (api_loop_last _ _ _ _ Hfail) in Hin. cbn [snd] in Hin.
        destruct Hin as [Heq|Hin]; [congruence | contradiction].
      * rewrite (api_loop_retry _ _ _ _ _ Hfail) in Hin. cbn [snd] in Hin.
        destruct Hin as [Heq|Hin]; [congruence|].
        apply in_app_or in Hin. destruct Hin as [Hin|[Heq|Hin]].
        -- contradiction.
        -- discriminate Heq.
        -- apply IH in Hin. exact Hin.
Qed.

Lemma pumpFun_posts failed net data t :
  In (Post t) (snd (pumpFun failed net data)) -> t = data.
Proof.
  unfold pumpFun, apiRequest.
  pose proof (api_loop_posts_data net data API_RETRY_LIMIT 0 BASE_API_DELAY t) as H.
  destruct (api_loop net data 0 API_RETRY_LIMIT BASE_API_DELAY) as [r evs].
  cbn [snd] in H.
  destruct r as [[|h]| |]; cbn [snd]; intros Hin; try (apply H; exact Hin);
    apply in_app_or in Hin; destruct Hin as [Hin|[Heq|[]]];
    try (apply H; exact Hin); discriminate Heq.
Qed.

(** [pumpFun] always posts: the budget of 5 attempts is not empty. *)
Lemma pumpFun_submits failed net data :
  In (Post data) (snd (pumpFun failed net data)).
Proof.
  unfold pumpFun, apiRequest, API_RETRY_LIMIT. rewrite api_loop_step.
  destruct (net O) as [x|status header|].
  - destruct x; left; reflexivity.
  - cbv beta iota zeta.
    destruct (on_error (Rejected status header) BASE_API_DELAY) as [d1 logs].
    cbv beta iota zeta.
    destruct (api_loop net data 1 4 (d1 * 2)) as [r evs].
    destruct r as [[|h]| |]; cbn [snd]; try (left; reflexivity);
      apply in_or_app; left; left; reflexivity.
  - cbv beta iota zeta.
    destruct (on_error Unreachable BASE_API_DELAY) as [d1 logs].
    cbv beta iota zeta.
    destruct (api_loop net data 1 4 (d1 * 2)) as [r evs].
    destruct r as [[|h]| |]; cbn [snd]; try (left; reflexivity);
      apply in_or_app; left; left; reflexivity.
Qed.

(** The loop of [sellTokens] in terms of the token it stops at. *)
Lemma sell_scan_held net mint pct tokens :
  sell_scan net mint pct tokens =
    match held mint tokens with
    | None => (Undefined, [])
    | Some t => sell_scan net mint pct [t]
    end.
Proof.
  unfold held. induction tokens as [|t rest IH]; [reflexivity|].
  cbn [sell_scan find].
  destruct (String.eqb (tok_mint t) mint) eqn:E;
    [cbn [sell_scan]; rewrite E; reflexivity | exact IH].
Qed.

Lemma held_mint mint tokens t : held mint tokens = Some t -> tok_mint t = mint.
Proof.
  unfold held. intros H. apply find_some in H. destruct H as [_ H].
  apply String.eqb_eq. exact H.
Qed.

Lemma sell_scan_dust net mint pct t :
  tok_mint t = mint -> (tok_amount t * pct < 1)%Q ->
  sell_scan net mint pct [t] = (Undefined, [Log (MsgSkipping mint)]).
Proof.
  intros Hm Hlt. cbn [sell_scan].
  apply String.eqb_eq in Hm. rewrite Hm.
  destruct (Qle_bool 1 (tok_amount t * pct)) eqn:E; [|reflexivity].
  apply Qle_bool_iff in E. exfalso. apply (Qlt_not_le _ _ Hlt E).
Qed.

Lemma sell_scan_posts net mint pct tokens tr :
  In (Post tr) (snd (sell_scan net mint pct tokens)) ->
  trade_type tr = Sell /\ trade_mint tr = mint /\ (1 <= trade_amount tr)%Q /\
  exists t, held mint tokens = Some t /\
            trade_amount tr = (tok_amount t * pct)%Q.
Proof.
  rewrite sell_scan_held. destruct (held mint tokens) as [t|] eqn:Hheld.
  - pose proof (held_mint _ _ _ Hheld) as Hm. cbn [sell_scan].
    apply String.eqb_eq in Hm. rewrite Hm.
    destruct (Qle_bool 1 (tok_amount t * pct)) eqn:E.
    + unfold pumpFunSell.
      pose proof (pumpFun_posts MsgSellFailed net
                    (Trade Sell mint (tok_amount t * pct)) tr) as Hdata.
      destruct (pumpFun MsgSellFailed net (Trade Sell mint (tok_amount t * pct)))
        as [txHash evs].
      cbn [snd] in *. intros [Heq|Hin]; [discriminate Heq|].
      apply in_app_or in Hin. destruct Hin as [Hin|Hin].
      * rewrite (Hdata Hin). cbn. apply Qle_bool_iff in E.
        repeat split; try exact E. exists t. split; reflexivity.
      * exfalso. destruct (truthy txHash); [|destruct Hin].
        destruct txHash; [|destruct Hin ..].
        destruct Hin as [Heq|[]]. discriminate Heq.
    + cbn [snd]. intros [Heq|[]]. discriminate Heq.
  - intros [].
Qed.

Lemma api_loop_no_skip net data rem : forall k d mint,
  ~ In (Log (MsgSkipping mint)) (snd (api_loop net data k rem d)).
Proof.
  induction rem as [|rem IH]; intros k d mint Hin.
  - destruct Hin.
  - destruct (responded_dec (net k)) as [[x E]|Hfail].
    + rewrite (api_loop_success _ _ _ _ _ _ E) in Hin.
      destruct Hin as [Heq|[]]. discriminate Heq.
    + assert (Hlogs : ~ In (Log (MsgSkipping mint)) (snd (on_error (net k) d))).
      { destruct (net k) as [x|status header|]; simpl; try tauto.
        destruct (status =? 429); simpl; intuition discriminate. }
      destruct rem as [|rem].
      * rewrite (api_loop_last _ _ _ _ Hfail) in Hin. cbn [snd] in Hin.
        destruct Hin as [Heq|Hin]; [discriminate Heq | contradiction].
      * rewrite (api_loop_retry _ _ _ _ _ Hfail) in Hin. cbn [snd] in Hin.
        destruct Hin as [Heq|Hin]; [discriminate Heq|].
        apply in_app_or in Hin. destruct Hin as [Hin|[Heq|Hin]].
        -- contradiction.
        -- discriminate Heq.
        -- apply IH in Hin. exact Hin.
Qed.

(** A token that [sellTokens] finds passed the filter of
    [fetchSPLTokens]: it is an account of the wallet with more than one
    unit. *)
Lemma held_fetched accounts mint t :
  held mint (fst (fetchSPLTokens (Some accounts))) = Some t ->
  exists a, In a accounts /\ decode a = t /\ acc_mint a = mint /\
            (1 < tok_amount (decode a))%Q.
Proof.
  intros Hheld. pose proof (held_mint _ _ _ Hheld) as Hm.
  unfold held in Hheld. apply find_some in Hheld. destruct Hheld as [Hin _].
  cbn [fetchSPLTokens fst] in Hin. apply filter_In in Hin.
  destruct Hin as [Hin Hgt]. apply in_map_iff in Hin.
  destruct Hin as (a & Ha & Hin). exists a. subst t.
  repeat split; try assumption.
  unfold Qgt_bool in Hgt. apply negb_true_iff in Hgt.
  apply Qnot_le_lt. intros Hle. apply Qle_bool_iff in Hle. congruence.
Qed.

(** C7.  [sellTokens] posts a sell order only for an amount of at least
    1 unit; and when the amount it computes for the held token,
    [token.amount * sellPercentage], is below 1, the call logs the skip,
    posts nothing and returns [undefined]. *)
Theorem C7_sellTokens_skips_dust (rpc : option (list account))
    (net : nat -> attempt) (mint : string) (pct : Q) :
  let run := sellTokens rpc net mint pct in
  (forall tr, In (Post tr) (snd run) ->
     trade_type tr = Sell /\ (1 <= trade_amount tr)%Q) /\
  (forall t, held mint (fst (fetchSPLTokens rpc)) = Some t ->
     (tok_amount t * pct < 1)%Q ->
     run = (Undefined, [SellTokens mint pct; Log (MsgSkipping mint)]) /\
     forall tr, ~ In (Post tr) (snd run)).
Proof.
  intros run. unfold run, sellTokens. split.
  - intros tr Hin.
    destruct (fetchSPLTokens rpc) as [tokens evs1] eqn:Hfetch.
    pose proof (sell_scan_posts net mint pct tokens tr) as Hposts.
    destruct (sell_scan net mint pct tokens) as [r evs]. cbn [snd] in *.
    destruct Hin as [Heq|Hin]; [discriminate Heq|].
    apply in_app_or in Hin. destruct Hin as [Hin|Hin].
    + exfalso. destruct rpc; cbn in Hfetch; injection Hfetch as _ <-.
      * destruct Hin.
      * destruct Hin as [Heq|[]]. discriminate Heq.
    + destruct (Hposts Hin) as (Ht & _ & Ha & _). split; assumption.
  - intros t Hheld Hlt.
    destruct rpc as [accounts|]; [|discriminate Hheld].
    cbn [fetchSPLTokens fst] in *.
    rewrite sell_scan_held, Hheld.
    rewrite (sell_scan_dust net mint pct t (held_mint _ _ _ Hheld) Hlt).
    cbn [app snd]. split; [reflexivity|].
    intros tr [Heq|[Heq|[]]]; discriminate Heq.
Qed.

(** The theorem on a wallet with 1.5 units, of which half is to be sold. *)
Lemma C7_sellTokens_skips_dust_witness :
  sellTokens (Some small_wallet) net_ok mintA (1 # 2) =
    (Undefined, [SellTokens mintA (1 # 2); Log (MsgSkipping mintA)]).
Proof.
  destruct (C7_sellTokens_skips_dust (Some small_wallet) net_ok mintA (1 # 2))
    as [_ Hskip].
  apply (Hskip (Token mintA (1500000 # 1000000))).
  - reflexivity.
  - reflexivity.
Defined.

(** C10.  When every account the wallet holds for [mint] has at most one
    unit (in particular when it holds none), the filter of
    [fetchSPLTokens] removes them all: [sellTokens] returns [undefined],
    posts nothing and does not log the skip.  Conversely the skip is
    logged only when the wallet has an account for [mint] with more than
    one unit whose amount times the percentage is below 1. *)
Theorem C10_sellTokens_filtered_holding (accounts : list account)
    (net : nat -> attempt) (mint : string) (pct : Q) :
  let run := sellTokens (Some accounts) net mint pct in
  ((forall a, In a accounts -> acc_mint a = mint ->
      (tok_amount (decode a) <= 1)%Q) ->
   run = (Undefined, [SellTokens mint pct]) /\
   (forall tr, ~ In (Post tr) (snd run)) /\
   ~ In (Log (MsgSkipping mint)) (snd run)) /\
  (In (Log (MsgSkipping mint)) (snd run) ->
   exists a, In a accounts /\ acc_mint a = mint /\
             (1 < tok_amount (decode a))%Q /\
             (tok_amount (decode a) * pct < 1)%Q).
Proof.
  intros run. unfold run, sellTokens.
  pose proof (held_fetched accounts mint) as Hfetched.
  destruct (fetchSPLTokens (Some accounts)) as [tokens evs1] eqn:Hfetch.
  assert (Hevs : evs1 = []) by (cbn in Hfetch; congruence). subst evs1.
  cbn [fst] in Hfetched. rewrite sell_scan_held. split.
  - intros Hsmall. destruct (held mint tokens) as [t|] eqn:Hheld.
    + exfalso. destruct (Hfetched t eq_refl) as (a & Hin & _ & Hm & Hgt).
      apply (Qlt_not_le _ _ Hgt). apply Hsmall; assumption.
    + cbn [app snd]. split; [reflexivity|]. split.
      * intros tr [Heq|[]]. discriminate Heq.
      * intros [Heq|[]]. discriminate Heq.
  - destruct (held mint tokens) as [t|] eqn:Hheld.
    + destruct (Hfetched t eq_refl) as (a & Hin & Hdec & Hm & Hgt).
      pose proof (held_mint _ _ _ Hheld) as Hmint. cbn [sell_scan].
      apply String.eqb_eq in Hmint. rewrite Hmint.
      destruct (Qle_bool 1 (tok_amount t * pct)) eqn:E.
      * intros Hlog. exfalso.
        destruct (pumpFunSell net mint (tok_amount t * pct)) as [txHash evs] eqn:Hsell.
        cbn [app snd] in Hlog.
        destruct Hlog as [Heq|[Heq|Hlog]]; try discriminate.
        apply in_app_or in Hlog. destruct Hlog as [Hlog|Hlog].
        -- unfold pumpFunSell, pumpFun, apiRequest in Hsell.
           apply (api_loop_no_skip net (Trade Sell mint (tok_amount t * pct))
                    API_RETRY_LIMIT 0 BASE_API_DELAY mint).
           destruct (api_loop net (Trade Sell mint (tok_amount t * pct)) 0
                       API_RETRY_LIMIT BASE_API_DELAY) as [r evs0].
           cbn [snd].
           destruct r as [[|h]| |]; injection Hsell as _ <-; try exact Hlog;
             apply in_app_or in Hlog; destruct Hlog as [Hlog|[Heq|[]]];
             try exact Hlog; discriminate Heq.
        -- destruct (truthy txHash); [|destruct Hlog].
           destruct txHash; [|destruct Hlog ..].
           destruct Hlog as [Heq|[]]. discriminate Heq.
      * intros _. exists a. subst t. repeat split; try assumption.
        apply Qnot_le_lt. intros Hle. apply Qle_bool_iff in Hle. congruence.
    + cbn [app snd]. intros [Heq|[]]. discriminate Heq.
Qed.

(** The theorem on [wallet], which holds half a unit of [mintB]. *)
Lemma C10_sellTokens_filtered_holding_witness :
  sellTokens (Some wallet) net_ok mintB 1 = (Undefined, [SellTokens mintB 1]).
Proof.
  destruct (C10_sellTokens_filtered_holding wallet net_ok mintB 1)
    as [Hsmall _].
  apply Hsmall. intros a Hin Hm.
  destruct Hin as [<-|[<-|[]]].
  - discriminate.
  - discriminate Hm.
Defined.

(** ** The position monitor *)

Lemma decisions_app (a b : list event) :
  decisions (a ++ b) = decisions a ++ decisions b.
Proof. apply filter_app. Qed.

Lemma api_loop_decisions net data rem : forall k d,
  decisions (snd (api_loop net data k rem d)) = [].
Proof.
  induction rem as [|rem IH]; intros k d; [reflexivity|].
  destruct (responded_dec (net k)) as [[x E]|Hfail].
  - rewrite (api_loop_success _ _ _ _ _ _ E). reflexivity.
  - assert (Hlogs : decisions (snd (on_error (net k) d)) = []).
    { destruct (net k) as [x|status header|]; try reflexivity.
      unfold on_error. destruct (status =? 429); reflexivity. }
    destruct rem as [|rem].
    + rewrite (api_loop_last _ _ _ _ Hfail). cbn [snd].
      change (Post data :: ?l) with ([Post data] ++ l).
      rewrite decisions_app, Hlogs. reflexivity.
    + rewrite (api_loop_retry _ _ _ _ _ Hfail). cbn [snd].
      change (Post data :: ?l ++ Wait ?x :: ?m)
        with ([Post data] ++ l ++ [Wait x] ++ m).
      rewrite !decisions_app, Hlogs, IH. reflexivity.
Qed.

Lemma pumpFun_decisions failed net data :
  is_decision (Log failed) = false ->
  decisions (snd (pumpFun failed net data)) = [].
Proof.
  intros Hfailed. unfold pumpFun, apiRequest.
  pose proof (api_loop_decisions net data API_RETRY_LIMIT 0 BASE_API_DELAY) as H.
  destruct (api_loop net data 0 API_RETRY_LIMIT BASE_API_DELAY) as [r evs].
  cbn [snd] in H.
  destruct r as [[|h]| |]; cbn [snd]; rewrite ?decisions_app, H; try reflexivity;
    unfold decisions; cbn [filter]; rewrite Hfailed; reflexivity.
Qed.

Lemma sell_scan_decisions net mint pct tokens :
  decisions (snd (sell_scan net mint pct tokens)) = [].
Proof.
  induction tokens as [|t rest IH]; [reflexivity|]. cbn [sell_scan].
  destruct (String.eqb (tok_mint t) mint); [|exact IH].
  destruct (Qle_bool 1 (tok_amount t * pct)); [|reflexivity].
  unfold pumpFunSell.
  pose proof (pumpFun_decisions MsgSellFailed net
                (Trade Sell mint (tok_amount t * pct)) eq_refl) as H.
  destruct (pumpFun MsgSellFailed net (Trade Sell mint (tok_amount t * pct)))
    as [txHash evs].
  cbn [snd] in *.
  change (Log ?m :: ?l ++ ?k) with ([Log m] ++ l ++ k).
  rewrite !decisions_app, H.
  destruct (truthy txHash); [|reflexivity]. destruct txHash; reflexivity.
Qed.

(** A call of [sellTokens] is one decision. *)
Lemma sellTokens_decisions rpc net mint pct :
  decisions (snd (sellTokens rpc net mint pct)) = [SellTokens mint pct].
Proof.
  unfold sellTokens.
  pose proof (sell_scan_decisions net mint pct (fst (fetchSPLTokens rpc))) as H.
  destruct (fetchSPLTokens rpc) as [tokens evs1] eqn:Hfetch.
  cbn [fst] in H.
  destruct (sell_scan net mint pct tokens) as [r evs2].
  cbn [fst snd] in *.
  change (SellTokens mint pct :: ?l ++ ?k) with ([SellTokens mint pct] ++ l ++ k).
  rewrite !decisions_app, H, app_nil_r.
  destruct rpc; cbn in Hfetch; injection Hfetch as _ <-; reflexivity.
Qed.

(** The result of awaiting a sale. *)
Lemma await_sellTokens_run e mint pct w :
  await_sellTokens e mint pct w =
    (fst (sellTokens (se_rpc e) (se_net e) mint pct),
     {| now := now w + total (waits (snd (sellTokens (se_rpc e) (se_net e) mint pct)))
                + Z.of_N (elapsed (se_lapse e));
        overrides := presses (pressed (se_lapse e)) (overrides w) |},
     snd (sellTokens (se_rpc e) (se_net e) mint pct)).
Proof.
  unfold await_sellTokens, bind, emits, suspend, ret, value, final, trace.
  cbn [fst snd]. rewrite !app_nil_r. reflexivity.
Qed.

Lemma getTokenInfoFromWebSocket_run e mint w :
  getTokenInfoFromWebSocket e mint w =
    (qe_info e,
     {| now := now w + 0 + Z.of_N (elapsed (qe_lapse e));
        overrides := presses (pressed (qe_lapse e)) (overrides w) |},
     [Subscribe mint]).
Proof. reflexivity. Qed.

Lemma await_sellTokens_decisions e mint pct w :
  decisions (trace (await_sellTokens e mint pct w)) = [SellTokens mint pct].
Proof. rewrite await_sellTokens_run. apply sellTokens_decisions. Qed.

(** The stop-loss threshold lies below the profit threshold. *)
Lemma stop_loss_excludes_profit (x : number) :
  num_le x (inject_Z (-10)) = true -> num_ge x 25 = false.
Proof.
  destruct x as [q| | |]; simpl; try discriminate; try reflexivity.
  intros Hle. apply Qle_bool_iff in Hle.
  destruct (Qle_bool 25 q) eqn:E; [|reflexivity].
  apply Qle_bool_iff in E. exfalso.
  assert (H : (25 <= inject_Z (-10))%Q) by (eapply Qle_trans; eassumption).
  revert H. unfold Qle. simpl. lia.
Qed.

Lemma primary_branch_cases cfg init info :
  match primary_branch cfg init info with
  | Profit => num_ge (marketCapChange info init) 25 = true
  | StopLoss =>
      num_ge (marketCapChange info init) 25 = false /\
      num_le (marketCapChange info init) (inject_Z (-10)) = true
  | BondingCurve =>
      num_ge (marketCapChange info init) 25 = false /\
      num_le (marketCapChange info init) (inject_Z (-10)) = false /\
      Qle_bool (inject_Z (SELL_BONDING_CURVE_PROGRESS cfg)) (bondingCurve info) = true
  | NoBranch =>
      num_ge (marketCapChange info init) 25 = false /\
      num_le (marketCapChange info init) (inject_Z (-10)) = false /\
      Qle_bool (inject_Z (SELL_BONDING_CURVE_PROGRESS cfg)) (bondingCurve info) = false
  end.
Proof.
  unfold primary_branch.
  destruct (num_ge (marketCapChange info init) 25); [reflexivity|].
  destruct (num_le (marketCapChange info init) (inject_Z (-10))); [auto|].
  destruct (Qle_bool (inject_Z (SELL_BONDING_CURVE_PROGRESS cfg)) (bondingCurve info));
    auto.
Qed.

(** The primary chain, arm by arm. *)
Lemma primary_run cfg mint init info t l w :
  primary cfg mint init info t l w =
    match primary_branch cfg init info with
    | Profit =>
        let r := await_sellTokens (tk_sell_primary t) mint (1 # 2) w in
        ((Next, Locals (endTime l) (marketcap info)),
         {| now := now (final r);
            overrides := Flags (resetTimer (overrides (final r))) true
                           (sellImmediately (overrides (final r))) |},
         Log (MsgProfit mint) :: trace r)
    | StopLoss =>
        let r := await_sellTokens (tk_sell_primary t) mint 1 w in
        ((Break, l), final r, Log (MsgStopLoss mint) :: trace r)
    | BondingCurve =>
        let r := await_sellTokens (tk_sell_primary t) mint (3 # 4) w in
        ((Break, l), final r, Log (MsgBondingCurve mint) :: trace r)
    | NoBranch => ((Next, l), w, [])
    end.
Proof.
  pose proof (primary_branch_cases cfg init info) as H.
  unfold primary.
  destruct (primary_branch cfg init info).
  - rewrite H. unfold bind, emit, getFlags, setFlags, ret, value, final, trace.
    cbn [fst snd app]. rewrite !app_nil_r. reflexivity.
  - destruct H as [-> ->].
    unfold bind, emit, ret, value, final, trace.
    cbn [fst snd app]. rewrite !app_nil_r. reflexivity.
  - destruct H as (-> & -> & ->).
    unfold bind, emit, ret, value, final, trace.
    cbn [fst snd app]. rewrite !app_nil_r. reflexivity.
  - destruct H as (-> & -> & ->). reflexivity.
Qed.

Lemma milestone_run mint info t l w :
  milestone mint info t l w =
    if Qgt_bool (marketcap info) (lastMarketCap l * PROFIT_TARGET_2) then
      let r := await_sellTokens (tk_sell_milestone t) mint (3 # 4) w in
      (Locals (endTime l) (marketcap info), final r, Log MsgMilestone :: trace r)
    else (l, w, []).
Proof.
  unfold milestone.
  destruct (Qgt_bool (marketcap info) (lastMarketCap l * PROFIT_TARGET_2));
    [|reflexivity].
  unfold bind, emit, ret, value, final, trace.
  cbn [fst snd app]. rewrite !app_nil_r. reflexivity.
Qed.

Lemma check_resetTimer_run l w :
  check_resetTimer l w =
    if resetTimer (overrides w) then
      (Locals (now w + SELL_TIMEOUT) (lastMarketCap l),
       {| now := now w;
          overrides := Flags false (continueTrade (overrides w))
                         (sellImmediately (overrides w)) |},
       [Log MsgResetTimer])
    else (l, w, []).
Proof.
  unfold check_resetTimer, bind, getFlags, value, final, trace. cbn [fst snd].
  destruct (resetTimer (overrides w)); reflexivity.
Qed.

Lemma check_exit_run mint t w :
  check_exit mint t w =
    if continueTrade (overrides w) then
      (Break,
       {| now := now w;
          overrides := Flags (resetTimer (overrides w)) false
                         (sellImmediately (overrides w)) |},
       [Log MsgContinue])
    else if sellImmediately (overrides w) then
      let r := await_sellTokens (tk_sell_now t) mint (3 # 4) w in
      (Break,
       {| now := now (final r);
          overrides := Flags (resetTimer (overrides (final r)))
                         (continueTrade (overrides (final r))) false |},
       Log MsgSellNow :: trace r)
    else (Next, w, []).
Proof.
  unfold check_exit, bind, getFlags, value, final, trace. cbn [fst snd].
  destruct (continueTrade (overrides w)); [reflexivity|].
  destruct (sellImmediately (overrides w)); [|reflexivity].
  unfold emit, setFlags, ret. cbn [fst snd app]. rewrite !app_nil_r. reflexivity.
Qed.

Lemma body_run cfg mint init t l w :
  body cfg mint init t l w =
    match qe_info (tk_quote t) with
    | None => ((Next, l), quoted t w, [Subscribe mint])
    | Some info =>
        let line := Log (MsgQuote info (marketCapChange info init)
                           (endTime l - now (quoted t w))) in
        let r1 := primary cfg mint init info t l (quoted t w) in
        match fst (value r1) with
        | Break =>
            ((Break, snd (value r1)), final r1,
             Subscribe mint :: line :: trace r1)
        | Next =>
            let r2 := milestone mint info t (snd (value r1)) (final r1) in
            let r3 := check_resetTimer (value r2) (final r2) in
            let r4 := check_exit mint t (final r3) in
            ((value r4, value r3), final r4,
             Subscribe mint :: line ::
               trace r1 ++ trace r2 ++ trace r3 ++ trace r4)
        end
    end.
Proof.
  unfold body, bind at 1. rewrite getTokenInfoFromWebSocket_run.
  unfold value at 1, final at 1, trace at 1. cbn [fst snd]. fold (quoted t w).
  destruct (qe_info (tk_quote t)) as [info|]; [|reflexivity].
  unfold bind, dateNow, emit, ret, value, final, trace. cbn [fst snd app].
  destruct (primary cfg mint init info t l (quoted t w)) as [[[c l1] w1] evs1].
  cbn [fst snd]. destruct c; cbn [fst snd]; rewrite ?app_nil_r; reflexivity.
Qed.

Lemma iteration_run cfg mint init t l w :
  iteration cfg mint init t l w =
    let r := body cfg mint init t l w in
    match fst (value r) with
    | Break => r
    | Next =>
        ((Next, snd (value r)),
         {| now := now (final r) + MONITOR_INTERVAL + Z.of_N (elapsed (tk_sleep t));
            overrides := presses (pressed (tk_sleep t)) (overrides (final r)) |},
         trace r)
    end.
Proof.
  unfold iteration, bind, value, final, trace.
  destruct (body cfg mint init t l w) as [[[c l1] w1] evs1]. cbn [fst snd].
  destruct c; unfold ret, suspend; cbn [fst snd]; rewrite ?app_nil_r; reflexivity.
Qed.

(** One turn of the loop whose guard holds. *)
Lemma monitor_loop_step cfg mint init ticks fuel i l w :
  now w < endTime l ->
  monitor_loop cfg mint init ticks (S fuel) i l w =
    let r := iteration cfg mint init (ticks i) l w in
    match fst (value r) with
    | Break => (Some (S i, snd (value r)), final r, trace r)
    | Next =>
        let r' := monitor_loop cfg mint init ticks fuel (S i)
                    (snd (value r)) (final r) in
        (value r', final r', trace r ++ trace r')
    end.
Proof.
  intros Hlt. cbn [monitor_loop]. unfold bind at 1.
  change (dateNow w) with (now w, w, @nil event).
  cbn [value final trace fst snd app].
  apply Z.ltb_lt in Hlt. rewrite Hlt.
  unfold bind.
  destruct (iteration cfg mint init (ticks i) l w) as [[[c l1] w1] evs1].
  cbn [value final trace fst snd]. destruct c; cbn [value final trace fst snd app].
  - reflexivity.
  - unfold ret. cbn [fst snd]. rewrite app_nil_r. reflexivity.
Qed.

Lemma monitor_loop_done cfg mint init ticks fuel i l w :
  endTime l <= now w ->
  monitor_loop cfg mint init ticks (S fuel) i l w = (Some (i, l), w, []).
Proof.
  intros Hge. cbn [monitor_loop]. unfold bind.
  change (dateNow w) with (now w, w, @nil event).
  cbn [value final trace fst snd app].
  apply Z.ltb_ge in Hge. rewrite Hge. reflexivity.
Qed.

(** When the amount computed for the held token reaches one unit, the
    order for it is posted. *)
Lemma sellTokens_submits rpc net mint pct tok :
  held mint (fst (fetchSPLTokens rpc)) = Some tok ->
  (1 <= tok_amount tok * pct)%Q ->
  In (Post (Trade Sell mint (tok_amount tok * pct)))
     (snd (sellTokens rpc net mint pct)).
Proof.
  intros Hheld Hge. unfold sellTokens.
  destruct (fetchSPLTokens rpc) as [tokens evs1]. cbn [fst] in Hheld.
  rewrite sell_scan_held, Hheld. cbn [sell_scan].
  pose proof (held_mint _ _ _ Hheld) as Hm. apply String.eqb_eq in Hm.
  rewrite Hm. apply Qle_bool_iff in Hge. rewrite Hge.
  unfold pumpFunSell.
  pose proof (pumpFun_submits MsgSellFailed net
                (Trade Sell mint (tok_amount tok * pct))) as Hpost.
  destruct (pumpFun MsgSellFailed net (Trade Sell mint (tok_amount tok * pct)))
    as [txHash evs].
  cbn [snd] in *. right. apply in_or_app. right. right.
  apply in_or_app. left. exact Hpost.
Qed.

Lemma stop_loss_tick cfg mint init t l w info :
  qe_info (tk_quote t) = Some info ->
  num_le (marketCapChange info init) (inject_Z (-10)) = true ->
  iteration cfg mint init t l w =
    ((Break, l),
     final (await_sellTokens (tk_sell_primary t) mint 1 (quoted t w)),
     Subscribe mint ::
     Log (MsgQuote info (marketCapChange info init) (endTime l - now (quoted t w))) ::
     Log (MsgStopLoss mint) ::
     trace (await_sellTokens (tk_sell_primary t) mint 1 (quoted t w))).
Proof.
  intros Hq Hle.
  assert (Hbr : primary_branch cfg init info = StopLoss).
  { unfold primary_branch.
    rewrite (stop_loss_excludes_profit _ Hle), Hle. reflexivity. }
  rewrite iteration_run, body_run, Hq, primary_run, Hbr. reflexivity.
Qed.

(** C4.  On a tick whose quote has a market-cap change of -10 % or less,
    whatever its bonding curve, the monitor takes the stop-loss branch and
    no other: it calls [sellTokens(mint, 1.00)], which posts an order for
    the whole amount of the held token, and leaves the loop on that
    tick. *)
Theorem C4_stop_loss_sells_all (cfg : config) (mint : string) (init : Q)
    (t : tick) (l : locals) (w : World) (info : TokenInfo) :
  qe_info (tk_quote t) = Some info ->
  num_le (marketCapChange info init) (inject_Z (-10)) = true ->
  let r := iteration cfg mint init t l w in
  value r = (Break, l) /\
  decisions (trace r) = [Log (MsgStopLoss mint); SellTokens mint 1] /\
  (forall tok,
     held mint (fst (fetchSPLTokens (se_rpc (tk_sell_primary t)))) = Some tok ->
     In (Post (Trade Sell mint (tok_amount tok * 1))) (trace r)) /\
  (forall ticks fuel i,
     ticks i = t -> now w < endTime l ->
     value (monitor_loop cfg mint init ticks (S fuel) i l w) = Some (S i, l)).
Proof.
  intros Hq Hle r.
  pose proof (stop_loss_tick cfg mint init t l w info Hq Hle) as Hrun.
  unfold r. split; [|split; [|split]].
  - rewrite Hrun. reflexivity.
  - rewrite Hrun. cbn [trace snd].
    change (Subscribe mint :: ?a :: ?b :: ?rest)
      with ([Subscribe mint; a; b] ++ rest).
    rewrite decisions_app.
    change (snd ?x) with (trace x).
    rewrite await_sellTokens_decisions. reflexivity.
  - intros tok Hheld. rewrite Hrun. cbn [trace snd].
    right. right. right. rewrite await_sellTokens_run. cbn [snd].
    apply sellTokens_submits; [exact Hheld|].
    destruct (se_rpc (tk_sell_primary t)) as [accounts|]; [|discriminate Hheld].
    destruct (held_fetched accounts mint tok Hheld) as (a & _ & Hdec & _ & Hgt).
    rewrite Hdec in Hgt. rewrite Qmult_1_r. apply Qlt_le_weak. exact Hgt.
  - intros ticks fuel i Hi Hlt.
    rewrite (monitor_loop_step _ _ _ _ _ _ _ _ Hlt), Hi, Hrun. reflexivity.
Qed.

(** The theorem on a quote of 80 against an entry of 100, with a bonding
    curve of 40 %, above the sell threshold. *)
Lemma C4_stop_loss_sells_all_witness :
  decisions (trace (iteration default_config mintA 100
                      (tick_with (Some (quote 80 40)) 0 prompt_sell)
                      (Locals 120000 100) world0))
    = [Log (MsgStopLoss mintA); SellTokens mintA 1].
Proof.
  destruct (C4_stop_loss_sells_all default_config mintA 100
              (tick_with (Some (quote 80 40)) 0 prompt_sell)
              (Locals 120000 100) world0 (quote 80 40))
    as (_ & Hdecisions & _).
  - reflexivity.
  - reflexivity.
  - exact Hdecisions.
Defined.

Lemma bind_eq {A B} (c : M A) (k : A -> M B) (w : World) :
  bind c k w =
    let r1 := c w in
    let r2 := k (value r1) (final r1) in
    (value r2, final r2, trace r1 ++ trace r2).
Proof. reflexivity. Qed.

Lemma decisions_cons (e : event) (evs : list event) :
  decisions (e :: evs) =
    if is_decision e then e :: decisions evs else decisions evs.
Proof. reflexivity. Qed.

Lemma run_value {A} (a : A) (w : World) (evs : list event) :
  value (a, w, evs) = a.
Proof. reflexivity. Qed.

Lemma run_final {A} (a : A) (w : World) (evs : list event) :
  final (a, w, evs) = w.
Proof. reflexivity. Qed.

Lemma run_trace {A} (a : A) (w : World) (evs : list event) :
  trace (a, w, evs) = evs.
Proof. reflexivity. Qed.

(** Normal form of the run of a phase and of the decisions in its trace. *)
Ltac run_norm :=
  repeat first
    [ rewrite run_value | rewrite run_final | rewrite run_trace
    | progress cbn [fst snd now overrides resetTimer continueTrade
                    sellImmediately endTime lastMarketCap] ].

Ltac decisions_norm :=
  repeat first
    [ rewrite decisions_app | rewrite decisions_cons
    | rewrite await_sellTokens_decisions
    | progress cbn [is_decision app]
    | progress change (decisions []) with (@nil event) ].

Lemma presses_continue (keys : list key) (f : flags) :
  continueTrade f = true -> continueTrade (presses keys f) = true.
Proof.
  unfold presses. revert f.
  induction keys as [|k keys IH]; intros f Hf; [exact Hf|].
  cbn [fold_left]. apply IH. destruct k; cbn; auto.
Qed.

Lemma await_sellTokens_overrides e mint pct w :
  overrides (final (await_sellTokens e mint pct w)) =
    presses (pressed (se_lapse e)) (overrides w).
Proof. rewrite await_sellTokens_run. reflexivity. Qed.

(** The decisions of the override checks. *)
Lemma check_resetTimer_decisions l w :
  decisions (trace (check_resetTimer l w)) =
    if resetTimer (overrides w) then [Log MsgResetTimer] else [].
Proof.
  rewrite check_resetTimer_run. destruct (resetTimer (overrides w)); reflexivity.
Qed.

Lemma check_exit_decisions mint t w :
  decisions (trace (check_exit mint t w)) =
    if continueTrade (overrides w) then [Log MsgContinue]
    else if sellImmediately (overrides w)
         then [Log MsgSellNow; SellTokens mint (3 # 4)]
         else [].
Proof.
  rewrite check_exit_run. destruct (continueTrade (overrides w)); [reflexivity|].
  destruct (sellImmediately (overrides w)); [|reflexivity].
  cbv zeta. run_norm. decisions_norm. reflexivity.
Qed.

Lemma check_resetTimer_continue l w :
  continueTrade (overrides (final (check_resetTimer l w))) =
    continueTrade (overrides w).
Proof.
  rewrite check_resetTimer_run. destruct (resetTimer (overrides w)); reflexivity.
Qed.

(** A tick whose quote selects the profit branch: the branch raises
    [continueTrade], and the exit check of the same tick consumes it. *)
Lemma profit_tick cfg mint init t l w info :
  qe_info (tk_quote t) = Some info ->
  num_ge (marketCapChange info init) 25 = true ->
  fst (value (iteration cfg mint init t l w)) = Break /\
  lastMarketCap (snd (value (iteration cfg mint init t l w))) = marketcap info /\
  continueTrade (overrides (final (iteration cfg mint init t l w))) = false /\
  exists mid,
    decisions (trace (iteration cfg mint init t l w)) =
      [Log (MsgProfit mint); SellTokens mint (1 # 2)] ++ mid ++ [Log MsgContinue].
Proof.
  intros Hq Hge.
  assert (Hbr : primary_branch cfg init info = Profit).
  { unfold primary_branch. rewrite Hge. reflexivity. }
  rewrite iteration_run, body_run, Hq, primary_run, Hbr. cbv zeta. run_norm.
  set (w1 := {| now := _; overrides := Flags _ true _ |}).
  set (r2 := milestone mint info t (Locals (endTime l) (marketcap info)) w1).
  set (r3 := check_resetTimer (value r2) (final r2)).
  assert (H2 : continueTrade (overrides (final r2)) = true /\
               lastMarketCap (value r2) = marketcap info).
  { unfold r2. rewrite milestone_run.
    destruct (Qgt_bool _ _); cbv zeta; run_norm.
    - rewrite await_sellTokens_overrides. split; [|reflexivity].
      apply presses_continue. reflexivity.
    - split; reflexivity. }
  destruct H2 as (Hc2 & Hl2).
  assert (Hc3 : continueTrade (overrides (final r3)) = true).
  { unfold r3. rewrite check_resetTimer_continue. exact Hc2. }
  assert (Hl3 : lastMarketCap (value r3) = marketcap info).
  { unfold r3. rewrite check_resetTimer_run.
    destruct (resetTimer (overrides (final r2))); run_norm; exact Hl2. }
  rewrite check_exit_run, Hc3. run_norm.
  split; [reflexivity|]. split; [exact Hl3|]. split; [reflexivity|].
  exists (decisions (trace r2) ++ decisions (trace r3)).
  decisions_norm. rewrite <- app_assoc. reflexivity.
Qed.

(** C1 (what the code does).  On a tick whose quote has a market-cap
    change of 25 % or more the monitor calls [sellTokens(mint, 0.50)] and
    records the quote's market cap, but it also sets [continueTrade]; the
    exit check of the same tick finds the flag, clears it and breaks out
    of the loop.  The tick is the last one: the loop does not poll
    again. *)
Theorem C1_profit_tick_leaves_loop (cfg : config) (mint : string) (init : Q)
    (t : tick) (l : locals) (w : World) (info : TokenInfo) :
  qe_info (tk_quote t) = Some info ->
  num_ge (marketCapChange info init) 25 = true ->
  let r := iteration cfg mint init t l w in
  fst (value r) = Break /\
  lastMarketCap (snd (value r)) = marketcap info /\
  continueTrade (overrides (final r)) = false /\
  (exists mid,
     decisions (trace r) =
       [Log (MsgProfit mint); SellTokens mint (1 # 2)] ++ mid ++ [Log MsgContinue]) /\
  (forall ticks fuel i,
     ticks i = t -> now w < endTime l ->
     value (monitor_loop cfg mint init ticks (S fuel) i l w) =
       Some (S i, snd (value r))).
Proof.
  intros Hq Hge r.
  destruct (profit_tick cfg mint init t l w info Hq Hge) as (Hb & Hl & Hc & Hd).
  unfold r. repeat split; try assumption.
  intros ticks fuel i Hi Hlt.
  rewrite (monitor_loop_step _ _ _ _ _ _ _ _ Hlt), Hi. cbv zeta.
  rewrite Hb. reflexivity.
Qed.

(** The theorem on the first tick of [env_profit] (entry at 100, quote at
    126), and the whole run of [monitorTrade] there: one iteration, one
    sale of 50 %, then the exit. *)
Lemma C1_profit_tick_leaves_loop_witness :
  fst (value (iteration default_config mintA 100 (me_ticks env_profit O)
                (Locals 120000 100) world0)) = Break /\
  monitorTrade default_config env_profit 10 mintA 100 5 world0 =
    (Some 1%nat, world0,
     [Subscribe mintA;
      Log (MsgQuote (quote 126 5) (marketCapChange (quote 126 5) 100) 120000);
      Log (MsgProfit mintA);
      SellTokens mintA (1 # 2);
      Log (MsgSelling (1000000000 # 2000000) mintA);
      Post (Trade Sell mintA (1000000000 # 2000000));
      Log (MsgSold (1000000000 # 2000000) mintA "tx");
      Log MsgContinue]).
Proof.
  split; [|reflexivity].
  apply (C1_profit_tick_leaves_loop default_config mintA 100
           (me_ticks env_profit O) (Locals 120000 100) world0 (quote 126 5)).
  - reflexivity.
  - reflexivity.
Defined.

(** C3 (what the code does).  In [env_late_stop_loss] the stop-loss
    branch fires on the 24th tick, 5 s before the deadline; its sale
    retries against a dead endpoint for 15 s, so that the test after the
    loop finds the deadline passed and the monitor sells a second time,
    75 %, after its terminal branch. *)
Theorem C3_timeout_sale_follows_stop_loss :
  let r := monitorTrade default_config env_late_stop_loss 30 mintA 100 5 world0 in
  value r = Some 24%nat /\
  In (Log (MsgQuote (quote 80 5) (marketCapChange (quote 80 5) 100) 5000))
     (trace r) /\
  decisions (trace r) =
    [Log (MsgStopLoss mintA); SellTokens mintA 1;
     Log (MsgTimeout mintA); SellTokens mintA (3 # 4)] /\
  now (final r) = 130000.
Proof.
  vm_compute. repeat split; try reflexivity.
  do 24 right. left. reflexivity.
Qed.

(** The sleep changes neither the value nor the trace of the body. *)
Lemma iteration_value cfg mint init t l w :
  value (iteration cfg mint init t l w) = value (body cfg mint init t l w).
Proof.
  rewrite iteration_run. cbv zeta.
  destruct (body cfg mint init t l w) as [[[c l1] w1] evs1].
  destruct c; reflexivity.
Qed.

Lemma iteration_trace cfg mint init t l w :
  trace (iteration cfg mint init t l w) = trace (body cfg mint init t l w).
Proof.
  rewrite iteration_run. cbv zeta.
  destruct (body cfg mint init t l w) as [[[c l1] w1] evs1].
  destruct c; reflexivity.
Qed.

Lemma override_checks_no_milestone mint t l w :
  ~ In (Log MsgMilestone)
      (decisions (trace (check_resetTimer l w)) ++
       decisions (trace (check_exit mint t (final (check_resetTimer l w))))).
Proof.
  rewrite check_resetTimer_decisions, check_exit_decisions.
  intros Hin. apply in_app_or in Hin. destruct Hin as [Hin|Hin].
  - destruct (resetTimer (overrides w)); [|destruct Hin].
    destruct Hin as [Heq|[]]. discriminate Heq.
  - destruct (continueTrade _).
    + destruct Hin as [Heq|[]]. discriminate Heq.
    + destruct (sellImmediately _); [|destruct Hin].
      destruct Hin as [Heq|[Heq|[]]]; discriminate Heq.
Qed.

Lemma check_resetTimer_lastMarketCap l w :
  lastMarketCap (value (check_resetTimer l w)) = lastMarketCap l.
Proof.
  rewrite check_resetTimer_run. destruct (resetTimer (overrides w)); reflexivity.
Qed.

(** ** The override flags *)

Lemma presses_app (a b : list key) (f : flags) :
  presses (a ++ b) f = presses b (presses a f).
Proof. unfold presses. apply fold_left_app. Qed.

Lemma presses_resetTimer (keys : list key) (f : flags) :
  ~ In KeyR keys -> resetTimer (presses keys f) = resetTimer f.
Proof.
  unfold presses. revert f.
  induction keys as [|k keys IH]; intros f Hnot; [reflexivity|].
  cbn [fold_left]. rewrite IH.
  - destruct k; try reflexivity. exfalso. apply Hnot. left. reflexivity.
  - intros Hin. apply Hnot. right. exact Hin.
Qed.

Ltac no_such_decision Hin :=
  repeat (destruct Hin as [Hin|Hin]; [discriminate Hin|]); destruct Hin.

(** A tick on which R is neither pending nor pressed leaves the deadline
    alone. *)
Lemma no_reset_tick cfg mint init t l w :
  resetTimer (overrides w) = false ->
  ~ In KeyR (pressed_before_checks t) ->
  endTime (snd (value (iteration cfg mint init t l w))) = endTime l /\
  ~ In (Log MsgResetTimer) (decisions (trace (iteration cfg mint init t l w))).
Proof.
  intros Hflag Hkeys. unfold pressed_before_checks in Hkeys.
  assert (Hk1 : ~ In KeyR (pressed (qe_lapse (tk_quote t))))
    by (intros H; apply Hkeys; apply in_or_app; left; exact H).
  assert (Hk2 : ~ In KeyR (pressed (se_lapse (tk_sell_primary t))))
    by (intros H; apply Hkeys; apply in_or_app; right;
        apply in_or_app; left; exact H).
  assert (Hk3 : ~ In KeyR (pressed (se_lapse (tk_sell_milestone t))))
    by (intros H; apply Hkeys; apply in_or_app; right;
        apply in_or_app; right; exact H).
  assert (Hq : resetTimer (overrides (quoted t w)) = false).
  { unfold quoted. cbn [overrides]. rewrite presses_resetTimer; assumption. }
  rewrite iteration_value, iteration_trace, body_run.
  destruct (qe_info (tk_quote t)) as [info|]; [|split; [reflexivity|]].
  2:{ intros Hin. no_such_decision Hin. }
  rewrite primary_run.
  destruct (primary_branch cfg init info); cbv zeta; run_norm.
  - set (w1 := {| now := _; overrides := Flags _ true _ |}).
    assert (H1 : resetTimer (overrides w1) = false).
    { unfold w1. cbn [overrides resetTimer].
      rewrite await_sellTokens_overrides, presses_resetTimer; assumption. }
    set (r2 := milestone mint info t (Locals (endTime l) (marketcap info)) w1).
    assert (H2 : resetTimer (overrides (final r2)) = false /\
                 endTime (value r2) = endTime l /\
                 ~ In (Log MsgResetTimer) (decisions (trace r2))).
    { unfold r2. rewrite milestone_run.
      destruct (Qgt_bool _ _); cbv zeta; run_norm.
      - rewrite await_sellTokens_overrides, presses_resetTimer by assumption.
        repeat split; try assumption. decisions_norm.
        intros Hin. no_such_decision Hin.
      - repeat split; try assumption. intros []. }
    destruct H2 as (Hr2 & He2 & Hd2).
    rewrite check_resetTimer_run, Hr2. run_norm. split; [exact He2|].
    decisions_norm. rewrite (check_exit_decisions mint t (final r2)). intros Hin.
    destruct Hin as [Hin|[Hin|Hin]]; try discriminate Hin.
    apply in_app_or in Hin. destruct Hin as [Hin|Hin]; [exact (Hd2 Hin)|].
    destruct (continueTrade (overrides (final r2))); [no_such_decision Hin|].
    destruct (sellImmediately (overrides (final r2))); no_such_decision Hin.
  - split; [reflexivity|]. decisions_norm. intros Hin. no_such_decision Hin.
  - split; [reflexivity|]. decisions_norm. intros Hin. no_such_decision Hin.
  - set (r2 := milestone mint info t l (quoted t w)).
    assert (H2 : resetTimer (overrides (final r2)) = false /\
                 endTime (value r2) = endTime l /\
                 ~ In (Log MsgResetTimer) (decisions (trace r2))).
    { unfold r2. rewrite milestone_run.
      destruct (Qgt_bool _ _); cbv zeta; run_norm.
      - rewrite await_sellTokens_overrides, presses_resetTimer by assumption.
        repeat split; try assumption. decisions_norm.
        intros Hin. no_such_decision Hin.
      - repeat split; try assumption. intros []. }
    destruct H2 as (Hr2 & He2 & Hd2).
    rewrite check_resetTimer_run, Hr2. run_norm. split; [exact He2|].
    decisions_norm. rewrite (check_exit_decisions mint t (final r2)). intros Hin.
    apply in_app_or in Hin. destruct Hin as [Hin|Hin]; [exact (Hd2 Hin)|].
    destruct (continueTrade (overrides (final r2))); [no_such_decision Hin|].
    destruct (sellImmediately (overrides (final r2))); no_such_decision Hin.
Qed.

(** A tick that reaches the override checks: the deadline it leaves. *)
Lemma reset_at_checks cfg mint init t l w info :
  qe_info (tk_quote t) = Some info ->
  primary_branch cfg init info = Profit \/
  primary_branch cfg init info = NoBranch ->
  endTime (snd (value (iteration cfg mint init t l w))) =
    (if resetTimer (overrides (at_checks cfg mint init info t l w))
     then now (at_checks cfg mint init info t l w) + SELL_TIMEOUT
     else endTime l) /\
  (resetTimer (overrides (at_checks cfg mint init info t l w)) = true ->
   In (Log MsgResetTimer) (decisions (trace (iteration cfg mint init t l w)))).
Proof.
  intros Hq Hbr. unfold at_checks.
  rewrite iteration_value, iteration_trace, body_run, Hq, primary_run.
  destruct Hbr as [Hbr|Hbr]; rewrite Hbr; cbv zeta; run_norm.
  - set (w1 := {| now := _; overrides := Flags _ true _ |}).
    set (r2 := milestone mint info t (Locals (endTime l) (marketcap info)) w1).
    assert (He2 : endTime (value r2) = endTime l).
    { unfold r2. rewrite milestone_run. destruct (Qgt_bool _ _); reflexivity. }
    rewrite check_resetTimer_run.
    destruct (resetTimer (overrides (final r2))); run_norm.
    + split; [reflexivity|]. intros _. decisions_norm.
      right. right. apply in_or_app. right. left. reflexivity.
    + split; [exact He2 | discriminate].
  - set (r2 := milestone mint info t l (quoted t w)).
    assert (He2 : endTime (value r2) = endTime l).
    { unfold r2. rewrite milestone_run. destruct (Qgt_bool _ _); reflexivity. }
    rewrite check_resetTimer_run.
    destruct (resetTimer (overrides (final r2))); run_norm.
    + split; [reflexivity|]. intros _. decisions_norm.
      apply in_or_app. right. left. reflexivity.
    + split; [exact He2 | discriminate].
Qed.

(** C6.  When the override check finds [resetTimer] set, the deadline
    becomes the current time plus [SELL_TIMEOUT] (2 minutes) and the flag
    is cleared, the other two flags and [lastMarketCap] being left as
    they are; when it finds the flag clear, nothing changes.  This is what
    happens on every tick that reaches the check, at the time it reaches
    it.  A tick entered with the flag clear, and during which R is not
    pressed again, keeps the deadline it had. *)
Theorem C6_resetTimer_consumed_once :
  (forall l w,
     resetTimer (overrides w) = true ->
     let r := check_resetTimer l w in
     endTime (value r) = now w + 2 * 60 * 1000 /\
     lastMarketCap (value r) = lastMarketCap l /\
     now (final r) = now w /\
     overrides (final r) =
       Flags false (continueTrade (overrides w)) (sellImmediately (overrides w))) /\
  (forall l w,
     resetTimer (overrides w) = false -> check_resetTimer l w = (l, w, [])) /\
  (forall cfg mint init t l w info,
     qe_info (tk_quote t) = Some info ->
     primary_branch cfg init info = Profit \/
     primary_branch cfg init info = NoBranch ->
     let c := at_checks cfg mint init info t l w in
     let r := iteration cfg mint init t l w in
     (resetTimer (overrides c) = true ->
        endTime (snd (value r)) = now c + 2 * 60 * 1000 /\
        In (Log MsgResetTimer) (decisions (trace r))) /\
     (resetTimer (overrides c) = false -> endTime (snd (value r)) = endTime l)) /\
  (forall cfg mint init t l w,
     resetTimer (overrides w) = false ->
     ~ In KeyR (pressed_before_checks t) ->
     let r := iteration cfg mint init t l w in
     endTime (snd (value r)) = endTime l /\
     ~ In (Log MsgResetTimer) (decisions (trace r))).
Proof.
  split; [|split; [|split]].
  - intros l w Hset r. unfold r. rewrite check_resetTimer_run, Hset.
    repeat split.
  - intros l w Hclear. rewrite check_resetTimer_run, Hclear. reflexivity.
  - intros cfg mint init t l w info Hq Hbr c r.
    destruct (reset_at_checks cfg mint init t l w info Hq Hbr) as [Hend Hlog].
    fold c in Hend, Hlog. fold r in Hend, Hlog. split.
    + intros Hset. rewrite Hset in Hend. split; [exact Hend | exact (Hlog Hset)].
    + intros Hclear. rewrite Hclear in Hend. exact Hend.
  - intros cfg mint init t l w Hclear Hkeys r.
    apply no_reset_tick; assumption.
Qed.

(** The theorem on [tick_reset]: R is pressed while the quote of the
    first tick is awaited, 300 ms after the entry at time 0, and the
    deadline moves from 120000 to 120300; the next tick, on which no key
    is pressed, leaves it there. *)
Lemma C6_resetTimer_consumed_once_witness :
  endTime (snd (value (iteration default_config mintA 100 tick_reset
                         (Locals 120000 100) world0))) = 120300 /\
  endTime (snd (value (iteration default_config mintA 100
                         (tick_with (Some (quote 101 5)) 0 prompt_sell)
                         (Locals 120300 100)
                         (final (iteration default_config mintA 100 tick_reset
                                   (Locals 120000 100) world0))))) = 120300.
Proof.
  destruct C6_resetTimer_consumed_once as (_ & _ & Hset & Hkeep).
  split.
  - destruct (Hset default_config mintA 100%Q tick_reset (Locals 120000 100)
                world0 (quote 101 5) eq_refl (or_intror eq_refl)) as [Hfound _].
    destruct (Hfound eq_refl) as [Hend _]. exact Hend.
  - apply (Hkeep default_config mintA 100%Q
             (tick_with (Some (quote 101 5)) 0 prompt_sell) (Locals 120300 100)).
    + reflexivity.
    + intros Hin. no_such_decision Hin.
Defined.

(** ** The timeout exit *)

Lemma tick_ms_lower (t : tick) : MONITOR_INTERVAL <= tick_ms t.
Proof. unfold tick_ms. lia. Qed.

Lemma quiet_tick_cases cfg init t :
  quiet_tick cfg init t = true ->
  pressed (qe_lapse (tk_quote t)) = [] /\
  pressed (tk_sleep t) = [] /\
  match qe_info (tk_quote t) with
  | None => True
  | Some info =>
      primary_branch cfg init info = NoBranch /\
      Qgt_bool (marketcap info) (init * PROFIT_TARGET_2) = false
  end.
Proof.
  unfold quiet_tick.
  destruct (pressed (qe_lapse (tk_quote t))); [|discriminate].
  destruct (pressed (tk_sleep t)); [|discriminate].
  destruct (qe_info (tk_quote t)) as [info|]; [|auto].
  destruct (primary_branch cfg init info); try discriminate.
  intros H. apply negb_true_iff in H. auto.
Qed.

(** A quiet iteration only lets time pass. *)
Lemma quiet_iteration cfg mint init t l w :
  quiet_tick cfg init t = true ->
  overrides w = no_flags ->
  lastMarketCap l = init ->
  value (iteration cfg mint init t l w) = (Next, l) /\
  final (iteration cfg mint init t l w) =
    {| now := now w + tick_ms t; overrides := no_flags |} /\
  decisions (trace (iteration cfg mint init t l w)) = [].
Proof.
  intros Hquiet Hflags Hlast.
  destruct (quiet_tick_cases cfg init t Hquiet) as (Hk1 & Hk2 & Hinfo).
  assert (Hw : quoted t w =
               {| now := now w + 0 + Z.of_N (elapsed (qe_lapse (tk_quote t)));
                  overrides := no_flags |}).
  { unfold quoted. rewrite Hk1, Hflags. reflexivity. }
  unfold no_flags in *.
  rewrite iteration_run, body_run. cbv zeta.
  destruct (qe_info (tk_quote t)) as [info|].
  - destruct Hinfo as [Hbr Hm]. rewrite primary_run, Hbr. run_norm.
    rewrite milestone_run, Hlast, Hm. run_norm.
    rewrite check_resetTimer_run, Hw. run_norm.
    rewrite check_exit_run. run_norm. rewrite Hk2.
    repeat split. unfold tick_ms. cbn [presses fold_left]. f_equal. lia.
  - run_norm. rewrite Hw, Hk2. run_norm.
    repeat split. unfold tick_ms. cbn [presses fold_left]. f_equal. lia.
Qed.

(** The loop over quiet iterations: it is left at the first test of the
    guard at or after the deadline, having sold nothing. *)
Lemma quiet_loop cfg mint init ticks l :
  (forall i, quiet_tick cfg init (ticks i) = true) ->
  lastMarketCap l = init ->
  forall fuel i w,
    overrides w = no_flags ->
    endTime l - now w <= MONITOR_INTERVAL * Z.of_nat fuel ->
    exists n,
      monitor_loop cfg mint init ticks (S fuel) i l w =
        (Some ((i + n)%nat, l),
         {| now := now w + (elapsed_ticks ticks (i + n) - elapsed_ticks ticks i);
            overrides := no_flags |},
         trace (monitor_loop cfg mint init ticks (S fuel) i l w)) /\
      decisions (trace (monitor_loop cfg mint init ticks (S fuel) i l w)) = [] /\
      endTime l <= now w + (elapsed_ticks ticks (i + n) - elapsed_ticks ticks i) /\
      (n = O \/
       exists k, n = S k /\
         now w + (elapsed_ticks ticks (i + k) - elapsed_ticks ticks i) < endTime l).
Proof.
  intros Hquiet Hlast.
  induction fuel as [|fuel IH]; intros i w Hflags Hfuel.
  - exists O. rewrite monitor_loop_done by lia.
    rewrite Nat.add_0_r, Z.sub_diag, Z.add_0_r.
    destruct w as [t f]. cbn [overrides now] in *. subst f.
    repeat split; auto. cbn [now] in Hfuel. lia.
  - destruct (Z_lt_le_dec (now w) (endTime l)) as [Hlt|Hge].
    + destruct (quiet_iteration cfg mint init (ticks i) l w (Hquiet i) Hflags Hlast)
        as (Hv & Hf & Hd).
      pose proof (tick_ms_lower (ticks i)) as Hms.
      destruct (IH (S i) (final (iteration cfg mint init (ticks i) l w)))
        as (n & Hrun & Hdec & Hend & Hlast_tick).
      { rewrite Hf. reflexivity. }
      { rewrite Hf. cbn [now]. lia. }
      exists (S n).
      rewrite (monitor_loop_step _ _ _ _ _ _ _ _ Hlt). cbv zeta.
      rewrite Hv. cbn [fst snd]. rewrite Hrun. run_norm.
      rewrite Hf in *. cbn [now] in *.
      replace (i + S n)%nat with (S i + n)%nat by lia.
      assert (Hsum : elapsed_ticks ticks (S i) = elapsed_ticks ticks i + tick_ms (ticks i))
        by reflexivity.
      repeat split.
      * f_equal. f_equal. f_equal. lia.
      * rewrite decisions_app, Hd, Hdec. reflexivity.
      * lia.
      * right. destruct Hlast_tick as [->|(k & -> & Hk)].
        -- exists O. split; [reflexivity|]. rewrite Nat.add_0_r. lia.
        -- exists (S k). split; [reflexivity|].
           replace (i + S k)%nat with (S i + k)%nat by lia. lia.
    + exists O. rewrite monitor_loop_done by lia.
      rewrite Nat.add_0_r, Z.sub_diag, Z.add_0_r.
      destruct w as [t f]. cbn [overrides now] in *. subst f.
      repeat split; auto.
Qed.

Lemma elapsed_ticks_lower ticks n :
  MONITOR_INTERVAL * Z.of_nat n <= elapsed_ticks ticks n.
Proof.
  induction n as [|n IH]; [reflexivity|].
  cbn [elapsed_ticks]. pose proof (tick_ms_lower (ticks n)). lia.
Qed.

Lemma elapsed_ticks_exact ticks n :
  (forall i, tick_ms (ticks i) = MONITOR_INTERVAL) ->
  elapsed_ticks ticks n = MONITOR_INTERVAL * Z.of_nat n.
Proof.
  intros Hexact. induction n as [|n IH]; [reflexivity|].
  cbn [elapsed_ticks]. rewrite IH, Hexact. lia.
Qed.

Lemma monitorTrade_run cfg env fuel mint init bc w :
  monitorTrade cfg env fuel mint init bc w =
    let r := monitor_loop cfg mint init (me_ticks env) fuel 0
               (Locals (now w + SELL_TIMEOUT) init) w in
    match value r with
    | None => (None, final r, trace r)
    | Some (n, l) =>
        if endTime l <=? now (final r) then
          let s := await_sellTokens (me_sell_timeout env) mint (3 # 4) (final r) in
          (Some n, final s, trace r ++ Log (MsgTimeout mint) :: trace s)
        else (Some n, final r, trace r)
    end.
Proof.
  unfold monitorTrade. rewrite bind_eq. cbv zeta.
  change (dateNow w) with (now w, w, @nil event). run_norm.
  rewrite bind_eq. cbv zeta.
  destruct (monitor_loop cfg mint init (me_ticks env) fuel 0
              (Locals (now w + SELL_TIMEOUT) init) w) as [[[[n l]|] w1] evs1];
    run_norm.
  - rewrite bind_eq. cbv zeta.
    change (dateNow w1) with (now w1, w1, @nil event). run_norm.
    destruct (endTime l <=? now w1).
    + unfold emit, ret. repeat (rewrite bind_eq; cbv zeta; run_norm).
      cbn [app]. rewrite ?app_nil_r. reflexivity.
    + unfold ret. run_norm. cbn [app]. rewrite ?app_nil_r. reflexivity.
  - unfold ret. run_norm. cbn [app]. rewrite ?app_nil_r. reflexivity.
Qed.

(** C5 (as amended).  In a run in which no threshold branch fires, the
    quote never exceeds the milestone and no key is pressed, the monitor
    ends with exactly one sale, [sellTokens(mint, 0.75)], which it starts
    at the first test of the loop guard at or after the deadline [entry
    time + 2 minutes]: after at most 24 iterations, and later than the
    deadline by less than the length of the last iteration (the wait for
    its quote, the 5 s sleep and the lag of its timer).  When every
    iteration lasts exactly 5 s the sale starts exactly at the
    deadline. *)
Theorem C5_timeout_exit (cfg : config) (env : monitor_env) (mint : string)
    (init bc : Q) (w : World) (fuel : nat) :
  (forall i, quiet_tick cfg init (me_ticks env i) = true) ->
  overrides w = no_flags ->
  (25 <= fuel)%nat ->
  let deadline := now w + SELL_TIMEOUT in
  exists n,
    let T := now w + elapsed_ticks (me_ticks env) (S n) in
    let r := monitorTrade cfg env fuel mint init bc w in
    value r = Some (S n) /\
    (S n <= 24)%nat /\
    decisions (trace r) = [Log (MsgTimeout mint); SellTokens mint (3 # 4)] /\
    final r = final (await_sellTokens (me_sell_timeout env) mint (3 # 4)
                       {| now := T; overrides := no_flags |}) /\
    deadline <= T < deadline + tick_ms (me_ticks env n) /\
    ((forall i, tick_ms (me_ticks env i) = MONITOR_INTERVAL) -> T = deadline).
Proof.
  intros Hquiet Hflags Hfuel deadline.
  destruct fuel as [|fuel]; [lia|].
  destruct (quiet_loop cfg mint init (me_ticks env)
              (Locals (now w + SELL_TIMEOUT) init) Hquiet eq_refl fuel O w Hflags)
    as (n & Hrun & Hdec & Hend & Hlast).
  { cbn [endTime]. unfold SELL_TIMEOUT, MONITOR_INTERVAL. lia. }
  cbn [endTime Nat.add elapsed_ticks] in *.
  destruct Hlast as [->|(k & -> & Hk)].
  { exfalso. cbn [elapsed_ticks] in Hend. unfold SELL_TIMEOUT in Hend. lia. }
  exists k. cbv zeta. rewrite monitorTrade_run. cbv zeta.
  rewrite Hrun. run_norm. cbn [elapsed_ticks] in *.
  replace (elapsed_ticks (me_ticks env) k + tick_ms (me_ticks env k) - 0)
    with (elapsed_ticks (me_ticks env) k + tick_ms (me_ticks env k)) in * by lia.
  assert (Hle : (now w + SELL_TIMEOUT <=?
                 now w + (elapsed_ticks (me_ticks env) k + tick_ms (me_ticks env k)))
                = true) by (apply Z.leb_le; exact Hend).
  rewrite Hle. run_norm.
  pose proof (elapsed_ticks_lower (me_ticks env) k) as Hlow.
  split; [reflexivity|]. split.
  { unfold SELL_TIMEOUT, MONITOR_INTERVAL in *. lia. }
  split.
  { rewrite decisions_app, Hdec. decisions_norm. reflexivity. }
  split; [reflexivity|]. split.
  { unfold deadline. lia. }
  intros Hexact. unfold deadline.
  rewrite (elapsed_ticks_exact _ k Hexact), (Hexact k) in *.
  unfold SELL_TIMEOUT, MONITOR_INTERVAL in *. lia.
Qed.

(** The theorem on [env_fast_feed], where every iteration lasts 5 s: the
    sale starts at 120000 ms, the deadline. *)
Lemma C5_timeout_exit_witness :
  exists n,
    value (monitorTrade default_config env_fast_feed 25 mintA 100 5 world0)
      = Some (S n) /\
    now world0 + elapsed_ticks (me_ticks env_fast_feed) (S n) = 120000.
Proof.
  destruct (C5_timeout_exit default_config env_fast_feed mintA 100 5 world0 25)
    as (n & Hvalue & _ & _ & _ & _ & Hexact).
  - intros i. reflexivity.
  - reflexivity.
  - lia.
  - exists n. split; [exact Hvalue|]. apply Hexact. intros i. reflexivity.
Defined.

(** C5 as stated fails.  In [env_slow_feed] nothing fires and every quote
    takes 8 s to arrive, so that an iteration lasts 13 s: the guard is
    tested at 117000 ms and next at 130000 ms, and the sale of 75 % starts
    10 s after the deadline of 120000 ms, which is more than one poll
    interval of 5 s. *)
Lemma C5_timeout_later_than_poll_interval :
  (forall i, quiet_tick default_config 100 (me_ticks env_slow_feed i) = true) /\
  monitor_loop default_config mintA 100 (me_ticks env_slow_feed) 30 0
    (Locals (now world0 + SELL_TIMEOUT) 100) world0 =
    (Some (10%nat, Locals 120000 100),
     {| now := 130000; overrides := no_flags |},
     trace (monitor_loop default_config mintA 100 (me_ticks env_slow_feed) 30 0
              (Locals (now world0 + SELL_TIMEOUT) 100) world0)) /\
  decisions (trace (monitorTrade default_config env_slow_feed 30 mintA 100 5 world0))
    = [Log (MsgTimeout mintA); SellTokens mintA (3 # 4)] /\
  now world0 + SELL_TIMEOUT + MONITOR_INTERVAL < 130000.
Proof.
  split; [intros i; reflexivity|].
  split; [vm_compute; reflexivity|].
  split; [vm_compute; reflexivity|].
  reflexivity.
Qed.

(** ** The cooldown of the scanner *)

Lemma fire_armed (t d : Z) :
  fire t (Scanner true [d]) =
    if d <=? t then scanner_init else Scanner true [d].
Proof.
  unfold fire. cbn [timers existsb filter orb].
  destruct (d <=? t) eqn:E; cbn [orb].
  - apply Z.leb_le in E. assert (Hlt : (t <? d) = false) by (apply Z.ltb_ge; lia).
    rewrite Hlt. reflexivity.
  - reflexivity.
Qed.

Lemma fire_idle (t : Z) : fire t scanner_init = scanner_init.
Proof. reflexivity. Qed.

Lemma scanner_wf_cases (s : scanner) :
  scanner_wf s -> s = scanner_init \/ exists d, s = Scanner true [d].
Proof.
  destruct s as [[|] ts]; unfold scanner_wf; cbn [cooldownActive timers].
  - intros [d ->]. right. exists d. reflexivity.
  - intros ->. left. reflexivity.
Qed.

(** Accepted candidates of an ordered feed keep their distance, from
    either kind of state. *)
Lemma scan_spaced (feed : list (Z * feed_message)) : forall t0 d,
  ordered t0 feed ->
  spaced_from d (snd (scan feed (Scanner true [d]))) /\
  (d <= t0 -> spaced_from d (snd (scan feed scanner_init))).
Proof.
  induction feed as [|[t m] feed IH]; intros t0 d Hord.
  - split; intros; exact I.
  - destruct Hord as [Ht0 Hord]. cbn [scan]. split.
    + rewrite fire_armed. destruct (d <=? t) eqn:E.
      * apply Z.leb_le in E. destruct m as [mint|]; cbn [on_message scanner_init cooldownActive timers app].
        -- destruct (IH t (t + COOLDOWN) Hord) as [Harmed _].
           destruct (scan feed (Scanner true [t + COOLDOWN])) as [s2 cs].
           cbn [snd spaced_from] in *. split; assumption.
        -- destruct (IH t d Hord) as [_ Hidle].
           fold scanner_init.
           destruct (scan feed scanner_init) as [s2 cs].
           cbn [snd] in *. apply Hidle. exact E.
      * assert (Hig : on_message t m (Scanner true [d]) = (Scanner true [d], None))
          by reflexivity.
        rewrite Hig. destruct (IH t d Hord) as [Harmed _].
        destruct (scan feed (Scanner true [d])) as [s2 cs].
        cbn [snd] in *. exact Harmed.
    + intros Hd. rewrite fire_idle.
      destruct m as [mint|]; cbn [on_message scanner_init cooldownActive timers app].
      * destruct (IH t (t + COOLDOWN) Hord) as [Harmed _].
        destruct (scan feed (Scanner true [t + COOLDOWN])) as [s2 cs].
        cbn [snd spaced_from] in *. split; [lia | assumption].
      * destruct (IH t d Hord) as [_ Hidle].
        fold scanner_init.
        destruct (scan feed scanner_init) as [s2 cs].
        cbn [snd] in *. apply Hidle. lia.
Qed.

Lemma on_message_wf t m s : scanner_wf s -> scanner_wf (fst (on_message t m s)).
Proof.
  intros Hwf. destruct (scanner_wf_cases s Hwf) as [->|[d ->]].
  - destruct m as [mint|]; cbn; [eexists; reflexivity | reflexivity].
  - exact Hwf.
Qed.

Lemma fire_wf t s : scanner_wf s -> scanner_wf (fire t s).
Proof.
  intros Hwf. destruct (scanner_wf_cases s Hwf) as [->|[d ->]].
  - exact Hwf.
  - rewrite fire_armed. destruct (d <=? t); [reflexivity | exact Hwf].
Qed.

Lemma scan_wf (feed : list (Z * feed_message)) : forall s,
  scanner_wf s -> scanner_wf (fst (scan feed s)).
Proof.
  induction feed as [|[t m] feed IH]; intros s Hwf; [exact Hwf|].
  cbn [scan].
  pose proof (on_message_wf t m (fire t s) (fire_wf t s Hwf)) as Hwf1.
  destruct (on_message t m (fire t s)) as [s1 c]. cbn [fst] in Hwf1.
  specialize (IH s1 Hwf1). destruct (scan feed s1) as [s2 cs]. exact IH.
Qed.

(** C8.  A message that arrives while [cooldownActive] is set changes
    nothing and starts no evaluation.  A new listing that arrives while it
    is clear sets it and schedules one callback 15000 ms later, before the
    evaluation has started and whatever the evaluation will find: until
    then the flag stays set, from then on it is clear and no callback is
    pending.  Hence the state of the scanner is always one of these two,
    and the candidates it evaluates out of any feed are at least 15 s
    apart. *)
Theorem C8_cooldown_window :
  (forall t m s,
     cooldownActive s = true -> on_message t m s = (s, None)) /\
  (forall t mint s,
     scanner_wf s -> cooldownActive s = false ->
     on_message t (NewPair mint) s = (Scanner true [t + 15000], Some mint) /\
     (forall u, u < t + 15000 ->
        fire u (Scanner true [t + 15000]) = Scanner true [t + 15000]) /\
     (forall u, t + 15000 <= u ->
        fire u (Scanner true [t + 15000]) = scanner_init)) /\
  (forall cfg env env' fuel t m s,
     fst (handler cfg env fuel t m s) = fst (handler cfg env' fuel t m s)) /\
  (forall feed t0,
     ordered t0 feed ->
     scanner_wf (fst (scan feed scanner_init)) /\
     spaced_from t0 (snd (scan feed scanner_init))).
Proof.
  split; [|split; [|split]].
  - intros t m s Hactive. unfold on_message. rewrite Hactive. reflexivity.
  - intros t mint s Hwf Hclear.
    destruct (scanner_wf_cases s Hwf) as [->|[d ->]]; [|discriminate Hclear].
    split; [reflexivity|]. split.
    + intros u Hu. rewrite fire_armed.
      assert (E : (t + 15000 <=? u) = false) by (apply Z.leb_gt; exact Hu).
      rewrite E. reflexivity.
    + intros u Hu. rewrite fire_armed.
      assert (E : (t + 15000 <=? u) = true) by (apply Z.leb_le; exact Hu).
      rewrite E. reflexivity.
  - intros cfg env env' fuel t m s. unfold handler.
    destruct (on_message t m s) as [s' c]. reflexivity.
  - intros feed t0 Hord. split.
    + apply scan_wf. reflexivity.
    + apply (scan_spaced feed t0 t0 Hord). lia.
Qed.

(** The theorem on [feed_burst]: of five new listings the first, the one
    at 15 s and the one at 31 s are evaluated. *)
Lemma C8_cooldown_window_witness :
  snd (scan feed_burst scanner_init) =
    [(0, mintA); (15000, mintB); (31000, mintA)] /\
  spaced_from 0 (snd (scan feed_burst scanner_init)) /\
  on_message 4000 (NewPair mintB) (Scanner true [15000]) =
    (Scanner true [15000], None) /\
  fire 15000 (Scanner true [0 + 15000]) = scanner_init /\
  fst (handler default_config env_no_quote 10 0 (NewPair mintA) scanner_init) =
    fst (handler default_config env_bought 10 0 (NewPair mintA) scanner_init).
Proof.
  destruct C8_cooldown_window as (Hignore & Harm & Hsame & Hfeed).
  split; [reflexivity|]. split; [|split; [|split]].
  - apply (Hfeed feed_burst 0). cbn. lia.
  - apply Hignore. reflexivity.
  - apply (Harm 0 mintA scanner_init); [reflexivity | reflexivity | lia].
  - apply Hsame.
Defined.

(** ** The milestone check *)

Lemma percent_of_positive (a b : Q) :
  (0 < b)%Q -> percent_of a b = Fin ((a / b) * 100)%Q.
Proof.
  intros Hb. unfold percent_of.
  destruct (Qeq_bool b 0) eqn:E; [|reflexivity].
  apply Qeq_bool_iff in E. rewrite E in Hb. exfalso. apply (Qlt_irrefl 0 Hb).
Qed.

Lemma change_times_entry (m i : Q) :
  (0 < i)%Q -> ((m - i) / i * i == m - i)%Q.
Proof.
  intros Hi. field. intros E. rewrite E in Hi.
  apply (Qlt_irrefl 0 Hi).
Qed.

(** Below +25 % of a positive entry the quote is not above 1.25 times
    the entry. *)
Lemma no_profit_excludes_milestone (m i : Q) :
  (0 < i)%Q ->
  num_ge (percent_of (m - i) i) 25 = false ->
  Qgt_bool m (i * PROFIT_TARGET_2) = false.
Proof.
  intros Hi Hge. rewrite (percent_of_positive _ _ Hi) in Hge.
  cbn [num_ge] in Hge.
  pose proof (change_times_entry m i Hi) as Hx.
  set (x := ((m - i) / i)%Q) in *.
  assert (Hq : (x < 1 # 4)%Q).
  { apply Qnot_le_lt. intros Hle.
    assert (Hb : Qle_bool 25 (x * 100) = true) by (apply Qle_bool_iff; lra).
    congruence. }
  assert (Hxi : (x * i < (1 # 4) * i)%Q)
    by (apply Qmult_lt_compat_r; assumption).
  unfold Qgt_bool, PROFIT_TARGET_2. apply negb_false_iff. apply Qle_bool_iff. lra.
Qed.

Lemma checked_tick_lastMarketCap cfg mint init t l w info :
  qe_info (tk_quote t) = Some info ->
  primary_branch cfg init info = NoBranch ->
  Qgt_bool (marketcap info) (lastMarketCap l * PROFIT_TARGET_2) = false ->
  lastMarketCap (snd (value (iteration cfg mint init t l w))) = lastMarketCap l.
Proof.
  intros Hq Hbr Hm.
  rewrite iteration_value, body_run, Hq, primary_run, Hbr. cbv zeta. run_norm.
  rewrite check_resetTimer_lastMarketCap, milestone_run, Hm. reflexivity.
Qed.

(** A quote that is not at +25 % of a non-negative entry is not above
    1.25 times the entry either: by the arithmetic when the entry is
    positive, and because the change from an entry of zero is [NaN] for
    a quote of zero only. *)
Lemma nonneg_excludes_milestone (m i : Q) :
  (0 <= i)%Q -> (0 <= m)%Q ->
  num_ge (percent_of (m - i) i) 25 = false ->
  Qgt_bool m (i * PROFIT_TARGET_2) = false.
Proof.
  intros Hi Hm Hge.
  destruct (Qlt_le_dec 0 i) as [Hpos|Hle].
  - exact (no_profit_excludes_milestone m i Hpos Hge).
  - assert (Hz : (i == 0)%Q) by lra.
    assert (E : Qeq_bool i 0 = true) by (apply Qeq_bool_iff; exact Hz).
    unfold percent_of in Hge. rewrite E in Hge.
    destruct (Qeq_bool (m - i) 0) eqn:Em.
    + apply Qeq_bool_iff in Em.
      unfold Qgt_bool, PROFIT_TARGET_2. apply negb_false_iff, Qle_bool_iff. lra.
    + assert (Hle0 : Qle_bool 0 (m - i) = true) by (apply Qle_bool_iff; lra).
      rewrite Hle0 in Hge. discriminate Hge.
Qed.

Lemma spec_body_run cfg mint init t l w :
  spec_body cfg mint init t l w =
    match qe_info (tk_quote t) with
    | None => ((Next, l), quoted t w, [Subscribe mint])
    | Some info =>
        let line := Log (MsgQuote info (marketCapChange info init)
                           (endTime l - now (quoted t w))) in
        let r1 := primary cfg mint init info t l (quoted t w) in
        let r2 := milestone mint info t (snd (value r1)) (final r1) in
        match fst (value r1) with
        | Break =>
            ((Break, value r2), final r2,
             Subscribe mint :: line :: trace r1 ++ trace r2)
        | Next =>
            let r3 := check_resetTimer (value r2) (final r2) in
            let r4 := check_exit mint t (final r3) in
            ((value r4, value r3), final r4,
             Subscribe mint :: line ::
               trace r1 ++ trace r2 ++ trace r3 ++ trace r4)
        end
    end.
Proof.
  unfold spec_body, bind at 1. rewrite getTokenInfoFromWebSocket_run.
  unfold value at 1, final at 1, trace at 1. cbn [fst snd]. fold (quoted t w).
  destruct (qe_info (tk_quote t)) as [info|]; [|reflexivity].
  unfold bind, dateNow, emit, ret, value, final, trace. cbn [fst snd app].
  destruct (primary cfg mint init info t l (quoted t w)) as [[[c l1] w1] evs1].
  cbn [fst snd]. destruct c; cbn [fst snd]; rewrite ?app_nil_r; reflexivity.
Qed.

(** One tick of a position entered at a non-negative market cap, while
    [lastMarketCap] is still the entry: the check of the specification
    after the arms (b) and (c) finds nothing to sell, and a tick after
    which the loop goes on leaves [lastMarketCap] at the entry. *)
Lemma nonneg_tick cfg mint init t l w :
  (0 <= init)%Q -> lastMarketCap l = init ->
  (forall info, qe_info (tk_quote t) = Some info -> (0 <= marketcap info)%Q) ->
  spec_iteration cfg mint init t l w = iteration cfg mint init t l w /\
  (fst (value (iteration cfg mint init t l w)) = Next ->
   lastMarketCap (snd (value (iteration cfg mint init t l w))) = init).
Proof.
  intros Hinit Hlast Hquote.
  assert (Hskip : forall info, qe_info (tk_quote t) = Some info ->
            num_ge (marketCapChange info init) 25 = false ->
            Qgt_bool (marketcap info) (lastMarketCap l * PROFIT_TARGET_2) = false).
  { intros info Hq Hge. rewrite Hlast.
    exact (nonneg_excludes_milestone _ _ Hinit (Hquote info Hq) Hge). }
  assert (Hbody : spec_body cfg mint init t l w = body cfg mint init t l w).
  { rewrite spec_body_run, body_run.
    destruct (qe_info (tk_quote t)) as [info|] eqn:Hq; [|reflexivity].
    pose proof (primary_branch_cases cfg init info) as Hcases.
    cbv zeta. rewrite primary_run.
    destruct (primary_branch cfg init info); cbv zeta; run_norm;
      try reflexivity.
    - destruct Hcases as [Hge _].
      rewrite milestone_run, (Hskip info eq_refl Hge). run_norm.
      rewrite app_nil_r. reflexivity.
    - destruct Hcases as [Hge _].
      rewrite milestone_run, (Hskip info eq_refl Hge). run_norm.
      rewrite app_nil_r. reflexivity. }
  split.
  - unfold spec_iteration, iteration, bind. rewrite Hbody. reflexivity.
  - destruct (qe_info (tk_quote t)) as [info|] eqn:Hq.
    + pose proof (primary_branch_cases cfg init info) as Hcases.
      destruct (primary_branch cfg init info) eqn:Hbr.
      * destruct (profit_tick cfg mint init t l w info Hq Hcases) as [Hb _].
        rewrite Hb. discriminate.
      * rewrite iteration_value, body_run, Hq, primary_run, Hbr. cbv zeta.
        run_norm. discriminate.
      * rewrite iteration_value, body_run, Hq, primary_run, Hbr. cbv zeta.
        run_norm. discriminate.
      * intros _. destruct Hcases as [Hge _].
        rewrite (checked_tick_lastMarketCap cfg mint init t l w info Hq Hbr
                   (Hskip info eq_refl Hge)).
        exact Hlast.
    + intros _. rewrite iteration_value, body_run, Hq. exact Hlast.
Qed.

Lemma spec_monitor_loop_step cfg mint init ticks fuel i l w :
  now w < endTime l ->
  spec_monitor_loop cfg mint init ticks (S fuel) i l w =
    let r := spec_iteration cfg mint init (ticks i) l w in
    match fst (value r) with
    | Break => (Some (S i, snd (value r)), final r, trace r)
    | Next =>
        let r' := spec_monitor_loop cfg mint init ticks fuel (S i)
                    (snd (value r)) (final r) in
        (value r', final r', trace r ++ trace r')
    end.
Proof.
  intros Hlt. cbn [spec_monitor_loop]. unfold bind at 1.
  change (dateNow w) with (now w, w, @nil event).
  cbn [value final trace fst snd app].
  apply Z.ltb_lt in Hlt. rewrite Hlt.
  unfold bind.
  destruct (spec_iteration cfg mint init (ticks i) l w) as [[[c l1] w1] evs1].
  cbn [value final trace fst snd]. destruct c; cbn [value final trace fst snd app].
  - reflexivity.
  - unfold ret. cbn [fst snd]. rewrite app_nil_r. reflexivity.
Qed.

Lemma spec_monitor_loop_done cfg mint init ticks fuel i l w :
  endTime l <= now w ->
  spec_monitor_loop cfg mint init ticks (S fuel) i l w = (Some (i, l), w, []).
Proof.
  intros Hge. cbn [spec_monitor_loop]. unfold bind.
  change (dateNow w) with (now w, w, @nil event).
  cbn [value final trace fst snd app].
  apply Z.ltb_ge in Hge. rewrite Hge. reflexivity.
Qed.

Lemma nonneg_loop cfg mint init ticks :
  (0 <= init)%Q -> quotes_nonneg ticks ->
  forall fuel i l w,
    lastMarketCap l = init ->
    spec_monitor_loop cfg mint init ticks fuel i l w =
      monitor_loop cfg mint init ticks fuel i l w.
Proof.
  intros Hinit Hquotes. induction fuel as [|fuel IH]; intros i l w Hlast;
    [reflexivity|].
  destruct (Z_lt_le_dec (now w) (endTime l)) as [Hlt|Hge].
  - rewrite (spec_monitor_loop_step _ _ _ _ _ _ _ _ Hlt),
            (monitor_loop_step _ _ _ _ _ _ _ _ Hlt).
    destruct (nonneg_tick cfg mint init (ticks i) l w Hinit Hlast (Hquotes i))
      as [Htick Hnext].
    rewrite Htick. cbv zeta.
    destruct (fst (value (iteration cfg mint init (ticks i) l w))) eqn:Hctl;
      [|reflexivity].
    rewrite (IH (S i) _ _ (Hnext eq_refl)). reflexivity.
  - rewrite spec_monitor_loop_done, monitor_loop_done by exact Hge. reflexivity.
Qed.



(** * Further properties *)

(** ** The request client and its two callers *)

Lemma on_error_lower (e : attempt) (d : Z) :
  1000 <= d -> 1000 <= fst (on_error e d).
Proof.
  intros Hd. destruct e as [x|status [h|]|]; unfold on_error; cbn [fst];
    try exact Hd.
  - destruct (status =? 429); cbn [fst]; [|exact Hd].
    unfold retryAfter. destruct (1000 * Z.of_N h =? 0) eqn:E; [exact Hd|].
    apply Z.eqb_neq in E. lia.
  - destruct (status =? 429); exact Hd.
Qed.

Lemma on_error_plain (e : attempt) (d : Z) :
  (forall header, e <> Rejected 429 header) -> fst (on_error e d) = d.
Proof.
  intros Hplain. destruct e as [x|status header|]; try reflexivity.
  unfold on_error. destruct (status =? 429) eqn:E; [|reflexivity].
  apply Z.eqb_eq in E. subst status. exfalso. apply (Hplain header). reflexivity.
Qed.

Section RequestLoopFurther.

Variable net : nat -> attempt.
Variable data : trade.

Lemma api_loop_waits_lower rem : forall k d w,
  1000 <= d ->
  In w (waits (snd (api_loop net data k rem d))) -> 1000 <= w.
Proof.
  induction rem as [|rem IH]; intros k d w Hd Hin; [destruct Hin|].
  destruct (responded_dec (net k)) as [[x E]|Hfail].
  - rewrite (api_loop_success net data _ _ _ _ E) in Hin. destruct Hin.
  - destruct (on_error_quiet (net k) d) as [Hw _].
    pose proof (on_error_lower (net k) d Hd) as Hd1.
    destruct rem as [|rem].
    + rewrite (api_loop_last net data _ _ Hfail) in Hin. cbn [snd] in Hin.
      change (Post data :: ?l) with ([Post data] ++ l) in Hin.
      rewrite waits_app, Hw in Hin. destruct Hin.
    + rewrite (api_loop_retry net data _ _ _ Hfail) in Hin. cbn [snd] in Hin.
      change (Post data :: ?l ++ Wait ?x :: ?m)
        with ([Post data] ++ l ++ [Wait x] ++ m) in Hin.
      rewrite !waits_app, Hw in Hin. cbn [app waits] in Hin.
      destruct Hin as [<-|Hin]; [exact Hd1|].
      apply (IH (S k) (fst (on_error (net k) d) * 2)); [lia | exact Hin].
Qed.

Lemma api_loop_waits_plain rem : forall k d,
  no_rate_limit net ->
  waits (snd (api_loop net data k rem d)) =
    doubling d (pred (posts (snd (api_loop net data k rem d)))).
Proof.
  induction rem as [|rem IH]; intros k d Hplain; [reflexivity|].
  destruct (responded_dec (net k)) as [[x E]|Hfail].
  - rewrite (api_loop_success net data _ _ _ _ E). reflexivity.
  - destruct (on_error_quiet (net k) d) as [Hw Hp].
    pose proof (on_error_plain (net k) d (Hplain k)) as Hd1.
    destruct rem as [|rem].
    + rewrite (api_loop_last net data _ _ Hfail). cbn [snd].
      change (Post data :: ?l) with ([Post data] ++ l).
      rewrite waits_app, posts_app, Hw, Hp. reflexivity.
    + rewrite (api_loop_retry net data _ _ _ Hfail). cbn [snd].
      change (Post data :: ?l ++ Wait ?x :: ?m)
        with ([Post data] ++ l ++ [Wait x] ++ m).
      rewrite !waits_app, !posts_app, Hw, Hp, Hd1.
      change (posts [Post data]) with 1%nat.
      change (posts [Wait d]) with 0%nat.
      cbn [app waits Nat.add pred].
      rewrite (IH (S k) (d * 2) Hplain).
      destruct (api_loop_posts net data (S rem) (S k) (d * 2)) as (Hone & _ & _).
      specialize (Hone ltac:(lia)).
      destruct (posts (snd (api_loop net data (S k) (S rem) (d * 2)))) as [|p];
        [lia|].
      cbn [pred doubling]. rewrite Z.mul_comm. reflexivity.
Qed.

(** The result of the loop is decided by the first answer. *)
Lemma api_loop_answered rem : forall k d,
  fst (api_loop net data k rem d) =
    match answered net k rem with
    | Some x => Returned x
    | None =>
        match rem with
        | O => NoValue
        | S rem' => Thrown (net (k + rem')%nat)
        end
    end.
Proof.
  induction rem as [|rem IH]; intros k d; [reflexivity|].
  cbn [answered].
  destruct (responded_dec (net k)) as [[x E]|Hfail].
  - rewrite (api_loop_success net data _ _ _ _ E), E. reflexivity.
  - assert (Hans : match net k with
                   | Responded x => Some x
                   | _ => answered net (S k) rem
                   end = answered net (S k) rem).
    { destruct (net k) as [x| |]; [|reflexivity ..].
      exfalso. apply (Hfail x). reflexivity. }
    rewrite Hans. destruct rem as [|rem].
    + rewrite (api_loop_last net data _ _ Hfail). cbn [fst answered].
      rewrite Nat.add_0_r. reflexivity.
    + rewrite (api_loop_retry net data _ _ _ Hfail). cbn [fst].
      rewrite IH. destruct (answered net (S k) (S rem)); [reflexivity|].
      f_equal. f_equal. lia.
Qed.

End RequestLoopFurther.

(** X1.  For any attempt budget [retries], [apiRequest] posts at most
    [retries] times.  With a budget of zero it posts nothing and returns
    without a value and without an error.  Otherwise the result is the
    answer of the first attempt that is answered, and when none of the
    [retries] attempts is answered the error of the last one is thrown
    after exactly [retries] posts. *)
Theorem X1_apiRequest_budget (net : nat -> attempt) (data : trade)
    (retries : nat) :
  let run := apiRequest net data retries in
  (posts (snd run) <= retries)%nat /\
  (retries = O -> run = (NoValue, [])) /\
  (forall x, answered net 0 retries = Some x -> fst run = Returned x) /\
  (forall n, retries = S n -> answered net 0 retries = None ->
     fst run = Thrown (net n) /\ posts (snd run) = retries).
Proof.
  intros run. unfold run, apiRequest.
  destruct (api_loop_posts net data retries 0 BASE_API_DELAY) as (_ & Hp & _).
  split; [exact Hp|]. split; [intros ->; reflexivity|].
  pose proof (api_loop_answered net data retries 0 BASE_API_DELAY) as Hans.
  split.
  - intros x Hx. rewrite Hans, Hx. reflexivity.
  - intros n -> Hnone. rewrite Hans, Hnone. split; [reflexivity|].
    apply (api_loop_exhausted net data n 0 BASE_API_DELAY).
    clear - Hnone. intros j x Hj.
    assert (Hgen : forall m k, answered net k m = None ->
                     forall i, (i < m)%nat -> net (k + i)%nat <> Responded x).
    { induction m as [|m IH]; intros k Hk i Hi; [lia|].
      cbn [answered] in Hk. destruct (net k) as [y| |] eqn:E; try discriminate.
      - destruct i as [|i].
        + rewrite Nat.add_0_r, E. discriminate.
        + replace (k + S i)%nat with (S k + i)%nat by lia. apply IH; [exact Hk|lia].
      - destruct i as [|i].
        + rewrite Nat.add_0_r, E. discriminate.
        + replace (k + S i)%nat with (S k + i)%nat by lia. apply IH; [exact Hk|lia]. }
    apply (Hgen (S n) O Hnone j Hj).
Qed.

(** The theorem on an endpoint that is down and a budget of three. *)
Lemma X1_apiRequest_budget_witness :
  fst (apiRequest net_down (sell_order mintA 2) 3) = Thrown Unreachable /\
  posts (snd (apiRequest net_down (sell_order mintA 2) 3)) = 3%nat.
Proof.
  destruct (X1_apiRequest_budget net_down (sell_order mintA 2) 3)
    as (_ & _ & _ & Hnone).
  apply (Hnone 2%nat); reflexivity.
Defined.

(** X2.  When no answer has status 429, the delays [apiRequest] passes
    to [setTimeout] between its attempts double from [BASE_API_DELAY]:
    1 s, 2 s, 4 s, ..., one for each attempt after the first, whatever
    the budget.  With the default budget there are at most four of them,
    15 s in all. *)
Theorem X2_apiRequest_waits (net : nat -> attempt) (data : trade) :
  no_rate_limit net ->
  (forall retries,
     waits (snd (apiRequest net data retries)) =
       doubling 1000 (pred (posts (snd (apiRequest net data retries))))) /\
  total (waits (snd (apiRequest net data API_RETRY_LIMIT))) <= 15000.
Proof.
  intros Hplain. unfold apiRequest.
  assert (Hws : forall retries,
            waits (snd (api_loop net data 0 retries BASE_API_DELAY)) =
              doubling 1000
                (pred (posts (snd (api_loop net data 0 retries BASE_API_DELAY))))).
  { intros retries.
    exact (api_loop_waits_plain net data retries 0 BASE_API_DELAY Hplain). }
  split; [exact Hws|].
  rewrite Hws.
  destruct (api_loop_posts net data API_RETRY_LIMIT 0 BASE_API_DELAY)
    as (_ & Hp & _).
  destruct (posts (snd (api_loop net data 0 API_RETRY_LIMIT BASE_API_DELAY)))
    as [|[|[|[|[|[|p]]]]]];
    unfold API_RETRY_LIMIT in Hp; unfold total;
    cbn [pred doubling fold_right]; lia.
Qed.

(** The theorem on an endpoint that is down: four waits, 15 s. *)
Lemma X2_apiRequest_waits_witness :
  waits (snd (apiRequest net_down (sell_order mintA 2) API_RETRY_LIMIT))
    = [1000; 2000; 4000; 8000].
Proof.
  destruct (X2_apiRequest_waits net_down (sell_order mintA 2)) as [Hws _].
  - intros k header. discriminate.
  - rewrite Hws. reflexivity.
Defined.

(** What the request loop writes: posts of its body, waits and its two
    log lines. *)
Lemma api_loop_events net data rem : forall k d e,
  In e (snd (api_loop net data k rem d)) ->
  match e with
  | Post tr => tr = data
  | Wait _ => True
  | Log (MsgApiError _) => True
  | Log (MsgRateLimited _) => True
  | _ => False
  end.
Proof.
  induction rem as [|rem IH]; intros k d e Hin; [destruct Hin|].
  destruct (responded_dec (net k)) as [[x E]|Hfail].
  - rewrite (api_loop_success net data _ _ _ _ E) in Hin.
    destruct Hin as [<-|[]]. reflexivity.
  - assert (Hlogs : In e (snd (on_error (net k) d)) ->
                    match e with
                    | Post tr => tr = data
                    | Wait _ => True
                    | Log (MsgApiError _) => True
                    | Log (MsgRateLimited _) => True
                    | _ => False
                    end).
    { destruct (net k) as [x|status header|]; cbn [on_error snd];
        try (intros []).
      destruct (status =? 429); cbn [snd].
      - intros [<-|[<-|[]]]; exact I.
      - intros [<-|[]]; exact I. }
    destruct rem as [|rem].
    + rewrite (api_loop_last net data _ _ Hfail) in Hin. cbn [snd] in Hin.
      destruct Hin as [<-|Hin]; [reflexivity | exact (Hlogs Hin)].
    + rewrite (api_loop_retry net data _ _ _ Hfail) in Hin. cbn [snd] in Hin.
      destruct Hin as [<-|Hin]; [reflexivity|].
      apply in_app_or in Hin. destruct Hin as [Hin|[<-|Hin]].
      * exact (Hlogs Hin).
      * exact I.
      * exact (IH _ _ _ Hin).
Qed.

Lemma pumpFun_outcome failed net data :
  fst (pumpFun failed net data) =
    match answered net 0 5 with
    | Some (Reply tx_hash) => tx_hash
    | _ => Null
    end /\
  (posts (snd (pumpFun failed net data)) <= 5)%nat /\
  (failed = MsgBuyFailed \/ failed = MsgSellFailed ->
   (In (Log failed) (snd (pumpFun failed net data)) <->
    forall tx_hash, answered net 0 5 <> Some (Reply tx_hash))).
Proof.
  unfold pumpFun, apiRequest, API_RETRY_LIMIT.
  pose proof (api_loop_answered net data 5 0 BASE_API_DELAY) as Hans.
  destruct (api_loop_posts net data 5 0 BASE_API_DELAY) as (_ & Hp & _).
  pose proof (api_loop_events net data 5 0 BASE_API_DELAY (Log failed)) as Hev.
  destruct (api_loop net data 0 5 BASE_API_DELAY) as [r evs].
  cbn [fst snd] in Hans, Hp, Hev. subst r.
  assert (Hquiet : failed = MsgBuyFailed \/ failed = MsgSellFailed ->
                   ~ In (Log failed) evs).
  { intros [-> | ->] Hin; exact (Hev Hin). }
  destruct (answered net 0 5) as [[|tx_hash]|]; cbn [fst snd];
    (split; [reflexivity|]); rewrite ?posts_app;
    change (posts [Log failed]) with 0%nat;
    (split; [lia|]); intros Hfailed.
  - split; [intros _ tx_hash; discriminate|].
    intros _. apply in_or_app. right. left. reflexivity.
  - split; [intros Hin; exfalso; exact (Hquiet Hfailed Hin)|].
    intros Hno. exfalso. exact (Hno tx_hash eq_refl).
  - split; [intros _ tx_hash; discriminate|].
    intros _. apply in_or_app. right. left. reflexivity.
Qed.

(** X3.  Neither [pumpFunBuy] nor [pumpFunSell] lets a failure of the
    request escape.  Each returns the [tx_hash] property of the first of
    its five attempts that is answered, as it is ([undefined] when the
    body has none).  When that body is [null], or when no attempt is
    answered, it logs the failure and returns [null], and the failure is
    logged in these cases only.  Every post of a call carries the same
    body: the side, the mint and the amount it was called with. *)
Theorem X3_pumpFun_result (net : nat -> attempt) (mint : string) (amount : Q) :
  let outcome :=
    match answered net 0 5 with
    | Some (Reply tx_hash) => tx_hash
    | _ => Null
    end in
  let unusable := forall tx_hash, answered net 0 5 <> Some (Reply tx_hash) in
  fst (pumpFunBuy net mint amount) = outcome /\
  fst (pumpFunSell net mint amount) = outcome /\
  (forall tr, In (Post tr) (snd (pumpFunBuy net mint amount)) ->
     tr = Trade Buy mint amount) /\
  (forall tr, In (Post tr) (snd (pumpFunSell net mint amount)) ->
     tr = Trade Sell mint amount) /\
  (In (Log MsgBuyFailed) (snd (pumpFunBuy net mint amount)) <-> unusable) /\
  (In (Log MsgSellFailed) (snd (pumpFunSell net mint amount)) <-> unusable).
Proof.
  intros outcome unusable. unfold pumpFunBuy, pumpFunSell.
  destruct (pumpFun_outcome MsgBuyFailed net (Trade Buy mint amount))
    as (Hb & _ & Hbl).
  destruct (pumpFun_outcome MsgSellFailed net (Trade Sell mint amount))
    as (Hs & _ & Hsl).
  split; [exact Hb|]. split; [exact Hs|].
  split; [intros tr; apply pumpFun_posts|].
  split; [intros tr; apply pumpFun_posts|].
  split; [apply Hbl; left; reflexivity | apply Hsl; right; reflexivity].
Qed.

(** The theorem on an endpoint that answers with the body [null]: the
    sale is posted once, reported as failed, and [null] is returned. *)
Lemma X3_pumpFun_result_witness :
  fst (pumpFunSell net_null mintA 2) = Null /\
  In (Log MsgSellFailed) (snd (pumpFunSell net_null mintA 2)).
Proof.
  destruct (X3_pumpFun_result net_null mintA 2) as (_ & Hsell & _ & _ & _ & Hlog).
  split; [exact Hsell|]. apply Hlog. intros tx_hash. discriminate.
Defined.

(** ** The token inventory and the sale *)

Lemma decode_listed (a : account) :
  Qgt_bool (tok_amount (decode a)) 1 = listed a.
Proof.
  unfold Qgt_bool, Qle_bool, listed, decode. cbn [tok_amount Qnum Qden].
  destruct (1000000 <? acc_raw a)%N eqn:E.
  - apply N.ltb_lt in E. apply negb_true_iff. apply Z.leb_gt. lia.
  - apply N.ltb_ge in E. apply negb_false_iff. apply Z.leb_le. lia.
Qed.

Lemma filter_map_decode (accounts : list account) :
  filter (fun t => Qgt_bool (tok_amount t) 1) (map decode accounts) =
    map decode (filter listed accounts).
Proof.
  induction accounts as [|a accounts IH]; [reflexivity|].
  cbn [map filter]. rewrite decode_listed, IH.
  destruct (listed a); reflexivity.
Qed.

(** X4.  [fetchSPLTokens] returns, in the order of the RPC answer, the
    accounts whose raw amount exceeds 10^6 base units, each with its mint
    and its amount divided by 10^6; so every token it returns has more
    than one unit.  When the RPC call throws it logs the error and
    returns the empty list. *)
Theorem X4_fetchSPLTokens_listed (accounts : list account) :
  fetchSPLTokens (Some accounts) = (map decode (filter listed accounts), []) /\
  (forall t, In t (fst (fetchSPLTokens (Some accounts))) ->
     (1 < tok_amount t)%Q /\
     exists a, In a accounts /\ (1000000 < acc_raw a)%N /\
               tok_mint t = acc_mint a /\
               tok_amount t = Z.of_N (acc_raw a) # 1000000) /\
  fetchSPLTokens None = ([], [Log MsgFetchError]).
Proof.
  split; [|split; [|reflexivity]].
  - cbn [fetchSPLTokens]. rewrite filter_map_decode. reflexivity.
  - cbn [fetchSPLTokens fst]. rewrite filter_map_decode. intros t Hin.
    apply in_map_iff in Hin. destruct Hin as (a & <- & Hin).
    apply filter_In in Hin. destruct Hin as [Hin Hl].
    split.
    + pose proof (decode_listed a) as Hd. rewrite Hl in Hd.
      unfold Qgt_bool in Hd. apply negb_true_iff in Hd.
      apply Qnot_le_lt. intros Hle. apply Qle_bool_iff in Hle. congruence.
    + exists a. unfold listed in Hl. apply N.ltb_lt in Hl.
      repeat split; assumption.
Qed.

Lemma held_sellable mint (accounts : list account) :
  held mint (map decode (filter listed accounts)) =
    option_map decode (find (sellable mint) accounts).
Proof.
  unfold held. induction accounts as [|a accounts IH]; [reflexivity|].
  cbn [filter find]. unfold sellable at 1.
  destruct (listed a) eqn:El.
  - cbn [map find]. change (tok_mint (decode a)) with (acc_mint a).
    destruct (String.eqb (acc_mint a) mint); [reflexivity | exact IH].
  - rewrite andb_false_r. exact IH.
Qed.

Lemma find_first {A} (p : A -> bool) (before after : list A) (a : A) :
  (forall b, In b before -> p b = false) -> p a = true ->
  find p (before ++ a :: after) = Some a.
Proof.
  intros Hbefore Ha. induction before as [|b before IH].
  - cbn [app find]. rewrite Ha. reflexivity.
  - cbn [app find]. rewrite (Hbefore b (or_introl eq_refl)).
    apply IH. intros c Hc. apply Hbefore. right. exact Hc.
Qed.

(** X5.  [sellTokens] acts on the first account of the RPC answer that
    has the requested mint and more than one token, and on that account
    alone: accounts before it that have another mint or at most one
    token, and every account after it, also of the same mint, change
    neither the result nor the trace. *)
Theorem X5_sellTokens_first_account (before after : list account)
    (a : account) (net : nat -> attempt) (mint : string) (pct : Q) :
  (forall b, In b before -> sellable mint b = false) ->
  sellable mint a = true ->
  sellTokens (Some (before ++ a :: after)) net mint pct =
    sellTokens (Some [a]) net mint pct.
Proof.
  intros Hbefore Ha. unfold sellTokens, fetchSPLTokens.
  rewrite !filter_map_decode, !sell_scan_held, !held_sellable.
  rewrite (find_first (sellable mint) before after a Hbefore Ha).
  cbn [find]. rewrite Ha. reflexivity.
Qed.

(** The theorem on [wallet_twice]: the account of 3 tokens is sold from,
    the one of 1000 tokens after it is not. *)
Lemma X5_sellTokens_first_account_witness :
  sellTokens (Some wallet_twice) net_ok mintA 1 =
    sellTokens (Some [Account mintA 3000000]) net_ok mintA 1.
Proof.
  apply (X5_sellTokens_first_account [Account mintA 900000]
           [Account mintA 1000000000] (Account mintA 3000000)).
  - intros b [<-|[]]. reflexivity.
  - reflexivity.
Defined.

Lemma pumpFunSell_no_sold net mint amount a m h :
  ~ In (Log (MsgSold a m h)) (snd (pumpFunSell net mint amount)).
Proof.
  unfold pumpFunSell, pumpFun, apiRequest.
  pose proof (api_loop_events net (Trade Sell mint amount) API_RETRY_LIMIT 0
                BASE_API_DELAY (Log (MsgSold a m h))) as Hev.
  destruct (api_loop net (Trade Sell mint amount) 0 API_RETRY_LIMIT BASE_API_DELAY)
    as [r evs].
  cbn [snd] in Hev.
  destruct r as [[|x]| |]; cbn [snd]; intros Hin; try exact (Hev Hin);
    apply in_app_or in Hin; destruct Hin as [Hin|[Heq|[]]];
    try exact (Hev Hin); discriminate Heq.
Qed.

(** X6.  When [sellTokens] finds a token whose amount times the
    percentage reaches one unit, its result is that of the sale: the
    [tx_hash] property of the first answered attempt as it is
    ([undefined] when the body has none), and [null] when that body is
    [null] or all five attempts fail.  The line reporting the sale is
    logged exactly when that result is a non-empty hash; a failed sale
    is not tried again. *)
Theorem X6_sellTokens_result (rpc : option (list account))
    (net : nat -> attempt) (mint : string) (pct : Q) (tok : token) :
  held mint (fst (fetchSPLTokens rpc)) = Some tok ->
  (1 <= tok_amount tok * pct)%Q ->
  let run := sellTokens rpc net mint pct in
  fst run =
    match answered net 0 5 with
    | Some (Reply tx_hash) => tx_hash
    | _ => Null
    end /\
  (posts (snd run) <= 5)%nat /\
  (forall a m h,
     In (Log (MsgSold a m h)) (snd run) <->
     a = (tok_amount tok * pct)%Q /\ m = mint /\ fst run = Hash h /\
     h <> EmptyString).
Proof.
  intros Hheld Hge run. unfold run, sellTokens.
  destruct rpc as [accounts|]; [|discriminate Hheld].
  cbn [fetchSPLTokens fst] in *.
  rewrite sell_scan_held, Hheld. cbn [sell_scan].
  pose proof (held_mint _ _ _ Hheld) as Hm. apply String.eqb_eq in Hm.
  rewrite Hm. apply Qle_bool_iff in Hge. rewrite Hge.
  destruct (pumpFun_outcome MsgSellFailed net
              (Trade Sell mint (tok_amount tok * pct))) as (Hres & Hposts & _).
  fold (pumpFunSell net mint (tok_amount tok * pct)) in Hres, Hposts.
  pose proof (pumpFunSell_no_sold net mint (tok_amount tok * pct)) as Hnosold.
  destruct (pumpFunSell net mint (tok_amount tok * pct)) as [txHash evs].
  cbn [fst snd app] in *. split; [exact Hres|]. split.
  - change (SellTokens mint pct :: Log ?m :: ?l ++ ?k)
      with ([SellTokens mint pct; Log m] ++ l ++ k).
    rewrite !posts_app. change (posts [SellTokens mint pct; Log _]) with 0%nat.
    assert (Htail : posts (if truthy txHash
                           then match txHash with
                                | Hash h => [Log (MsgSold (tok_amount tok * pct) mint h)]
                                | _ => []
                                end
                           else []) = 0%nat).
    { destruct (truthy txHash); [|reflexivity]. destruct txHash; reflexivity. }
    rewrite Htail. lia.
  - intros a m h. split.
    + intros [Heq|[Heq|Hin]]; try discriminate Heq.
      apply in_app_or in Hin. destruct Hin as [Hin|Hin];
        [exfalso; exact (Hnosold _ _ _ Hin)|].
      destruct txHash as [h'| |]; cbn [truthy] in Hin; try destruct Hin.
      destruct (negb (String.eqb h' EmptyString)) eqn:Eh; [|destruct Hin].
      destruct Hin as [Heq|[]]. injection Heq as <- <- <-.
      repeat split. apply negb_true_iff in Eh. apply String.eqb_neq. exact Eh.
    + intros (-> & -> & -> & Hne). right. right. apply in_or_app. right.
      cbn [truthy]. apply String.eqb_neq in Hne. rewrite Hne. left. reflexivity.
Qed.

(** The theorem on [wallet] and an endpoint that answers at once. *)
Lemma X6_sellTokens_result_witness :
  fst (sellTokens (Some wallet) net_ok mintA (3 # 4)) = Hash "tx".
Proof.
  destruct (X6_sellTokens_result (Some wallet) net_ok mintA (3 # 4)
              (Token mintA (1000000000 # 1000000))) as [Hres _].
  - reflexivity.
  - discriminate.
  - exact Hres.
Defined.

(** ** The operator's keys *)

Lemma press_flags (k : key) (f : flags) :
  press k f =
    Flags (resetTimer f || key_eqb KeyR k)
          (continueTrade f || key_eqb KeyC k)
          (sellImmediately f || key_eqb KeyS k).
Proof.
  destruct f as [r c s], k; cbn; rewrite ?orb_false_r, ?orb_true_r; reflexivity.
Qed.

Lemma presses_flags (keys : list key) : forall f,
  presses keys f =
    Flags (resetTimer f || pressed_key KeyR keys)
          (continueTrade f || pressed_key KeyC keys)
          (sellImmediately f || pressed_key KeyS keys).
Proof.
  unfold presses, pressed_key.
  induction keys as [|k keys IH]; intros f.
  - destruct f. cbn. rewrite !orb_false_r. reflexivity.
  - cbn [fold_left existsb]. rewrite IH, press_flags. cbn [resetTimer
      continueTrade sellImmediately]. rewrite !orb_assoc. reflexivity.
Qed.

(** X7.  The key handlers only ever set flags.  After any sequence of
    key presses a flag is set exactly when it was set before or its key
    occurs in the sequence; so the order of the presses and their
    repetition make no difference, and no key press clears a flag. *)
Theorem X7_presses_set_flags (keys : list key) (f : flags) :
  presses keys f =
    Flags (resetTimer f || pressed_key KeyR keys)
          (continueTrade f || pressed_key KeyC keys)
          (sellImmediately f || pressed_key KeyS keys) /\
  flags_le f (presses keys f) /\
  (forall keys', (forall k, In k keys <-> In k keys') ->
     presses keys f = presses keys' f) /\
  presses keys (presses keys f) = presses keys f.
Proof.
  split; [apply presses_flags|]. split; [|split].
  - rewrite presses_flags. unfold flags_le.
    cbn [resetTimer continueTrade sellImmediately].
    repeat split; intros ->; reflexivity.
  - intros keys' Hsame. rewrite !presses_flags.
    assert (Hk : forall k, pressed_key k keys = pressed_key k keys').
    { intros k. unfold pressed_key.
      destruct (existsb (key_eqb k) keys) eqn:E.
      - apply existsb_exists in E. destruct E as (x & Hin & Hx).
        symmetry. apply existsb_exists. exists x. split; [apply Hsame; exact Hin|exact Hx].
      - destruct (existsb (key_eqb k) keys') eqn:E'; [|reflexivity].
        apply existsb_exists in E'. destruct E' as (x & Hin & Hx).
        rewrite <- E. apply existsb_exists. exists x.
        split; [apply Hsame; exact Hin|exact Hx]. }
    rewrite !Hk. reflexivity.
  - rewrite !presses_flags. cbn [resetTimer continueTrade sellImmediately].
    f_equal; rewrite <- orb_assoc, orb_diag; reflexivity.
Qed.

(** The theorem on the presses S, C and C, S, S. *)
Lemma X7_presses_set_flags_witness :
  presses [KeyS; KeyC] no_flags = presses [KeyC; KeyS; KeyS] no_flags.
Proof.
  destruct (X7_presses_set_flags [KeyS; KeyC] no_flags) as (_ & _ & Hsame & _).
  apply Hsame. intros k. split.
  - intros [<-|[<-|[]]]; cbn; auto.
  - intros [<-|[<-|[<-|[]]]]; cbn; auto.
Defined.

(** ** The exits of a tick *)

Lemma milestone_decisions mint info t l w :
  decisions (trace (milestone mint info t l w)) =
    if Qgt_bool (marketcap info) (lastMarketCap l * PROFIT_TARGET_2)
    then [Log MsgMilestone; SellTokens mint (3 # 4)] else [].
Proof.
  rewrite milestone_run. destruct (Qgt_bool _ _); cbv zeta; run_norm;
    decisions_norm; reflexivity.
Qed.

Lemma check_resetTimer_sellImmediately l w :
  sellImmediately (overrides (final (check_resetTimer l w))) =
    sellImmediately (overrides w).
Proof.
  rewrite check_resetTimer_run. destruct (resetTimer (overrides w)); reflexivity.
Qed.

Lemma check_resetTimer_now l w :
  now (final (check_resetTimer l w)) = now w.
Proof.
  rewrite check_resetTimer_run. destruct (resetTimer (overrides w)); reflexivity.
Qed.

(** What a tick that reaches the override checks decides, in full. *)
Lemma checked_tick_decisions cfg mint init t l w info :
  qe_info (tk_quote t) = Some info ->
  primary_branch cfg init info = Profit \/
  primary_branch cfg init info = NoBranch ->
  decisions (trace (iteration cfg mint init t l w)) =
    (match primary_branch cfg init info with
     | Profit => [Log (MsgProfit mint); SellTokens mint (1 # 2)]
     | _ => []
     end) ++
    (if Qgt_bool (marketcap info)
          (match primary_branch cfg init info with
           | Profit => marketcap info
           | _ => lastMarketCap l
           end * PROFIT_TARGET_2)
     then [Log MsgMilestone; SellTokens mint (3 # 4)] else []) ++
    (if resetTimer (overrides (at_checks cfg mint init info t l w))
     then [Log MsgResetTimer] else []) ++
    (if continueTrade (overrides (at_checks cfg mint init info t l w))
     then [Log MsgContinue]
     else if sellImmediately (overrides (at_checks cfg mint init info t l w))
          then [Log MsgSellNow; SellTokens mint (3 # 4)] else []).
Proof.
  intros Hq Hbr. unfold at_checks.
  rewrite iteration_trace, body_run, Hq, primary_run.
  destruct Hbr as [Hbr|Hbr]; rewrite Hbr; cbv zeta; run_norm; decisions_norm;
    rewrite milestone_decisions, check_resetTimer_decisions, check_exit_decisions,
      check_resetTimer_continue, check_resetTimer_sellImmediately;
    cbn [lastMarketCap]; reflexivity.
Qed.

(** How such a tick ends. *)
Lemma checked_tick_exit cfg mint init t l w info :
  qe_info (tk_quote t) = Some info ->
  primary_branch cfg init info = Profit \/
  primary_branch cfg init info = NoBranch ->
  let c := at_checks cfg mint init info t l w in
  let r := iteration cfg mint init t l w in
  fst (value r) =
    (if continueTrade (overrides c) || sellImmediately (overrides c)
     then Break else Next) /\
  (continueTrade (overrides c) = true ->
     now (final r) = now c /\
     continueTrade (overrides (final r)) = false /\
     sellImmediately (overrides (final r)) = sellImmediately (overrides c)) /\
  (continueTrade (overrides c) = false -> sellImmediately (overrides c) = true ->
     continueTrade (overrides (final r)) =
       pressed_key KeyC (pressed (se_lapse (tk_sell_now t))) /\
     sellImmediately (overrides (final r)) = false).
Proof.
  intros Hq Hbr c r. unfold c, r, at_checks.
  rewrite iteration_run, body_run, Hq, primary_run.
  destruct Hbr as [Hbr|Hbr]; rewrite Hbr; cbv zeta; run_norm.
  - set (w1 := {| now := _; overrides := Flags _ true _ |}).
    set (r2 := milestone mint info t _ w1).
    set (r3 := check_resetTimer (value r2) (final r2)).
    pose proof (check_resetTimer_continue (value r2) (final r2)) as Hc.
    pose proof (check_resetTimer_sellImmediately (value r2) (final r2)) as Hs.
    pose proof (check_resetTimer_now (value r2) (final r2)) as Hn.
    fold r3 in Hc, Hs, Hn. rewrite check_exit_run, Hc, Hs.
    destruct (continueTrade (overrides (final r2))); run_norm.
    + repeat split; try assumption; discriminate.
    + destruct (sellImmediately (overrides (final r2))); cbv zeta; run_norm.
      * repeat split; try discriminate.
        rewrite await_sellTokens_overrides, presses_flags, Hc. reflexivity.
      * repeat split; discriminate.
  - set (r2 := milestone mint info t _ _).
    set (r3 := check_resetTimer (value r2) (final r2)).
    pose proof (check_resetTimer_continue (value r2) (final r2)) as Hc.
    pose proof (check_resetTimer_sellImmediately (value r2) (final r2)) as Hs.
    pose proof (check_resetTimer_now (value r2) (final r2)) as Hn.
    fold r3 in Hc, Hs, Hn. rewrite check_exit_run, Hc, Hs.
    destruct (continueTrade (overrides (final r2))); run_norm.
    + repeat split; try assumption; discriminate.
    + destruct (sellImmediately (overrides (final r2))); cbv zeta; run_norm.
      * repeat split; try discriminate.
        rewrite await_sellTokens_overrides, presses_flags, Hc. reflexivity.
      * repeat split; discriminate.
Qed.

(** X8.  On a tick that reaches the exit checks, [continueTrade] is
    tested before [sellImmediately].  If [continueTrade] is set the loop
    is left at once and without the 75 % sale, also when [sellImmediately]
    is set too, and only [continueTrade] is cleared: a pending
    [sellImmediately] stays pending after the monitor has ended.  If only
    [sellImmediately] is set the tick ends with [sellTokens(mint, 0.75)],
    the flag is cleared and the loop is left.  If neither is set the loop
    goes on. *)
Theorem X8_exit_checks (cfg : config) (mint : string) (init : Q)
    (t : tick) (l : locals) (w : World) (info : TokenInfo) :
  qe_info (tk_quote t) = Some info ->
  primary_branch cfg init info = Profit \/
  primary_branch cfg init info = NoBranch ->
  let c := at_checks cfg mint init info t l w in
  let r := iteration cfg mint init t l w in
  (continueTrade (overrides c) = true ->
     fst (value r) = Break /\
     (exists before, decisions (trace r) = before ++ [Log MsgContinue]) /\
     ~ In (Log MsgSellNow) (decisions (trace r)) /\
     continueTrade (overrides (final r)) = false /\
     sellImmediately (overrides (final r)) = sellImmediately (overrides c)) /\
  (continueTrade (overrides c) = false ->
   sellImmediately (overrides c) = true ->
     fst (value r) = Break /\
     (exists before,
        decisions (trace r) = before ++ [Log MsgSellNow; SellTokens mint (3 # 4)]) /\
     sellImmediately (overrides (final r)) = false) /\
  (continueTrade (overrides c) = false ->
   sellImmediately (overrides c) = false ->
     fst (value r) = Next /\
     ~ In (Log MsgContinue) (decisions (trace r)) /\
     ~ In (Log MsgSellNow) (decisions (trace r))).
Proof.
  intros Hq Hbr c r.
  pose proof (checked_tick_decisions cfg mint init t l w info Hq Hbr) as Hd.
  destruct (checked_tick_exit cfg mint init t l w info Hq Hbr) as (Hv & Hc & Hs).
  fold c in Hd, Hv, Hc, Hs. fold r in Hd, Hv, Hc, Hs.
  assert (Hpre : forall e, e = Log MsgContinue \/ e = Log MsgSellNow ->
            ~ In e
                ((match primary_branch cfg init info with
                  | Profit => [Log (MsgProfit mint); SellTokens mint (1 # 2)]
                  | _ => []
                  end) ++
                 (if Qgt_bool (marketcap info)
                       (match primary_branch cfg init info with
                        | Profit => marketcap info
                        | _ => lastMarketCap l
                        end * PROFIT_TARGET_2)
                  then [Log MsgMilestone; SellTokens mint (3 # 4)] else []) ++
                 (if resetTimer (overrides c) then [Log MsgResetTimer] else []))).
  { intros e He Hin.
    apply in_app_or in Hin. destruct Hin as [Hin|Hin].
    - destruct (primary_branch cfg init info);
        destruct He as [-> | ->]; no_such_decision Hin.
    - apply in_app_or in Hin. destruct Hin as [Hin|Hin].
      + destruct (Qgt_bool _ _); destruct He as [-> | ->]; no_such_decision Hin.
      + destruct (resetTimer (overrides c));
          destruct He as [-> | ->]; no_such_decision Hin. }
  rewrite !app_assoc in Hd. rewrite <- (app_assoc _ _ (if resetTimer _ then _ else _)) in Hd.
  split; [|split].
  - intros Hcont. rewrite Hcont in Hd, Hv. destruct (Hc Hcont) as (_ & Hc1 & Hs1).
    split; [exact Hv|]. split; [eexists; exact Hd|]. split; [|split; assumption].
    rewrite Hd. intros Hin. apply in_app_or in Hin. destruct Hin as [Hin|Hin].
    + apply (Hpre (Log MsgSellNow)); auto.
    + no_such_decision Hin.
  - intros Hcont Hsell. rewrite Hcont, Hsell in Hd, Hv.
    destruct (Hs Hcont Hsell) as [_ Hs1].
    split; [exact Hv|]. split; [eexists; exact Hd | exact Hs1].
  - intros Hcont Hsell. rewrite Hcont, Hsell in Hd, Hv.
    split; [exact Hv|]. rewrite Hd, app_nil_r.
    split; apply Hpre; auto.
Qed.

(** The theorem on [tick_continue_and_sell]: S and C are both pressed
    before the checks; the tick ends without a sale and S stays
    pending. *)
Lemma X8_exit_checks_witness :
  decisions (trace (iteration default_config mintA 100 tick_continue_and_sell
                      (Locals 120000 100) world0)) = [Log MsgContinue] /\
  overrides (final (iteration default_config mintA 100 tick_continue_and_sell
                      (Locals 120000 100) world0)) = Flags false false true.
Proof.
  destruct (X8_exit_checks default_config mintA 100 tick_continue_and_sell
              (Locals 120000 100) world0 (quote 101 5) eq_refl
              (or_intror eq_refl)) as (Hcont & _ & _).
  destruct (Hcont eq_refl) as (_ & _ & _ & _ & _).
  split; reflexivity.
Defined.

(** X9.  On a tick whose quote has a change strictly between -10 % and
    25 % and a bonding curve at or above [SELL_BONDING_CURVE_PROGRESS],
    the monitor calls [sellTokens(mint, 0.75)], decides nothing else, and
    leaves the loop on that tick with its locals unchanged. *)
Theorem X9_bonding_curve_exit (cfg : config) (mint : string) (init : Q)
    (t : tick) (l : locals) (w : World) (info : TokenInfo) :
  qe_info (tk_quote t) = Some info ->
  num_ge (marketCapChange info init) 25 = false ->
  num_le (marketCapChange info init) (inject_Z (-10)) = false ->
  Qle_bool (inject_Z (SELL_BONDING_CURVE_PROGRESS cfg)) (bondingCurve info) = true ->
  let r := iteration cfg mint init t l w in
  value r = (Break, l) /\
  decisions (trace r) = [Log (MsgBondingCurve mint); SellTokens mint (3 # 4)] /\
  (forall ticks fuel i,
     ticks i = t -> now w < endTime l ->
     value (monitor_loop cfg mint init ticks (S fuel) i l w) = Some (S i, l)).
Proof.
  intros Hq Hge Hle Hbc r.
  assert (Hbr : primary_branch cfg init info = BondingCurve).
  { unfold primary_branch. rewrite Hge, Hle, Hbc. reflexivity. }
  assert (Hrun : iteration cfg mint init t l w =
            ((Break, l),
             final (await_sellTokens (tk_sell_primary t) mint (3 # 4) (quoted t w)),
             Subscribe mint ::
             Log (MsgQuote info (marketCapChange info init)
                    (endTime l - now (quoted t w))) ::
             Log (MsgBondingCurve mint) ::
             trace (await_sellTokens (tk_sell_primary t) mint (3 # 4) (quoted t w)))).
  { rewrite iteration_run, body_run, Hq, primary_run, Hbr. reflexivity. }
  unfold r. split; [|split].
  - rewrite Hrun. reflexivity.
  - rewrite Hrun. run_norm. decisions_norm. reflexivity.
  - intros ticks fuel i Hi Hlt.
    rewrite (monitor_loop_step _ _ _ _ _ _ _ _ Hlt), Hi, Hrun. reflexivity.
Qed.

(** The theorem on a quote at +3 % with a bonding curve of 16 %. *)
Lemma X9_bonding_curve_exit_witness :
  decisions (trace (iteration default_config mintA 100
                      (tick_with (Some (quote 103 16)) 0 prompt_sell)
                      (Locals 120000 100) world0))
    = [Log (MsgBondingCurve mintA); SellTokens mintA (3 # 4)].
Proof.
  destruct (X9_bonding_curve_exit default_config mintA 100
              (tick_with (Some (quote 103 16)) 0 prompt_sell)
              (Locals 120000 100) world0 (quote 103 16))
    as (_ & Hdecisions & _).
  - reflexivity.
  - reflexivity.
  - reflexivity.
  - reflexivity.
  - exact Hdecisions.
Defined.

Lemma flags_le_presses (keys : list key) (f g : flags) :
  flags_le f g -> flags_le f (presses keys g).
Proof.
  intros (Hr & Hc & Hs). rewrite presses_flags. unfold flags_le.
  cbn [resetTimer continueTrade sellImmediately].
  repeat split; intros H; [rewrite (Hr H) | rewrite (Hc H) | rewrite (Hs H)];
    reflexivity.
Qed.

Lemma flags_le_refl (f : flags) : flags_le f f.
Proof. unfold flags_le. auto. Qed.

(** X10.  A tick whose websocket fails, or on which the stop-loss or the
    bonding-curve branch fires, never reaches the override checks: it
    logs none of them, leaves the locals as they are, and writes no
    flag.  With no other monitor running, the flags at its end are
    those at its start with every key pressed during its awaits applied
    (the quote, then the sale of the branch or the sleep), so that no
    flag pending at its start or raised during it has been cleared. *)
Theorem X10_flags_outlive_unchecked_tick (cfg : config) (mint : string)
    (init : Q) (t : tick) (l : locals) (w : World) :
  skips_checks cfg init t = true ->
  let r := iteration cfg mint init t l w in
  snd (value r) = l /\
  overrides (final r) = presses (unchecked_keys t) (overrides w) /\
  flags_le (overrides w) (overrides (final r)) /\
  ~ In (Log MsgResetTimer) (decisions (trace r)) /\
  ~ In (Log MsgContinue) (decisions (trace r)) /\
  ~ In (Log MsgSellNow) (decisions (trace r)).
Proof.
  intros Hskip r.
  assert (Hflags : overrides (final r) = presses (unchecked_keys t) (overrides w)).
  { unfold r, skips_checks, unchecked_keys in *.
    rewrite iteration_run, body_run, presses_app.
    destruct (qe_info (tk_quote t)) as [info|].
    - rewrite primary_run.
      destruct (primary_branch cfg init info); try discriminate Hskip;
        cbv zeta; run_norm; rewrite await_sellTokens_overrides; reflexivity.
    - run_norm. reflexivity. }
  split; [|split; [exact Hflags|split]].
  - unfold r, skips_checks in *. rewrite iteration_run, body_run.
    destruct (qe_info (tk_quote t)) as [info|]; [|reflexivity].
    rewrite primary_run.
    destruct (primary_branch cfg init info); try discriminate Hskip;
      reflexivity.
  - rewrite Hflags. apply flags_le_presses, flags_le_refl.
  - unfold r, skips_checks in *. rewrite iteration_run, body_run.
    destruct (qe_info (tk_quote t)) as [info|].
    + rewrite primary_run.
      destruct (primary_branch cfg init info); try discriminate Hskip;
        cbv zeta; run_norm; decisions_norm;
        repeat split; intros Hin; no_such_decision Hin.
    + run_norm. repeat split; intros Hin; no_such_decision Hin.
Qed.

(** The theorem on [tick_stop_loss_and_sell]: S is pressed while the
    quote is awaited and R during the sale, the stop-loss branch ends
    the monitor, and both flags are pending afterwards. *)
Lemma X10_flags_outlive_unchecked_tick_witness :
  overrides (final (iteration default_config mintA 100 tick_stop_loss_and_sell
                      (Locals 120000 100) world0)) = Flags true false true.
Proof.
  destruct (X10_flags_outlive_unchecked_tick default_config mintA 100
              tick_stop_loss_and_sell (Locals 120000 100) world0 eq_refl)
    as (_ & Hflags & _).
  rewrite Hflags. reflexivity.
Defined.

(** ** The lifetime of a monitor *)

Lemma total_lower (ws : list Z) :
  (forall w, In w ws -> 1000 <= w) -> 0 <= total ws.
Proof.
  unfold total. induction ws as [|w ws IH]; intros Hall; [cbn; lia|].
  cbn [fold_right]. pose proof (Hall w (or_introl eq_refl)).
  assert (0 <= fold_right Z.add 0 ws)
    by (apply IH; intros x Hx; apply Hall; right; exact Hx).
  lia.
Qed.

Lemma pumpFun_waits_lower failed net data w :
  In w (waits (snd (pumpFun failed net data))) -> 1000 <= w.
Proof.
  unfold pumpFun, apiRequest.
  pose proof (api_loop_waits_lower net data API_RETRY_LIMIT 0 BASE_API_DELAY w) as H.
  destruct (api_loop net data 0 API_RETRY_LIMIT BASE_API_DELAY) as [r evs].
  cbn [snd] in H. assert (Hb : 1000 <= BASE_API_DELAY) by (unfold BASE_API_DELAY; lia).
  destruct r as [[|h]| |]; cbn [snd]; rewrite ?waits_app; cbn [waits];
    rewrite ?app_nil_r; intros Hin; apply H; assumption.
Qed.

Lemma sell_scan_waits_lower net mint pct tokens w :
  In w (waits (snd (sell_scan net mint pct tokens))) -> 1000 <= w.
Proof.
  rewrite sell_scan_held. destruct (held mint tokens) as [t|]; [|intros []].
  cbn [sell_scan]. destruct (String.eqb (tok_mint t) mint); [|intros []].
  destruct (Qle_bool 1 (tok_amount t * pct)); [|intros []].
  unfold pumpFunSell.
  pose proof (pumpFun_waits_lower MsgSellFailed net
                (Trade Sell mint (tok_amount t * pct)) w) as H.
  destruct (pumpFun MsgSellFailed net (Trade Sell mint (tok_amount t * pct)))
    as [txHash evs].
  cbn [snd] in *.
  change (Log ?m :: ?l ++ ?k) with ([Log m] ++ l ++ k).
  rewrite !waits_app. cbn [waits app]. intros Hin. apply in_app_or in Hin.
  destruct Hin as [Hin|Hin]; [exact (H Hin)|].
  destruct (truthy txHash); [|destruct Hin].
  destruct txHash; destruct Hin.
Qed.

Lemma sellTokens_waits_lower rpc net mint pct w :
  In w (waits (snd (sellTokens rpc net mint pct))) -> 1000 <= w.
Proof.
  unfold sellTokens.
  assert (Hfetch : waits (snd (fetchSPLTokens rpc)) = [])
    by (destruct rpc; reflexivity).
  destruct (fetchSPLTokens rpc) as [tokens evs1]. cbn [snd] in Hfetch.
  pose proof (sell_scan_waits_lower net mint pct tokens w) as H.
  destruct (sell_scan net mint pct tokens) as [r evs2]. cbn [snd] in *.
  change (SellTokens mint pct :: ?l ++ ?k) with ([SellTokens mint pct] ++ l ++ k).
  rewrite !waits_app, Hfetch. exact H.
Qed.

(** Awaiting a sale does not take the clock back. *)
Lemma await_sellTokens_now e mint pct w :
  now w <= now (final (await_sellTokens e mint pct w)).
Proof.
  rewrite await_sellTokens_run. run_norm.
  pose proof (total_lower (waits (snd (sellTokens (se_rpc e) (se_net e) mint pct)))
                (fun w => sellTokens_waits_lower _ _ _ _ w)).
  lia.
Qed.

Lemma milestone_now mint info t l w :
  now w <= now (final (milestone mint info t l w)).
Proof.
  rewrite milestone_run. destruct (Qgt_bool _ _); cbv zeta; run_norm; [|lia].
  apply await_sellTokens_now.
Qed.

Lemma milestone_resetTimer mint info t l w :
  ~ In KeyR (pressed (se_lapse (tk_sell_milestone t))) ->
  resetTimer (overrides (final (milestone mint info t l w))) =
    resetTimer (overrides w).
Proof.
  intros Hk. rewrite milestone_run. destruct (Qgt_bool _ _); cbv zeta; run_norm;
    [|reflexivity].
  rewrite await_sellTokens_overrides. apply presses_resetTimer. exact Hk.
Qed.

(** A tick after which the loop goes on: at least the poll interval has
    passed, and if R was neither pending nor pressed it is not pending
    afterwards. *)
Lemma next_tick cfg mint init t l w :
  fst (value (iteration cfg mint init t l w)) = Next ->
  now w + MONITOR_INTERVAL <= now (final (iteration cfg mint init t l w)) /\
  (resetTimer (overrides w) = false -> ~ In KeyR (all_pressed t) ->
   resetTimer (overrides (final (iteration cfg mint init t l w))) = false).
Proof.
  unfold all_pressed, pressed_before_checks.
  rewrite iteration_run, body_run. cbv zeta.
  destruct (qe_info (tk_quote t)) as [info|].
  - rewrite primary_run.
    destruct (primary_branch cfg init info) eqn:Hbr; cbv zeta; run_norm;
      try discriminate.
    + set (w1 := {| now := _; overrides := Flags _ true _ |}).
      set (r2 := milestone mint info t _ w1).
      assert (Hc2 : continueTrade (overrides (final r2)) = true).
      { unfold r2. rewrite milestone_run. destruct (Qgt_bool _ _); cbv zeta;
          run_norm; [|reflexivity].
        rewrite await_sellTokens_overrides. apply presses_continue. reflexivity. }
      rewrite check_exit_run, check_resetTimer_continue, Hc2. run_norm.
      discriminate.
    + set (r2 := milestone mint info t l (quoted t w)).
      set (r3 := check_resetTimer (value r2) (final r2)).
      pose proof (milestone_now mint info t l (quoted t w)) as Hn2.
      pose proof (check_resetTimer_now (value r2) (final r2)) as Hn3.
      fold r2 in Hn2. fold r3 in Hn3.
      rewrite check_exit_run.
      destruct (continueTrade (overrides (final r3))); run_norm; [discriminate|].
      destruct (sellImmediately (overrides (final r3))); cbv zeta; run_norm;
        [discriminate|].
      intros _. split.
      * unfold quoted in Hn2. cbn [now] in Hn2. lia.
      * intros Hclear Hkeys.
        rewrite presses_resetTimer
          by (intros H; apply Hkeys; repeat (apply in_or_app; right); exact H).
        unfold r3. rewrite check_resetTimer_run.
        destruct (resetTimer (overrides (final r2))) eqn:E; [reflexivity | exact E].
  - run_norm. intros _. split.
    + unfold quoted. cbn [now]. lia.
    + intros Hclear Hkeys.
      rewrite presses_resetTimer
        by (intros H; apply Hkeys; repeat (apply in_or_app; right); exact H).
      unfold quoted. cbn [overrides]. rewrite presses_resetTimer; [exact Hclear|].
      intros H. apply Hkeys. apply in_or_app. left. apply in_or_app. left. exact H.
Qed.

(** With R out of play the loop ends within as many iterations as poll
    intervals fit before the deadline. *)
Lemma loop_ends cfg mint init ticks :
  (forall i, ~ In KeyR (all_pressed (ticks i))) ->
  forall bound fuel i l w,
    (bound <= fuel)%nat ->
    resetTimer (overrides w) = false ->
    endTime l - now w <= MONITOR_INTERVAL * Z.of_nat bound ->
    exists n l',
      value (monitor_loop cfg mint init ticks (S fuel) i l w) = Some (n, l') /\
      (i <= n <= i + bound)%nat /\
      (now w < endTime l -> (i < n)%nat).
Proof.
  intros Hkeys. induction bound as [|bound IH]; intros fuel i l w Hb Hclear Hfuel.
  - exists i, l. rewrite monitor_loop_done by lia. repeat split; lia.
  - destruct (Z_lt_le_dec (now w) (endTime l)) as [Hlt|Hge].
    + destruct fuel as [|fuel]; [lia|].
      rewrite (monitor_loop_step _ _ _ _ _ _ _ _ Hlt). cbv zeta.
      destruct (fst (value (iteration cfg mint init (ticks i) l w))) eqn:Hctl.
      * destruct (next_tick cfg mint init (ticks i) l w Hctl) as [Hnow Hflag].
        destruct (no_reset_tick cfg mint init (ticks i) l w Hclear) as [Hend _].
        { intros H. apply (Hkeys i). unfold all_pressed.
          apply in_or_app. left. exact H. }
        destruct (IH fuel (S i) (snd (value (iteration cfg mint init (ticks i) l w)))
                    (final (iteration cfg mint init (ticks i) l w)))
          as (n & l' & Hrun & Hn & _).
        { lia. }
        { apply Hflag; [exact Hclear | apply Hkeys]. }
        { rewrite Hend. unfold MONITOR_INTERVAL in *. lia. }
        exists n, l'. run_norm. split; [exact Hrun|]. split; lia.
      * exists (S i), (snd (value (iteration cfg mint init (ticks i) l w))).
        run_norm. split; [reflexivity|]. split; lia.
    + exists i, l. rewrite monitor_loop_done by lia. repeat split; lia.
Qed.


(** X11.  Unless R is pending or pressed, a monitor ends: whatever the
    quotes, the sales and the other keys, [monitorTrade] returns after
    at least one and at most 24 iterations of its loop. *)
Theorem X11_monitorTrade_ends (cfg : config) (env : monitor_env)
    (mint : string) (init bc : Q) (w : World) (fuel : nat) :
  (forall i, ~ In KeyR (all_pressed (me_ticks env i))) ->
  resetTimer (overrides w) = false ->
  (25 <= fuel)%nat ->
  exists n,
    value (monitorTrade cfg env fuel mint init bc w) = Some n /\
    (1 <= n <= 24)%nat.
Proof.
  intros Hkeys Hclear Hfuel.
  destruct fuel as [|fuel]; [lia|].
  destruct (loop_ends cfg mint init (me_ticks env) Hkeys 24 fuel O
              (Locals (now w + SELL_TIMEOUT) init) w ltac:(lia) Hclear)
    as (n & l' & Hrun & Hn & Hpos).
  { cbn [endTime]. unfold SELL_TIMEOUT, MONITOR_INTERVAL. lia. }
  rewrite monitorTrade_run. cbv zeta. rewrite Hrun.
  exists n. split.
  - destruct (endTime l' <=? now _); reflexivity.
  - cbn [endTime] in Hpos. unfold SELL_TIMEOUT in Hpos. lia.
Qed.

(** The theorem on [env_late_stop_loss], in which no key is pressed. *)
Lemma X11_monitorTrade_ends_witness :
  exists n,
    value (monitorTrade default_config env_late_stop_loss 25 mintA 100 5 world0)
      = Some n /\ (1 <= n <= 24)%nat.
Proof.
  apply (X11_monitorTrade_ends default_config env_late_stop_loss mintA 100 5
           world0 25).
  - intros i. cbn [env_late_stop_loss me_ticks].
    destruct (i <? 23)%nat; intros Hin; no_such_decision Hin.
  - reflexivity.
  - lia.
Defined.

(** ** Entries at a positive market cap *)

(** At or above +25 % of a positive entry the quote is positive, hence
    not above 1.25 times itself. *)
Lemma profit_excludes_milestone (m i : Q) :
  (0 < i)%Q ->
  num_ge (percent_of (m - i) i) 25 = true ->
  Qgt_bool m (m * PROFIT_TARGET_2) = false.
Proof.
  intros Hi Hge. rewrite (percent_of_positive _ _ Hi) in Hge.
  cbn [num_ge] in Hge. apply Qle_bool_iff in Hge.
  pose proof (change_times_entry m i Hi) as Hx.
  set (x := ((m - i) / i)%Q) in *.
  assert (Hq : (1 # 4 <= x)%Q) by lra.
  assert (Hxi : ((1 # 4) * i <= x * i)%Q)
    by (apply Qmult_le_compat_r; [exact Hq | apply Qlt_le_weak; exact Hi]).
  unfold Qgt_bool, PROFIT_TARGET_2. apply negb_false_iff. apply Qle_bool_iff. lra.
Qed.

Lemma sales_app (a b : list event) : sales (a ++ b) = (sales a + sales b)%nat.
Proof. unfold sales. rewrite filter_app, length_app. reflexivity. Qed.

Lemma sales_decisions (evs : list event) : sales (decisions evs) = sales evs.
Proof.
  unfold sales, decisions. induction evs as [|e evs IH]; [reflexivity|].
  cbn [filter]. destruct e as [m|tr|ms|mint pct|mint|b];
    try (cbn [is_decision is_sale filter]; exact IH).
  - destruct m; cbn [is_decision is_sale filter]; exact IH.
  - cbn [is_decision is_sale filter List.length]. rewrite IH. reflexivity.
Qed.

Lemma milestone_in_decisions (evs : list event) :
  In (Log MsgMilestone) evs <-> In (Log MsgMilestone) (decisions evs).
Proof.
  unfold decisions. rewrite filter_In. split; [intros H; split; [exact H|reflexivity]|].
  intros [H _]. exact H.
Qed.

(** The profit branch leaves [continueTrade] set for the exit check. *)
Lemma profit_at_checks cfg mint init t l w info :
  primary_branch cfg init info = Profit ->
  continueTrade (overrides (at_checks cfg mint init info t l w)) = true.
Proof.
  intros Hbr. unfold at_checks. rewrite primary_run, Hbr. cbv zeta. run_norm.
  rewrite milestone_run. destruct (Qgt_bool _ _); cbv zeta; run_norm;
    [|reflexivity].
  rewrite await_sellTokens_overrides. apply presses_continue. reflexivity.
Qed.

(** One tick of a position entered at a positive market cap, while
    [lastMarketCap] is still the entry. *)
Lemma positive_tick cfg mint init t l w :
  (0 < init)%Q -> lastMarketCap l = init ->
  ~ In (Log MsgMilestone) (decisions (trace (iteration cfg mint init t l w))) /\
  (sales (decisions (trace (iteration cfg mint init t l w))) <= 1)%nat /\
  (fst (value (iteration cfg mint init t l w)) = Next ->
   lastMarketCap (snd (value (iteration cfg mint init t l w))) = init /\
   sales (decisions (trace (iteration cfg mint init t l w))) = O).
Proof.
  intros Hpos Hlast.
  destruct (qe_info (tk_quote t)) as [info|] eqn:Hq.
  - pose proof (primary_branch_cases cfg init info) as Hcases.
    destruct (primary_branch cfg init info) eqn:Hbr.
    + pose proof (checked_tick_decisions cfg mint init t l w info Hq
                    (or_introl Hbr)) as Hd.
      destruct (checked_tick_exit cfg mint init t l w info Hq (or_introl Hbr))
        as (Hv & _).
      rewrite Hbr in Hd.
      rewrite (profit_excludes_milestone _ _ Hpos Hcases) in Hd.
      rewrite (profit_at_checks cfg mint init t l w info Hbr) in Hd, Hv.
      cbn [orb] in Hv. rewrite Hd, Hv. split; [|split].
      * destruct (resetTimer _); intros Hin; no_such_decision Hin.
      * destruct (resetTimer _); cbn; lia.
      * discriminate.
    + assert (Hskip : skips_checks cfg init t = true)
        by (unfold skips_checks; rewrite Hq, Hbr; reflexivity).
      rewrite iteration_run, body_run, Hq, primary_run, Hbr. cbv zeta. run_norm.
      decisions_norm. split; [|split].
      * intros Hin. no_such_decision Hin.
      * cbn. lia.
      * discriminate.
    + rewrite iteration_run, body_run, Hq, primary_run, Hbr. cbv zeta. run_norm.
      decisions_norm. split; [|split].
      * intros Hin. no_such_decision Hin.
      * cbn. lia.
      * discriminate.
    + destruct Hcases as (Hge & _ & _).
      pose proof (no_profit_excludes_milestone _ _ Hpos Hge) as Hm.
      pose proof (checked_tick_decisions cfg mint init t l w info Hq
                    (or_intror Hbr)) as Hd.
      destruct (checked_tick_exit cfg mint init t l w info Hq (or_intror Hbr))
        as (Hv & _).
      rewrite Hbr, Hlast, Hm in Hd.
      pose proof (checked_tick_lastMarketCap cfg mint init t l w info Hq Hbr) as Hl.
      rewrite Hlast in Hl. specialize (Hl Hm).
      rewrite Hd, Hv. clear Hd Hv.
      destruct (resetTimer _), (continueTrade _), (sellImmediately _);
        cbn [orb app]; (split; [intros Hin; no_such_decision Hin|]);
        (split; [cbn; lia|]); intros Hn; try discriminate Hn;
        (split; [exact Hl | reflexivity]).
  - rewrite iteration_run, body_run, Hq. run_norm. split; [|split].
    + intros [].
    + cbn. lia.
    + intros _. split; [exact Hlast | reflexivity].
Qed.

Lemma positive_loop cfg mint init ticks :
  (0 < init)%Q ->
  forall fuel i l w,
    lastMarketCap l = init ->
    ~ In (Log MsgMilestone)
        (decisions (trace (monitor_loop cfg mint init ticks fuel i l w))) /\
    (sales (decisions (trace (monitor_loop cfg mint init ticks fuel i l w))) <= 1)%nat.
Proof.
  intros Hpos. induction fuel as [|fuel IH]; intros i l w Hlast.
  - cbn. split; [intros [] | lia].
  - destruct (Z_lt_le_dec (now w) (endTime l)) as [Hlt|Hge].
    + rewrite (monitor_loop_step _ _ _ _ _ _ _ _ Hlt). cbv zeta.
      destruct (positive_tick cfg mint init (ticks i) l w Hpos Hlast)
        as (Hm & Hs & Hnext).
      destruct (fst (value (iteration cfg mint init (ticks i) l w))) eqn:Hctl.
      * destruct (Hnext eq_refl) as [Hl' Hzero].
        destruct (IH (S i) (snd (value (iteration cfg mint init (ticks i) l w)))
                    (final (iteration cfg mint init (ticks i) l w)) Hl')
          as [IHm IHs].
        run_norm. rewrite decisions_app, sales_app, Hzero. split; [|exact IHs].
        intros Hin. apply in_app_or in Hin. tauto.
      * run_norm. split; assumption.
    + rewrite monitor_loop_done by lia. cbn. split; [intros [] | lia].
Qed.

(** X12.  When the entry market cap is positive, a run of [monitorTrade]
    never takes the milestone branch of lines 282-286, and it calls
    [sellTokens] at most twice: at most once inside the loop and at most
    once for the timeout. *)
Theorem X12_positive_entry_sales (cfg : config) (env : monitor_env)
    (fuel : nat) (mint : string) (init bc : Q) (w : World) :
  (0 < init)%Q ->
  let r := monitorTrade cfg env fuel mint init bc w in
  ~ In (Log MsgMilestone) (trace r) /\
  (sales (trace r) <= 2)%nat.
Proof.
  intros Hpos r. unfold r.
  rewrite milestone_in_decisions, <- sales_decisions.
  rewrite monitorTrade_run. cbv zeta.
  destruct (positive_loop cfg mint init (me_ticks env) Hpos fuel O
              (Locals (now w + SELL_TIMEOUT) init) w eq_refl) as [Hm Hs].
  destruct (value (monitor_loop cfg mint init (me_ticks env) fuel 0
                     (Locals (now w + SELL_TIMEOUT) init) w)) as [[n l']|].
  - destruct (endTime l' <=? now _); cbv zeta; run_norm.
    + decisions_norm. rewrite sales_app. split.
      * intros Hin. apply in_app_or in Hin. destruct Hin as [Hin|Hin];
          [exact (Hm Hin) | no_such_decision Hin].
      * cbn [sales filter is_sale List.length]. lia.
    + split; [exact Hm | lia].
  - run_norm. split; [exact Hm | lia].
Qed.

(** The theorem on [env_late_stop_loss]: two sales, no milestone. *)
Lemma X12_positive_entry_sales_witness :
  sales (trace (monitorTrade default_config env_late_stop_loss 30 mintA 100 5 world0))
    = 2%nat /\
  ~ In (Log MsgMilestone)
      (trace (monitorTrade default_config env_late_stop_loss 30 mintA 100 5 world0)).
Proof.
  destruct (X12_positive_entry_sales default_config env_late_stop_loss 30 mintA
              100 5 world0) as [Hm _].
  - reflexivity.
  - split; [vm_compute; reflexivity | exact Hm].
Defined.

(** ** The evaluation of a candidate *)

Lemma pumpFun_events failed net data e :
  In e (snd (pumpFun failed net data)) ->
  match e with
  | Post tr => tr = data
  | Wait _ => True
  | Log _ => True
  | _ => False
  end.
Proof.
  unfold pumpFun, apiRequest.
  pose proof (api_loop_events net data API_RETRY_LIMIT 0 BASE_API_DELAY e) as Hev.
  destruct (api_loop net data 0 API_RETRY_LIMIT BASE_API_DELAY) as [r evs].
  cbn [snd] in Hev.
  assert (Hweak : In e evs ->
            match e with
            | Post tr => tr = data
            | Wait _ => True
            | Log _ => True
            | _ => False
            end).
  { intros Hin. specialize (Hev Hin). destruct e as [m| | | | |]; auto. }
  destruct r as [[|h]| |]; cbn [snd]; intros Hin; try exact (Hweak Hin);
    apply in_app_or in Hin; destruct Hin as [Hin|[<-|[]]];
    try exact (Hweak Hin); exact I.
Qed.

Lemma sellTokens_concerns cfg rpc net mint pct e :
  pct = 1 # 2 \/ pct = 1%Q \/ pct = 3 # 4 ->
  In e (snd (sellTokens rpc net mint pct)) -> concerns cfg mint e.
Proof.
  intros Hpct Hin.
  destruct e as [m|tr|ms|m p|m|b]; try exact I.
  - (* a post *)
    unfold sellTokens in Hin.
    destruct (fetchSPLTokens rpc) as [tokens evs1] eqn:Hfetch.
    pose proof (sell_scan_posts net mint pct tokens tr) as Hposts.
    destruct (sell_scan net mint pct tokens) as [r evs2]. cbn [snd] in *.
    destruct Hin as [Heq|Hin]; [discriminate Heq|].
    apply in_app_or in Hin. destruct Hin as [Hin|Hin].
    + exfalso. destruct rpc; cbn in Hfetch; injection Hfetch as _ <-.
      * destruct Hin.
      * destruct Hin as [Heq|[]]. discriminate Heq.
    + destruct (Hposts Hin) as (Ht & Hm & Ha & _).
      cbn [concerns]. rewrite Ht. split; assumption.
  - (* a call of sellTokens *)
    assert (Hd : In (SellTokens m p) (decisions (snd (sellTokens rpc net mint pct)))).
    { unfold decisions. apply filter_In. split; [exact Hin | reflexivity]. }
    rewrite sellTokens_decisions in Hd. destruct Hd as [Heq|[]].
    injection Heq as <- <-. split; [reflexivity | exact Hpct].
  - (* a subscription *)
    exfalso. unfold sellTokens in Hin.
    destruct (fetchSPLTokens rpc) as [tokens evs1] eqn:Hfetch.
    assert (Hscan : ~ In (Subscribe m) (snd (sell_scan net mint pct tokens))).
    { rewrite sell_scan_held. destruct (held mint tokens) as [t|]; [|intros []].
      cbn [sell_scan]. destruct (String.eqb (tok_mint t) mint); [|intros []].
      destruct (Qle_bool 1 (tok_amount t * pct)).
      - unfold pumpFunSell.
        pose proof (pumpFun_events MsgSellFailed net
                      (Trade Sell mint (tok_amount t * pct)) (Subscribe m)) as Hev.
        destruct (pumpFun MsgSellFailed net (Trade Sell mint (tok_amount t * pct)))
          as [txHash evs].
        cbn [snd] in *. intros [Heq|H]; [discriminate Heq|].
        apply in_app_or in H. destruct H as [H|H]; [exact (Hev H)|].
        destruct (truthy txHash); [|destruct H].
        destruct txHash; [|destruct H ..]. destruct H as [Heq|[]]. discriminate Heq.
      - intros [Heq|[]]. discriminate Heq. }
    destruct (sell_scan net mint pct tokens) as [r evs2]. cbn [snd] in *.
    destruct Hin as [Heq|Hin]; [discriminate Heq|].
    apply in_app_or in Hin. destruct Hin as [Hin|Hin]; [|exact (Hscan Hin)].
    destruct rpc; cbn in Hfetch; injection Hfetch as _ <-.
    + destruct Hin.
    + destruct Hin as [Heq|[]]. discriminate Heq.
Qed.

Lemma await_sellTokens_concerns cfg env mint pct w e :
  pct = 1 # 2 \/ pct = 1%Q \/ pct = 3 # 4 ->
  In e (trace (await_sellTokens env mint pct w)) -> concerns cfg mint e.
Proof.
  intros Hpct. rewrite await_sellTokens_run. run_norm.
  apply sellTokens_concerns. exact Hpct.
Qed.

(** Splits a hypothesis of membership in a trace built from the runs of
    the phases. *)
Ltac in_trace H :=
  repeat match type of H with
         | In _ (_ ++ _) => apply in_app_or in H; destruct H as [H|H]
         | In _ (_ :: _) => destruct H as [H|H]; [subst; try exact I; try reflexivity|]
         | In _ [] => destruct H
         end.

Lemma iteration_concerns cfg mint init t l w e :
  In e (trace (iteration cfg mint init t l w)) -> concerns cfg mint e.
Proof.
  rewrite iteration_trace, body_run.
  destruct (qe_info (tk_quote t)) as [info|]; cbv zeta.
  2:{ run_norm. intros H. in_trace H. }
  rewrite primary_run.
  destruct (primary_branch cfg init info); cbv zeta; run_norm;
    rewrite ?milestone_run, ?check_resetTimer_run, ?check_exit_run;
    repeat match goal with
           | |- context [if ?b then _ else _] => destruct b; cbv zeta; run_norm
           end;
    intros H; in_trace H;
    try (eapply await_sellTokens_concerns; [|exact H]; auto).
Qed.

Ltac run_norm_in H :=
  repeat first
    [ rewrite run_value in H | rewrite run_final in H | rewrite run_trace in H
    | progress cbn [fst snd now overrides resetTimer continueTrade
                    sellImmediately endTime lastMarketCap] in H ].

Lemma monitor_loop_concerns cfg mint init ticks e :
  forall fuel i l w,
    In e (trace (monitor_loop cfg mint init ticks fuel i l w)) ->
    concerns cfg mint e.
Proof.
  induction fuel as [|fuel IH]; intros i l w Hin; [destruct Hin|].
  destruct (Z_lt_le_dec (now w) (endTime l)) as [Hlt|Hge].
  - rewrite (monitor_loop_step _ _ _ _ _ _ _ _ Hlt) in Hin. cbv zeta in Hin.
    destruct (fst (value (iteration cfg mint init (ticks i) l w)));
      run_norm_in Hin.
    + apply in_app_or in Hin. destruct Hin as [Hin|Hin].
      * exact (iteration_concerns _ _ _ _ _ _ _ Hin).
      * exact (IH _ _ _ Hin).
    + exact (iteration_concerns _ _ _ _ _ _ _ Hin).
  - rewrite monitor_loop_done in Hin by lia. destruct Hin.
Qed.

Lemma monitorTrade_concerns cfg env fuel mint init bc w e :
  In e (trace (monitorTrade cfg env fuel mint init bc w)) -> concerns cfg mint e.
Proof.
  rewrite monitorTrade_run. cbv zeta.
  pose proof (monitor_loop_concerns cfg mint init (me_ticks env) e fuel O
                (Locals (now w + SELL_TIMEOUT) init) w) as Hloop.
  destruct (value (monitor_loop cfg mint init (me_ticks env) fuel 0
                     (Locals (now w + SELL_TIMEOUT) init) w)) as [[n l']|].
  - destruct (endTime l' <=? now _); cbv zeta; run_norm; [|exact Hloop].
    intros H. in_trace H; [exact (Hloop H)|].
    eapply await_sellTokens_concerns; [|exact H]. auto.
  - run_norm. exact Hloop.
Qed.

Lemma await_pumpFunBuy_run e mint amount w :
  await_pumpFunBuy e mint amount w =
    (fst (pumpFunBuy (be_net e) mint amount),
     {| now := now w + total (waits (snd (pumpFunBuy (be_net e) mint amount)))
                + Z.of_N (elapsed (be_lapse e));
        overrides := presses (pressed (be_lapse e)) (overrides w) |},
     snd (pumpFunBuy (be_net e) mint amount)).
Proof.
  unfold await_pumpFunBuy, bind, emits, suspend, ret, value, final, trace.
  cbn [fst snd]. rewrite !app_nil_r. reflexivity.
Qed.

(** The handler after its first suspension, case by case. *)
Lemma evaluate_run cfg env fuel mint w :
  evaluate cfg env fuel mint w =
    if eligible cfg env then
      match qe_info (ce_quote env) with
      | None => (Some tt, candidate_quoted env w, [Subscribe mint])
      | Some info =>
          let b := await_pumpFunBuy (ce_buy env) mint (MINIMUM_BUY_AMOUNT cfg)
                     (candidate_quoted env w) in
          let opening :=
            [Subscribe mint; Log (MsgFound info mint); VisualMode true] ++ trace b in
          if truthy (value b) then
            let r := monitorTrade cfg (ce_monitor env) fuel mint
                       (marketcap info) (bondingCurve info) (final b) in
            match value r with
            | None => (None, final r, opening ++ trace r)
            | Some _ =>
                (Some tt, final r, opening ++ trace r ++ [VisualMode false])
            end
          else (Some tt, final b, opening ++ [VisualMode false])
      end
    else (Some tt, candidate_quoted env w, [Subscribe mint]).
Proof.
  unfold evaluate, eligible. rewrite bind_eq. cbv zeta.
  rewrite getTokenInfoFromWebSocket_run. run_norm. fold (candidate_quoted env w).
  destruct (qe_info (ce_quote env)) as [info|]; [|reflexivity].
  destruct (Qgt_bool _ _); [|reflexivity].
  unfold emit. repeat (rewrite bind_eq; cbv zeta; run_norm).
  destruct (truthy (value (await_pumpFunBuy _ _ _ _))).
  - destruct (monitorTrade cfg (ce_monitor env) fuel mint (marketcap info)
                (bondingCurve info) _) as [[[n|] w2] evs2]; run_norm.
    + rewrite bind_eq. cbv zeta. unfold ret. run_norm. cbn [app].
      rewrite ?app_nil_r, <- ?app_assoc. reflexivity.
    + unfold ret. run_norm. cbn [app]. rewrite ?app_nil_r. reflexivity.
  - unfold ret. run_norm. rewrite bind_eq. cbv zeta. run_norm. cbn [app].
    rewrite ?app_nil_r. reflexivity.
Qed.

(** X13.  Whatever the feeds and the endpoints answer, everything the
    handler does for a candidate concerns that candidate's mint: it
    subscribes to no other mint, every order it posts is for this mint,
    every purchase is of [MINIMUM_BUY_AMOUNT], every sale is of at least
    one unit, and [sellTokens] is only called with 50 %, 75 % or 100 %. *)
Theorem X13_evaluate_concerns_candidate (cfg : config) (env : candidate_env)
    (fuel : nat) (mint : string) (w : World) (e : event) :
  In e (trace (evaluate cfg env fuel mint w)) -> concerns cfg mint e.
Proof.
  rewrite evaluate_run.
  destruct (eligible cfg env); [|run_norm; intros H; in_trace H].
  destruct (qe_info (ce_quote env)) as [info|];
    [|run_norm; intros H; in_trace H].
  cbv zeta.
  assert (Hbuy : In e (trace (await_pumpFunBuy (ce_buy env) mint
                                (MINIMUM_BUY_AMOUNT cfg) (candidate_quoted env w))) ->
                 concerns cfg mint e).
  { rewrite await_pumpFunBuy_run. run_norm. unfold pumpFunBuy. intros Hin.
    pose proof (pumpFun_events _ _ _ _ Hin) as Hev.
    destruct e as [m|tr| | | |]; try exact I; try contradiction.
    rewrite Hev. split; reflexivity. }
  destruct (truthy _).
  - pose proof (monitorTrade_concerns cfg (ce_monitor env) fuel mint
                  (marketcap info) (bondingCurve info)
                  (final (await_pumpFunBuy (ce_buy env) mint
                            (MINIMUM_BUY_AMOUNT cfg) (candidate_quoted env w))) e)
      as Hmon.
    destruct (value (monitorTrade _ _ _ _ _ _ _)); run_norm;
      intros H; in_trace H; auto.
  - run_norm. intros H. in_trace H; auto.
Qed.

(** The theorem on [env_bought]: the order bought is for [mintA] and
    0.015. *)
Lemma X13_evaluate_concerns_candidate_witness :
  concerns default_config mintA (Post (Trade Buy mintA (15 # 1000))).
Proof.
  apply (X13_evaluate_concerns_candidate default_config env_bought 10 mintA world0).
  vm_compute. right. right. right. left. reflexivity.
Defined.

(** X14.  The handler opens no position, and posts no sale, in three
    cases.  A candidate whose quote does not arrive, or whose bonding
    curve is not strictly below [MAX_BONDING_CURVE_PROGRESS], is dropped
    after the subscription alone, without a purchase.  A candidate that
    is eligible but whose purchase returns no usable hash ([null],
    [undefined] or the empty string) is logged and bought, but
    [monitorTrade] is not entered and the display goes back to
    searching. *)
Theorem X14_evaluate_without_position (cfg : config) (env : candidate_env)
    (fuel : nat) (mint : string) (w : World) :
  (eligible cfg env = false ->
     evaluate cfg env fuel mint w =
       (Some tt, candidate_quoted env w, [Subscribe mint])) /\
  (forall info,
     qe_info (ce_quote env) = Some info ->
     eligible cfg env = true ->
     truthy (fst (pumpFunBuy (be_net (ce_buy env)) mint (MINIMUM_BUY_AMOUNT cfg)))
       = false ->
     value (evaluate cfg env fuel mint w) = Some tt /\
     trace (evaluate cfg env fuel mint w) =
       [Subscribe mint; Log (MsgFound info mint); VisualMode true] ++
       snd (pumpFunBuy (be_net (ce_buy env)) mint (MINIMUM_BUY_AMOUNT cfg)) ++
       [VisualMode false] /\
     sales (trace (evaluate cfg env fuel mint w)) = O).
Proof.
  split.
  - intros Hno. rewrite evaluate_run, Hno. reflexivity.
  - intros info Hq Hyes Hbuy. rewrite evaluate_run, Hyes, Hq. cbv zeta.
    rewrite await_pumpFunBuy_run. run_norm. rewrite Hbuy. run_norm.
    split; [reflexivity|]. split; [reflexivity|].
    rewrite <- sales_decisions, !decisions_app.
    unfold pumpFunBuy. rewrite (pumpFun_decisions MsgBuyFailed _ _ eq_refl).
    reflexivity.
Qed.

(** The theorem on [env_at_threshold], whose bonding curve is exactly the
    threshold of 10, and on [env_buy_fails]. *)
Lemma X14_evaluate_without_position_witness :
  trace (evaluate default_config env_at_threshold 10 mintA world0)
    = [Subscribe mintA] /\
  sales (trace (evaluate default_config env_buy_fails 10 mintA world0)) = O.
Proof.
  destruct (X14_evaluate_without_position default_config env_at_threshold 10
              mintA world0) as [Hdrop _].
  destruct (X14_evaluate_without_position default_config env_buy_fails 10
              mintA world0) as [_ Hfail].
  split.
  - rewrite Hdrop; reflexivity.
  - apply (Hfail (quote 100 5)); reflexivity.
Defined.

(** X15.  A tick after which the loop goes on has taken at least the poll
    interval: inside one monitor the quote feed is never subscribed to
    twice within 5 s, whatever the quotes, the sales and the keys. *)
Theorem X15_poll_interval (cfg : config) (mint : string) (init : Q)
    (t : tick) (l : locals) (w : World) :
  fst (value (iteration cfg mint init t l w)) = Next ->
  now w + 5000 <= now (final (iteration cfg mint init t l w)).
Proof.
  intros Hnext.
  destruct (next_tick cfg mint init t l w Hnext) as [Hnow _].
  unfold MONITOR_INTERVAL in Hnow. lia.
Qed.

(** The theorem on the first tick of [env_slow_feed], which lasts 13 s. *)
Lemma X15_poll_interval_witness :
  now world0 + 5000 <=
    now (final (iteration default_config mintA 100 (me_ticks env_slow_feed O)
                  (Locals 120000 100) world0)).
Proof.
  apply (X15_poll_interval default_config mintA 100 (me_ticks env_slow_feed O)
           (Locals 120000 100) world0).
  reflexivity.
Defined.

(** ** A monitor kept alive *)

Lemma restless_tick_cases cfg init t :
  restless_tick cfg init t = true ->
  pressed (qe_lapse (tk_quote t)) = [KeyR] /\
  pressed (tk_sleep t) = [] /\
  MONITOR_INTERVAL + Z.of_N (elapsed (tk_sleep t)) < SELL_TIMEOUT /\
  exists info,
    qe_info (tk_quote t) = Some info /\
    primary_branch cfg init info = NoBranch /\
    Qgt_bool (marketcap info) (init * PROFIT_TARGET_2) = false.
Proof.
  unfold restless_tick.
  destruct (pressed (qe_lapse (tk_quote t))) as [|[| |] [|k ks]];
    destruct (pressed (tk_sleep t));
    destruct (qe_info (tk_quote t)) as [info|]; try discriminate.
  destruct (primary_branch cfg init info) eqn:Hbr; try discriminate.
  intros H. apply andb_true_iff in H. destruct H as [Hm Ht].
  apply negb_true_iff in Hm. apply Z.ltb_lt in Ht.
  repeat split; try assumption. exists info. auto.
Qed.

Lemma restless_iteration cfg mint init t l w :
  restless_tick cfg init t = true ->
  overrides w = no_flags ->
  lastMarketCap l = init ->
  iteration cfg mint init t l w =
    ((Next, Locals (now (quoted t w) + SELL_TIMEOUT) init),
     {| now := now (quoted t w) + MONITOR_INTERVAL + Z.of_N (elapsed (tk_sleep t));
        overrides := no_flags |},
     trace (iteration cfg mint init t l w)) /\
  decisions (trace (iteration cfg mint init t l w)) = [Log MsgResetTimer].
Proof.
  intros Hrest Hflags Hlast.
  destruct (restless_tick_cases cfg init t Hrest)
    as (Hk1 & Hk2 & _ & info & Hq & Hbr & Hm).
  assert (Hw : overrides (quoted t w) = Flags true false false).
  { unfold quoted. cbn [overrides]. rewrite Hk1, Hflags. reflexivity. }
  unfold no_flags in *.
  rewrite iteration_run, body_run, Hq. cbv zeta.
  rewrite primary_run, Hbr. run_norm.
  rewrite milestone_run, Hlast, Hm. run_norm.
  rewrite check_resetTimer_run, Hw. run_norm.
  rewrite check_exit_run. run_norm. rewrite Hk2, ?Hlast.
  cbn [presses fold_left].
  split; [reflexivity|]. decisions_norm. reflexivity.
Qed.

Lemma restless_loop cfg mint init ticks :
  (forall i, restless_tick cfg init (ticks i) = true) ->
  forall fuel i l w,
    overrides w = no_flags ->
    lastMarketCap l = init ->
    now w < endTime l ->
    value (monitor_loop cfg mint init ticks fuel i l w) = None /\
    sales (decisions (trace (monitor_loop cfg mint init ticks fuel i l w))) = O.
Proof.
  intros Hrest. induction fuel as [|fuel IH]; intros i l w Hflags Hlast Hlt.
  - split; reflexivity.
  - destruct (restless_iteration cfg mint init (ticks i) l w (Hrest i) Hflags Hlast)
      as [Hrun Hd].
    destruct (restless_tick_cases cfg init (ticks i) (Hrest i))
      as (_ & _ & Hsleep & _).
    rewrite (monitor_loop_step _ _ _ _ _ _ _ _ Hlt). cbv zeta.
    rewrite Hrun. run_norm.
    destruct (IH (S i) (Locals (now (quoted (ticks i) w) + SELL_TIMEOUT) init)
                {| now := now (quoted (ticks i) w) + MONITOR_INTERVAL
                          + Z.of_N (elapsed (tk_sleep (ticks i)));
                   overrides := no_flags |})
      as [IHv IHs]; try reflexivity.
    { cbn [now endTime]. lia. }
    split; [exact IHv|].
    rewrite decisions_app, sales_app, Hd, IHs. reflexivity.
Qed.

(** The state in which each iteration of such a run starts. *)
Lemma restless_entering cfg mint init ticks l w :
  (forall i, restless_tick cfg init (ticks i) = true) ->
  overrides w = no_flags ->
  lastMarketCap l = init ->
  now w < endTime l ->
  forall n,
    overrides (snd (entering cfg mint init ticks n l w)) = no_flags /\
    lastMarketCap (fst (entering cfg mint init ticks n l w)) = init /\
    now (snd (entering cfg mint init ticks n l w)) <
      endTime (fst (entering cfg mint init ticks n l w)).
Proof.
  intros Hrest Hflags Hlast Hlt. induction n as [|n (IHf & IHl & IHt)].
  - cbn [entering fst snd]. auto.
  - cbn [entering]. cbv zeta.
    destruct (restless_iteration cfg mint init (ticks n) _ _ (Hrest n) IHf IHl)
      as [Hrun _].
    destruct (restless_tick_cases cfg init (ticks n) (Hrest n))
      as (_ & _ & Hsleep & _).
    rewrite Hrun. run_norm. cbn [fst snd overrides lastMarketCap now endTime].
    repeat split. lia.
Qed.

(** X16.  The timeout is no bound on the life of a monitor.  With no
    other monitor running, as long as R is pressed while the quote of
    every tick is awaited, and nothing else fires, every iteration is
    entered before the deadline, moves the deadline to two minutes after
    the arrival of its quote and does not leave the loop; so the loop is
    never left and nothing is sold, however many iterations are run. *)
Theorem X16_reset_keeps_monitor_alive (cfg : config) (env : monitor_env)
    (mint : string) (init bc : Q) (w : World) :
  (forall i, restless_tick cfg init (me_ticks env i) = true) ->
  overrides w = no_flags ->
  (forall n,
     let s := entering cfg mint init (me_ticks env) n
                (Locals (now w + SELL_TIMEOUT) init) w in
     let r := iteration cfg mint init (me_ticks env n) (fst s) (snd s) in
     now (snd s) < endTime (fst s) /\
     fst (value r) = Next /\
     endTime (snd (value r)) =
       now (quoted (me_ticks env n) (snd s)) + SELL_TIMEOUT /\
     resetTimer (overrides (final r)) = false) /\
  (forall fuel,
     value (monitorTrade cfg env fuel mint init bc w) = None /\
     sales (trace (monitorTrade cfg env fuel mint init bc w)) = O).
Proof.
  intros Hrest Hflags.
  assert (Hlt : now w < endTime (Locals (now w + SELL_TIMEOUT) init))
    by (cbn [endTime]; unfold SELL_TIMEOUT; lia).
  split.
  - intros n s r.
    destruct (restless_entering cfg mint init (me_ticks env)
                (Locals (now w + SELL_TIMEOUT) init) w Hrest Hflags eq_refl Hlt n)
      as (Hf & Hl & Ht).
    fold s in Hf, Hl, Ht.
    destruct (restless_iteration cfg mint init (me_ticks env n) _ _ (Hrest n) Hf Hl)
      as [Hrun _].
    fold r in Hrun. split; [exact Ht|].
    rewrite Hrun. run_norm. repeat split.
  - intros fuel.
    destruct (restless_loop cfg mint init (me_ticks env) Hrest fuel O
                (Locals (now w + SELL_TIMEOUT) init) w Hflags eq_refl Hlt)
      as [Hv Hs].
    rewrite monitorTrade_run. cbv zeta. rewrite Hv. run_norm.
    split; [reflexivity|]. rewrite <- sales_decisions. exact Hs.
Qed.

(** The theorem on [env_restless], for a thousand iterations. *)
Lemma X16_reset_keeps_monitor_alive_witness :
  value (monitorTrade default_config env_restless 1000 mintA 100 5 world0) = None.
Proof.
  destruct (X16_reset_keeps_monitor_alive default_config env_restless mintA 100 5
              world0) as [_ Hrun].
  - intros i. reflexivity.
  - reflexivity.
  - destruct (Hrun 1000%nat) as [Hv _]. exact Hv.
Defined.

(** ** The rate of the scanner *)

Lemma scan_candidates (feed : list (Z * feed_message)) : forall s t mint,
  In (t, mint) (snd (scan feed s)) -> In (t, NewPair mint) feed.
Proof.
  induction feed as [|[u m] feed IH]; intros s t mint Hin; [destruct Hin|].
  cbn [scan] in Hin.
  destruct (on_message u m (fire u s)) as [s1 c] eqn:Hmsg.
  specialize (IH s1 t mint).
  destruct (scan feed s1) as [s2 cs]. cbn [snd] in *.
  destruct c as [mint'|].
  - destruct Hin as [Heq|Hin]; [|right; apply IH; exact Hin].
    injection Heq as <- <-. left.
    unfold on_message in Hmsg.
    destruct (cooldownActive (fire u s)); [discriminate Hmsg|].
    destruct m as [mint''|]; [|discriminate Hmsg].
    injection Hmsg as _ <-. reflexivity.
  - right. apply IH. exact Hin.
Qed.

Lemma spaced_count (cs : list (Z * string)) : forall d T,
  spaced_from d cs ->
  (forall c, In c cs -> fst c <= T) ->
  cs <> [] ->
  d + COOLDOWN * (Z.of_nat (List.length cs) - 1) <= T.
Proof.
  induction cs as [|[t m] cs IH]; intros d T Hsp Hmax Hne; [congruence|].
  destruct Hsp as [Hd Hsp]. cbn [List.length].
  pose proof (Hmax (t, m) (or_introl eq_refl)) as Ht. cbn [fst] in Ht.
  destruct cs as [|c cs].
  - cbn. unfold COOLDOWN. lia.
  - assert (Hrec : t + COOLDOWN + COOLDOWN * (Z.of_nat (List.length (c :: cs)) - 1) <= T).
    { apply IH; [exact Hsp | | discriminate].
      intros x Hx. apply Hmax. right. exact Hx. }
    unfold COOLDOWN in *. cbn [List.length] in *. lia.
Qed.

(** X17.  Every candidate the scanner hands to the evaluation is a new
    listing of the feed, taken at its arrival time; and out of the
    messages that arrive between the times [t0] and [T] it hands over at
    most [(T - t0) / 15 s + 1], so that it attempts at most that many
    purchases. *)
Theorem X17_scanner_rate (feed : list (Z * feed_message)) (t0 T : Z) :
  ordered t0 feed ->
  (forall a, In a feed -> fst a <= T) ->
  let cs := snd (scan feed scanner_init) in
  (forall t mint, In (t, mint) cs -> In (t, NewPair mint) feed) /\
  (cs <> [] -> 15000 * (Z.of_nat (List.length cs) - 1) <= T - t0).
Proof.
  intros Hord Hmax cs. unfold cs. split.
  - intros t mint. apply scan_candidates.
  - intros Hne.
    pose proof (scan_spaced feed t0 t0 Hord) as [_ Hsp].
    specialize (Hsp ltac:(lia)).
    pose proof (spaced_count (snd (scan feed scanner_init)) t0 T Hsp) as Hcount.
    unfold COOLDOWN in Hcount.
    assert (Hall : forall x, In x (snd (scan feed scanner_init)) -> fst x <= T).
    { intros [t mint] Hx. apply scan_candidates in Hx. apply (Hmax _ Hx). }
    specialize (Hcount Hall Hne). lia.
Qed.

(** The theorem on [feed_burst], which spans 31 s: three candidates. *)
Lemma X17_scanner_rate_witness :
  15000 * (Z.of_nat (List.length (snd (scan feed_burst scanner_init))) - 1)
    <= 31000 - 0.
Proof.
  destruct (X17_scanner_rate feed_burst 0 31000) as [_ Hrate].
  - cbn. lia.
  - intros a Hin. repeat (destruct Hin as [<-|Hin]; [cbn; lia|]). destruct Hin.
  - apply Hrate. discriminate.
Defined.

Lemma scan_other_channels (others : list (Z * feed_message)) :
  Forall (fun a => snd a = OtherChannel) others ->
  forall rest,
    scan (others ++ rest) scanner_init = scan rest scanner_init.
Proof.
  induction 1 as [|[t m] others Hm _ IH]; intros rest; [reflexivity|].
  cbn [snd] in Hm. subst m. cbn [app scan]. rewrite fire_idle.
  cbn [on_message scanner_init cooldownActive]. fold scanner_init.
  rewrite IH. destruct (scan rest scanner_init). reflexivity.
Qed.

(** X18.  Messages of other channels neither start the cooldown nor an
    evaluation, and from the initial state the first new listing of a
    feed is always evaluated, at its arrival time, and starts the
    cooldown. *)
Theorem X18_first_listing_evaluated (others rest : list (Z * feed_message))
    (t : Z) (mint : string) :
  Forall (fun a => snd a = OtherChannel) others ->
  scan others scanner_init = (scanner_init, []) /\
  scan (others ++ (t, NewPair mint) :: rest) scanner_init =
    (fst (scan rest (Scanner true [t + 15000])),
     (t, mint) :: snd (scan rest (Scanner true [t + 15000]))).
Proof.
  intros Hothers. split.
  - rewrite <- (app_nil_r others) at 1.
    rewrite (scan_other_channels others Hothers []). reflexivity.
  - rewrite (scan_other_channels others Hothers). cbn [scan].
    rewrite fire_idle. cbn [on_message scanner_init cooldownActive timers app].
    change (t + COOLDOWN) with (t + 15000).
    destruct (scan rest (Scanner true [t + 15000])). reflexivity.
Qed.

(** The theorem on [feed_noise]. *)
Lemma X18_first_listing_evaluated_witness :
  snd (scan feed_noise scanner_init) = [(20, mintA)].
Proof.
  destruct (X18_first_listing_evaluated [(0, OtherChannel); (10, OtherChannel)]
              [(30, NewPair mintB)] 20 mintA) as [_ Hfirst].
  - repeat constructor.
  - unfold feed_noise.
    change [(0, OtherChannel); (10, OtherChannel); (20, NewPair mintA);
            (30, NewPair mintB)]
      with ([(0, OtherChannel); (10, OtherChannel)] ++
            (20, NewPair mintA) :: [(30, NewPair mintB)]).
    rewrite Hfirst. reflexivity.
Defined.

(** ** The handler as a whole *)

(** X19.  Unless R is pending or pressed, the handler of a new listing
    runs to its end, whatever the candidate, the purchase and the
    monitor do; and when the candidate was eligible, the display it
    switched to trading is switched back to searching as its last
    act. *)
Theorem X19_evaluate_completes (cfg : config) (env : candidate_env)
    (fuel : nat) (mint : string) (w : World) :
  (forall i, ~ In KeyR (all_pressed (me_ticks (ce_monitor env) i))) ->
  ~ In KeyR (pressed (qe_lapse (ce_quote env)) ++ pressed (be_lapse (ce_buy env))) ->
  resetTimer (overrides w) = false ->
  (25 <= fuel)%nat ->
  value (evaluate cfg env fuel mint w) = Some tt /\
  (eligible cfg env = true ->
   exists info middle,
     qe_info (ce_quote env) = Some info /\
     trace (evaluate cfg env fuel mint w) =
       [Subscribe mint; Log (MsgFound info mint); VisualMode true] ++
       middle ++ [VisualMode false]).
Proof.
  intros Hkeys Hlapses Hclear Hfuel. rewrite evaluate_run.
  destruct (eligible cfg env) eqn:Hel; [|split; [reflexivity | discriminate]].
  destruct (qe_info (ce_quote env)) as [info|] eqn:Hq;
    [|unfold eligible in Hel; rewrite Hq in Hel; discriminate Hel].
  cbv zeta.
  set (b := await_pumpFunBuy (ce_buy env) mint (MINIMUM_BUY_AMOUNT cfg)
              (candidate_quoted env w)).
  assert (Hb : resetTimer (overrides (final b)) = false).
  { unfold b. rewrite await_pumpFunBuy_run. run_norm.
    unfold candidate_quoted. cbn [overrides].
    rewrite <- presses_app, presses_resetTimer; assumption. }
  destruct (truthy (value b)).
  - assert (Hn : exists n,
              value (monitorTrade cfg (ce_monitor env) fuel mint (marketcap info)
                       (bondingCurve info) (final b)) = Some n).
    { destruct fuel as [|fuel']; [lia|].
      destruct (loop_ends cfg mint (marketcap info) (me_ticks (ce_monitor env))
                  Hkeys 24 fuel' O
                  (Locals (now (final b) + SELL_TIMEOUT) (marketcap info))
                  (final b) ltac:(lia) Hb)
        as (n & l' & Hrun & _ & _).
      { cbn [endTime]. unfold SELL_TIMEOUT, MONITOR_INTERVAL. lia. }
      rewrite monitorTrade_run. cbv zeta. rewrite Hrun.
      exists n. destruct (endTime l' <=? now _); reflexivity. }
    destruct Hn as (n & Hn).
    rewrite Hn. run_norm. split; [reflexivity|]. intros _.
    exists info.
    exists (trace b ++
            trace (monitorTrade cfg (ce_monitor env) fuel mint (marketcap info)
                     (bondingCurve info) (final b))).
    split; [reflexivity|].
    rewrite <- !app_assoc. reflexivity.
  - run_norm. split; [reflexivity|]. intros _.
    exists info. exists (trace b). split; [reflexivity|].
    rewrite <- !app_assoc. reflexivity.
Qed.

(** The theorem on [env_bought]. *)
Lemma X19_evaluate_completes_witness :
  value (evaluate default_config env_bought 25 mintA world0) = Some tt.
Proof.
  apply (X19_evaluate_completes default_config env_bought 25 mintA world0).
  - intros i Hin. no_such_decision Hin.
  - intros Hin. no_such_decision Hin.
  - reflexivity.
  - lia.
Defined.

(** The theorem X4 on [wallet_twice]: the account with 0.9 token is not
    listed. *)
Lemma X4_fetchSPLTokens_listed_witness :
  fst (fetchSPLTokens (Some wallet_twice)) =
    [Token mintA (3000000 # 1000000); Token mintA (1000000000 # 1000000)].
Proof.
  destruct (X4_fetchSPLTokens_listed wallet_twice) as [Hfetch _].
  rewrite Hfetch. reflexivity.
Defined.
